(** * 2D room planner: geometry and interaction engine

    A shallow embedding of the canvas engine of the room planner
    ([src/types.ts], [src/App.tsx], [src/components/CanvasView.tsx]) and the
    properties of its specification.

    Conventions of the embedding.
    - A JavaScript [number] is a real number [R]: rounding of IEEE doubles is
      not modelled, [Math.sqrt], [Math.cos], [Math.sin], [Math.abs],
      [Math.min], [Math.max] and [Math.PI] are [sqrt], [cos], [sin], [Rabs],
      [Rmin], [Rmax] and [PI]; [Infinity] only occurs as a distance and is the
      extra value [Inf] of [Dist].
    - [CanvasElement] is the tagged union of [types.ts]; an optional field
      ([rotation?], [locked?], ...) is an [option], [undefined] is [None].
    - A [Partial<CanvasElement>] is a record of optional new values; the
      [id] and the [type] tag of an element are never part of an update.
    - React state is explicit: a handler reads the state of the render it
      was created in and returns the state after all its setters ran. *)

From Stdlib Require Import Reals Lra Lia Bool List Ascii String ZArith.
Import ListNotations.
Open Scope R_scope.

(** ** Numbers *)

Definition Rltb (a b : R) : bool := if Rlt_dec a b then true else false.
Definition Rleb (a b : R) : bool := if Rle_dec a b then true else false.
Definition Rgtb (a b : R) : bool := Rltb b a.
Definition Rgeb (a b : R) : bool := Rleb b a.
Definition Reqb (a b : R) : bool := if Req_dec_T a b then true else false.

(** [Math.atan2(y, x)]. *)
Definition atan2 (y x : R) : R :=
  if Rltb 0 x then atan (y / x)
  else if Rltb x 0 then
    (if Rleb 0 y then atan (y / x) + PI else atan (y / x) - PI)
  else if Rltb 0 y then PI / 2
  else if Rltb y 0 then - PI / 2
  else 0.

(** [Math.round]: the nearest integer, halves rounded up. *)
Definition round (a : R) : R := IZR (Int_part (a + 1 / 2)).

(** A distance that may be [Infinity]. *)
Inductive Dist : Type :=
| Fin (d : R)
| Inf.

(** [a < d] for a finite [a]. *)
Definition ltDist (a : R) (d : Dist) : bool :=
  match d with
  | Fin b => Rltb a b
  | Inf => true
  end.

(** [d < b] for a finite [b]. *)
Definition distLt (d : Dist) (b : R) : bool :=
  match d with
  | Fin a => Rltb a b
  | Inf => false
  end.

(** ** Data model ([types.ts]) *)

Inductive Tool : Type :=
| ToolSelect | ToolLine | ToolRectangle | ToolText | ToolDoor | ToolCircle.

Inductive Theme : Type := Light | Dark.

Inductive Side : Type := top | bottom | left | right.

Record Point : Type := mkPoint { pt_x : R; pt_y : R }.

Record BaseElement : Type := mkBase {
  el_id : string;
  el_x : R;
  el_y : R;
  el_color : string;
  el_fillColor : string;
  el_opacity : option R;
  el_strokeWidth : R;
  el_hideDimensions : option bool;
  el_rotation : option R;
  el_text : option string;
  el_locked : option bool
}.

Inductive CanvasElement : Type :=
| Line (b : BaseElement) (endX endY lengthCm : R)
| Rectangle (b : BaseElement) (width height widthCm heightCm : R)
| Text (b : BaseElement) (content : string) (fontSize : R)
       (fontFamily : string)
| Door (b : BaseElement) (width : R)
       (attachedToLine attachedToRectangle : option string)
       (attachmentSide : option Side)
| Circle (b : BaseElement) (radius radiusCm : R).

Definition base (e : CanvasElement) : BaseElement :=
  match e with
  | Line b _ _ _ => b
  | Rectangle b _ _ _ _ => b
  | Text b _ _ _ => b
  | Door b _ _ _ _ => b
  | Circle b _ _ => b
  end.

Definition withBase (e : CanvasElement) (b : BaseElement) : CanvasElement :=
  match e with
  | Line _ ex ey l => Line b ex ey l
  | Rectangle _ w h wc hc => Rectangle b w h wc hc
  | Text _ c f ff => Text b c f ff
  | Door _ w al ar s => Door b w al ar s
  | Circle _ r rc => Circle b r rc
  end.

Definition elemId (e : CanvasElement) : string := el_id (base e).
Definition elemX (e : CanvasElement) : R := el_x (base e).
Definition elemY (e : CanvasElement) : R := el_y (base e).

(** [element.rotation || 0] *)
Definition rotationOr0 (e : CanvasElement) : R :=
  match el_rotation (base e) with
  | Some r => r
  | None => 0
  end.

(** The truth value of [element.locked]. *)
Definition locked (e : CanvasElement) : bool :=
  match el_locked (base e) with
  | Some b => b
  | None => false
  end.

Definition isLine (e : CanvasElement) : bool :=
  match e with Line _ _ _ _ => true | _ => false end.
Definition isRectangle (e : CanvasElement) : bool :=
  match e with Rectangle _ _ _ _ _ => true | _ => false end.
Definition isDoor (e : CanvasElement) : bool :=
  match e with Door _ _ _ _ _ => true | _ => false end.

Record ViewTransform : Type := mkView {
  scale : R;
  offsetX : R;
  offsetY : R
}.

Record Project : Type := mkProject {
  p_id : string;
  p_name : string;
  elements : list CanvasElement;
  pixelsPerCm : R;
  labelFontSize : option R;
  p_viewTransform : option ViewTransform
}.

Definition withElements (p : Project) (es : list CanvasElement) : Project :=
  mkProject (p_id p) (p_name p) es (pixelsPerCm p) (labelFontSize p)
            (p_viewTransform p).

Definition withViewTransform (p : Project) (v : ViewTransform) : Project :=
  mkProject (p_id p) (p_name p) (elements p) (pixelsPerCm p)
            (labelFontSize p) (Some v).

(** ** Partial updates

    [Some v] is a key present in the object; for an optional field the new
    value may itself be [undefined]. *)
Record Updates : Type := mkUpdates {
  u_x : option R;
  u_y : option R;
  u_color : option string;
  u_fillColor : option string;
  u_opacity : option (option R);
  u_strokeWidth : option R;
  u_hideDimensions : option (option bool);
  u_rotation : option (option R);
  u_text : option (option string);
  u_locked : option (option bool);
  u_endX : option R;
  u_endY : option R;
  u_lengthCm : option R;
  u_width : option R;
  u_height : option R;
  u_widthCm : option R;
  u_heightCm : option R;
  u_content : option string;
  u_fontSize : option R;
  u_fontFamily : option string;
  u_attachedToLine : option (option string);
  u_attachedToRectangle : option (option string);
  u_attachmentSide : option (option Side);
  u_radius : option R;
  u_radiusCm : option R
}.

(** [{ ...cur, key: new }] for one key. *)
Definition over {A : Type} (new : option A) (cur : A) : A :=
  match new with
  | Some v => v
  | None => cur
  end.

Definition spreadBase (b : BaseElement) (u : Updates) : BaseElement :=
  mkBase (el_id b)
         (over (u_x u) (el_x b))
         (over (u_y u) (el_y b))
         (over (u_color u) (el_color b))
         (over (u_fillColor u) (el_fillColor b))
         (over (u_opacity u) (el_opacity b))
         (over (u_strokeWidth u) (el_strokeWidth b))
         (over (u_hideDimensions u) (el_hideDimensions b))
         (over (u_rotation u) (el_rotation b))
         (over (u_text u) (el_text b))
         (over (u_locked u) (el_locked b)).

(** [{ ...e, ...updates } as CanvasElement]: the keys of [updates] that are
    fields of the kind of [e] replace the fields of [e]. *)
Definition spread (e : CanvasElement) (u : Updates) : CanvasElement :=
  match e with
  | Line b ex ey l =>
      Line (spreadBase b u) (over (u_endX u) ex) (over (u_endY u) ey)
           (over (u_lengthCm u) l)
  | Rectangle b w h wc hc =>
      Rectangle (spreadBase b u) (over (u_width u) w) (over (u_height u) h)
                (over (u_widthCm u) wc) (over (u_heightCm u) hc)
  | Text b c f ff =>
      Text (spreadBase b u) (over (u_content u) c) (over (u_fontSize u) f)
           (over (u_fontFamily u) ff)
  | Door b w al ar s =>
      Door (spreadBase b u) (over (u_width u) w)
           (over (u_attachedToLine u) al) (over (u_attachedToRectangle u) ar)
           (over (u_attachmentSide u) s)
  | Circle b r rc =>
      Circle (spreadBase b u) (over (u_radius u) r) (over (u_radiusCm u) rc)
  end.

(** ** The application state and its callbacks ([App.tsx]) *)

Record App : Type := mkApp {
  projects : list Project;
  currentProjectId : option string;
  selectedElementIds : list string;
  tool : Tool;
  theme : Theme;
  history : list (list Project);
  historyIndex : Z
}.

Definition setProjects (ps : list Project) (a : App) : App :=
  mkApp ps (currentProjectId a) (selectedElementIds a) (tool a) (theme a)
        (history a) (historyIndex a).
Definition setSelectedElementIds (ids : list string) (a : App) : App :=
  mkApp (projects a) (currentProjectId a) ids (tool a) (theme a)
        (history a) (historyIndex a).
Definition setTool (t : Tool) (a : App) : App :=
  mkApp (projects a) (currentProjectId a) (selectedElementIds a) t (theme a)
        (history a) (historyIndex a).
Definition setHistory (h : list (list Project)) (a : App) : App :=
  mkApp (projects a) (currentProjectId a) (selectedElementIds a) (tool a)
        (theme a) h (historyIndex a).
Definition setHistoryIndex (i : Z) (a : App) : App :=
  mkApp (projects a) (currentProjectId a) (selectedElementIds a) (tool a)
        (theme a) (history a) i.

(** The truth value of an optional string: [null], [undefined] and the
    empty string are false. *)
Definition truthy (o : option string) : bool :=
  match o with
  | Some s => negb (String.eqb s EmptyString)
  | None => false
  end.

(** [p.id === currentProjectId] *)
Definition isCurrent (cur : option string) (p : Project) : bool :=
  match cur with
  | Some c => String.eqb (p_id p) c
  | None => false
  end.

(** [ids.includes(i)] *)
Definition includes (ids : list string) (i : string) : bool :=
  existsb (String.eqb i) ids.

(** [l.slice(0, k)] *)
Definition slice0 {A : Type} (k : Z) (l : list A) : list A :=
  if (k <? 0)%Z
  then firstn (Z.to_nat (Z.max 0 (Z.of_nat (List.length l) + k))) l
  else firstn (Z.to_nat k) l.

(** [projects.find(p => p.id === currentProjectId)] *)
Definition currentProject (a : App) : option Project :=
  find (isCurrent (currentProjectId a)) (projects a).

(** The callbacks are closures of one render [r] of the application; [a]
    is the state their setters act on.  A setter called with a value
    overwrites, a setter called with a function continues from [a]. *)

Definition saveHistory (r : App) (newProjects : list Project) (a : App)
  : App :=
  let newHistory :=
    (slice0 (historyIndex r + 1) (history r) ++ [projects r])%list in
  setProjects newProjects
    (setHistoryIndex (Z.of_nat (List.length newHistory) - 1)
       (setHistory newHistory a)).

Definition saveCurrentStateToHistory (r : App) (a : App) : App :=
  let newHistory :=
    (slice0 (historyIndex r + 1) (history r) ++ [projects r])%list in
  setHistoryIndex (Z.of_nat (List.length newHistory) - 1)
    (setHistory newHistory a).

Definition addElement (r : App) (element : CanvasElement) (a : App) : App :=
  if negb (truthy (currentProjectId r)) then a
  else
    saveHistory r
      (map (fun p =>
              if isCurrent (currentProjectId r) p
              then withElements p (elements p ++ [element])
              else p)
           (projects r)) a.

Definition addMultipleElements (r : App) (els : list CanvasElement) (a : App)
  : App :=
  if negb (truthy (currentProjectId r)) then a
  else
    saveHistory r
      (map (fun p =>
              if isCurrent (currentProjectId r) p
              then withElements p (elements p ++ els)
              else p)
           (projects r)) a.

(** The derived centimetre fields of an updated element. *)
Definition recompute (pixelsPerCm : R) (updated : CanvasElement)
  : CanvasElement :=
  match updated with
  | Line b endX endY _ =>
      let dx := endX - el_x b in
      let dy := endY - el_y b in
      let pixels := sqrt (dx * dx + dy * dy) in
      Line b endX endY (pixels / pixelsPerCm)
  | Rectangle b width height _ _ =>
      Rectangle b width height (width / pixelsPerCm) (height / pixelsPerCm)
  | Circle b radius _ => Circle b radius (radius / pixelsPerCm)
  | _ => updated
  end.

(** The callback of [p.elements.map] in [updateElement]. *)
Definition updateOne (pixelsPerCm : R) (elementId : string)
           (updates : Updates) (e : CanvasElement) : CanvasElement :=
  if negb (String.eqb (elemId e) elementId) then e
  else recompute pixelsPerCm (spread e updates).

(** [updateFn] of [updateElement]. *)
Definition updateFn (cur : option string) (elementId : string)
           (updates : Updates) (prevProjects : list Project) : list Project :=
  map (fun p =>
         if negb (isCurrent cur p) then p
         else
           withElements p
             (map (updateOne (pixelsPerCm p) elementId updates)
                  (elements p)))
      prevProjects.

Definition updateElement (r : App) (elementId : string) (updates : Updates)
           (skipHistory : bool) (a : App) : App :=
  if negb (truthy (currentProjectId r)) then a
  else if skipHistory
  then setProjects (updateFn (currentProjectId r) elementId updates
                             (projects a)) a
  else
    setProjects (updateFn (currentProjectId r) elementId updates (projects a))
      (setHistoryIndex (historyIndex a + 1)
         (setHistory
            (slice0 (historyIndex r + 1) (history a) ++ [projects a])%list
            a)).

Definition updateMultipleElements (r : App) (elementIds : list string)
           (updates : Updates) (a : App) : App :=
  if negb (truthy (currentProjectId r)) then a
  else
    setProjects
      (map (fun p =>
              if negb (isCurrent (currentProjectId r) p) then p
              else
                withElements p
                  (map (fun e =>
                          if negb (includes elementIds (elemId e)) then e
                          else recompute (pixelsPerCm p) (spread e updates))
                       (elements p)))
           (projects a))
      (setHistoryIndex (historyIndex a + 1)
         (setHistory
            (slice0 (historyIndex r + 1) (history a) ++ [projects a])%list
            a)).

Definition deleteElement (r : App) (elementId : string) (a : App) : App :=
  if negb (truthy (currentProjectId r)) then a
  else
    setSelectedElementIds []
      (saveHistory r
         (map (fun p =>
                 if isCurrent (currentProjectId r) p
                 then withElements p
                        (filter (fun e =>
                                   negb (String.eqb (elemId e) elementId))
                                (elements p))
                 else p)
              (projects r)) a).

Definition deleteMultipleElements (r : App) (elementIds : list string)
           (a : App) : App :=
  if negb (truthy (currentProjectId r)) then a
  else
    setSelectedElementIds []
      (saveHistory r
         (map (fun p =>
                 if isCurrent (currentProjectId r) p
                 then withElements p
                        (filter (fun e =>
                                   negb (includes elementIds (elemId e)))
                                (elements p))
                 else p)
              (projects r)) a).

Definition updateProjectSettings (r : App) (v : ViewTransform) (a : App)
  : App :=
  if negb (truthy (currentProjectId r)) then a
  else
    setProjects
      (map (fun p =>
              if isCurrent (currentProjectId r) p
              then withViewTransform p v
              else p)
           (projects r)) a.

(** ** The canvas view ([CanvasView.tsx]): state *)

Inductive Handle : Type := Hn | Hs | He | Hw | Hne | Hnw | Hse | Hsw.

(** [handle.includes('n')] and so on, on the handle names
    ['n'], ['s'], ['e'], ['w'], ['ne'], ['nw'], ['se'], ['sw']. *)
Definition includesN (h : Handle) : bool :=
  match h with Hn | Hne | Hnw => true | _ => false end.
Definition includesS (h : Handle) : bool :=
  match h with Hs | Hse | Hsw => true | _ => false end.
Definition includesE (h : Handle) : bool :=
  match h with He | Hne | Hse => true | _ => false end.
Definition includesW (h : Handle) : bool :=
  match h with Hw | Hnw | Hsw => true | _ => false end.

Record Box : Type := mkBox {
  box_x : R;
  box_y : R;
  box_width : R;
  box_height : R
}.

Record Bounds : Type := mkBounds {
  bd_x : R;
  bd_y : R;
  bd_width : R;
  bd_height : R;
  centerX : R;
  centerY : R
}.

Record StartPos : Type := mkStartPos {
  sp_x : R;
  sp_y : R;
  sp_endX : option R;
  sp_endY : option R
}.

Record Snap : Type := mkSnap {
  snap_x : R;
  snap_y : R;
  snap_rotation : R;
  snap_distance : Dist;
  snap_attachedToLine : option string;
  snap_attachedToRectangle : option string;
  snap_attachmentSide : option Side
}.

Record HoverSnap : Type := mkHoverSnap {
  hs_x : R;
  hs_y : R;
  hs_rotation : R
}.

(** The state hooks of the component.  The cursor shape, the canvas size
    and the project-name editor are display state and are left out. *)
Record Canvas : Type := mkCanvas {
  viewTransform : ViewTransform;
  isPanning : bool;
  panStart : Point;
  isDrawing : bool;
  drawStart : Point;
  tempElement : option CanvasElement;
  editingTextId : option string;
  isDragging : bool;
  dragStart : Point;
  dragReferenceId : option string;
  elementStartPositions : list (string * StartPos);
  doorOriginalRotation : option R;
  copiedElements : list CanvasElement;
  isSelecting : bool;
  selectionBox : option Box;
  showSettings : bool;
  potentialSelection : bool;
  isRotating : bool;
  isScaling : bool;
  scaleHandle : option Handle;
  rotationStart : R;
  doorHoverSnap : option HoverSnap
}.

(** The setters of the hooks. *)
Definition setViewTransform (v : ViewTransform) (c : Canvas) : Canvas :=
  mkCanvas v (isPanning c) (panStart c) (isDrawing c) (drawStart c)
    (tempElement c) (editingTextId c) (isDragging c) (dragStart c)
    (dragReferenceId c) (elementStartPositions c) (doorOriginalRotation c)
    (copiedElements c) (isSelecting c) (selectionBox c) (showSettings c)
    (potentialSelection c) (isRotating c) (isScaling c) (scaleHandle c)
    (rotationStart c) (doorHoverSnap c).
Definition setIsPanning (v : bool) (c : Canvas) : Canvas :=
  mkCanvas (viewTransform c) v (panStart c) (isDrawing c) (drawStart c)
    (tempElement c) (editingTextId c) (isDragging c) (dragStart c)
    (dragReferenceId c) (elementStartPositions c) (doorOriginalRotation c)
    (copiedElements c) (isSelecting c) (selectionBox c) (showSettings c)
    (potentialSelection c) (isRotating c) (isScaling c) (scaleHandle c)
    (rotationStart c) (doorHoverSnap c).
Definition setPanStart (v : Point) (c : Canvas) : Canvas :=
  mkCanvas (viewTransform c) (isPanning c) v (isDrawing c) (drawStart c)
    (tempElement c) (editingTextId c) (isDragging c) (dragStart c)
    (dragReferenceId c) (elementStartPositions c) (doorOriginalRotation c)
    (copiedElements c) (isSelecting c) (selectionBox c) (showSettings c)
    (potentialSelection c) (isRotating c) (isScaling c) (scaleHandle c)
    (rotationStart c) (doorHoverSnap c).
Definition setIsDrawing (v : bool) (c : Canvas) : Canvas :=
  mkCanvas (viewTransform c) (isPanning c) (panStart c) v (drawStart c)
    (tempElement c) (editingTextId c) (isDragging c) (dragStart c)
    (dragReferenceId c) (elementStartPositions c) (doorOriginalRotation c)
    (copiedElements c) (isSelecting c) (selectionBox c) (showSettings c)
    (potentialSelection c) (isRotating c) (isScaling c) (scaleHandle c)
    (rotationStart c) (doorHoverSnap c).
Definition setDrawStart (v : Point) (c : Canvas) : Canvas :=
  mkCanvas (viewTransform c) (isPanning c) (panStart c) (isDrawing c) v
    (tempElement c) (editingTextId c) (isDragging c) (dragStart c)
    (dragReferenceId c) (elementStartPositions c) (doorOriginalRotation c)
    (copiedElements c) (isSelecting c) (selectionBox c) (showSettings c)
    (potentialSelection c) (isRotating c) (isScaling c) (scaleHandle c)
    (rotationStart c) (doorHoverSnap c).
Definition setTempElement (v : option CanvasElement) (c : Canvas) : Canvas :=
  mkCanvas (viewTransform c) (isPanning c) (panStart c) (isDrawing c)
    (drawStart c) v (editingTextId c) (isDragging c) (dragStart c)
    (dragReferenceId c) (elementStartPositions c) (doorOriginalRotation c)
    (copiedElements c) (isSelecting c) (selectionBox c) (showSettings c)
    (potentialSelection c) (isRotating c) (isScaling c) (scaleHandle c)
    (rotationStart c) (doorHoverSnap c).
Definition setEditingTextId (v : option string) (c : Canvas) : Canvas :=
  mkCanvas (viewTransform c) (isPanning c) (panStart c) (isDrawing c)
    (drawStart c) (tempElement c) v (isDragging c) (dragStart c)
    (dragReferenceId c) (elementStartPositions c) (doorOriginalRotation c)
    (copiedElements c) (isSelecting c) (selectionBox c) (showSettings c)
    (potentialSelection c) (isRotating c) (isScaling c) (scaleHandle c)
    (rotationStart c) (doorHoverSnap c).
Definition setIsDragging (v : bool) (c : Canvas) : Canvas :=
  mkCanvas (viewTransform c) (isPanning c) (panStart c) (isDrawing c)
    (drawStart c) (tempElement c) (editingTextId c) v (dragStart c)
    (dragReferenceId c) (elementStartPositions c) (doorOriginalRotation c)
    (copiedElements c) (isSelecting c) (selectionBox c) (showSettings c)
    (potentialSelection c) (isRotating c) (isScaling c) (scaleHandle c)
    (rotationStart c) (doorHoverSnap c).
Definition setDragStart (v : Point) (c : Canvas) : Canvas :=
  mkCanvas (viewTransform c) (isPanning c) (panStart c) (isDrawing c)
    (drawStart c) (tempElement c) (editingTextId c) (isDragging c) v
    (dragReferenceId c) (elementStartPositions c) (doorOriginalRotation c)
    (copiedElements c) (isSelecting c) (selectionBox c) (showSettings c)
    (potentialSelection c) (isRotating c) (isScaling c) (scaleHandle c)
    (rotationStart c) (doorHoverSnap c).
Definition setDragReferenceId (v : option string) (c : Canvas) : Canvas :=
  mkCanvas (viewTransform c) (isPanning c) (panStart c) (isDrawing c)
    (drawStart c) (tempElement c) (editingTextId c) (isDragging c)
    (dragStart c) v (elementStartPositions c) (doorOriginalRotation c)
    (copiedElements c) (isSelecting c) (selectionBox c) (showSettings c)
    (potentialSelection c) (isRotating c) (isScaling c) (scaleHandle c)
    (rotationStart c) (doorHoverSnap c).
Definition setElementStartPositions (v : list (string * StartPos))
           (c : Canvas) : Canvas :=
  mkCanvas (viewTransform c) (isPanning c) (panStart c) (isDrawing c)
    (drawStart c) (tempElement c) (editingTextId c) (isDragging c)
    (dragStart c) (dragReferenceId c) v (doorOriginalRotation c)
    (copiedElements c) (isSelecting c) (selectionBox c) (showSettings c)
    (potentialSelection c) (isRotating c) (isScaling c) (scaleHandle c)
    (rotationStart c) (doorHoverSnap c).
Definition setDoorOriginalRotation (v : option R) (c : Canvas) : Canvas :=
  mkCanvas (viewTransform c) (isPanning c) (panStart c) (isDrawing c)
    (drawStart c) (tempElement c) (editingTextId c) (isDragging c)
    (dragStart c) (dragReferenceId c) (elementStartPositions c) v
    (copiedElements c) (isSelecting c) (selectionBox c) (showSettings c)
    (potentialSelection c) (isRotating c) (isScaling c) (scaleHandle c)
    (rotationStart c) (doorHoverSnap c).
Definition setCopiedElements (v : list CanvasElement) (c : Canvas) : Canvas :=
  mkCanvas (viewTransform c) (isPanning c) (panStart c) (isDrawing c)
    (drawStart c) (tempElement c) (editingTextId c) (isDragging c)
    (dragStart c) (dragReferenceId c) (elementStartPositions c)
    (doorOriginalRotation c) v (isSelecting c) (selectionBox c)
    (showSettings c) (potentialSelection c) (isRotating c) (isScaling c)
    (scaleHandle c) (rotationStart c) (doorHoverSnap c).
Definition setIsSelecting (v : bool) (c : Canvas) : Canvas :=
  mkCanvas (viewTransform c) (isPanning c) (panStart c) (isDrawing c)
    (drawStart c) (tempElement c) (editingTextId c) (isDragging c)
    (dragStart c) (dragReferenceId c) (elementStartPositions c)
    (doorOriginalRotation c) (copiedElements c) v (selectionBox c)
    (showSettings c) (potentialSelection c) (isRotating c) (isScaling c)
    (scaleHandle c) (rotationStart c) (doorHoverSnap c).
Definition setSelectionBox (v : option Box) (c : Canvas) : Canvas :=
  mkCanvas (viewTransform c) (isPanning c) (panStart c) (isDrawing c)
    (drawStart c) (tempElement c) (editingTextId c) (isDragging c)
    (dragStart c) (dragReferenceId c) (elementStartPositions c)
    (doorOriginalRotation c) (copiedElements c) (isSelecting c) v
    (showSettings c) (potentialSelection c) (isRotating c) (isScaling c)
    (scaleHandle c) (rotationStart c) (doorHoverSnap c).
Definition setShowSettings (v : bool) (c : Canvas) : Canvas :=
  mkCanvas (viewTransform c) (isPanning c) (panStart c) (isDrawing c)
    (drawStart c) (tempElement c) (editingTextId c) (isDragging c)
    (dragStart c) (dragReferenceId c) (elementStartPositions c)
    (doorOriginalRotation c) (copiedElements c) (isSelecting c)
    (selectionBox c) v (potentialSelection c) (isRotating c) (isScaling c)
    (scaleHandle c) (rotationStart c) (doorHoverSnap c).
Definition setPotentialSelection (v : bool) (c : Canvas) : Canvas :=
  mkCanvas (viewTransform c) (isPanning c) (panStart c) (isDrawing c)
    (drawStart c) (tempElement c) (editingTextId c) (isDragging c)
    (dragStart c) (dragReferenceId c) (elementStartPositions c)
    (doorOriginalRotation c) (copiedElements c) (isSelecting c)
    (selectionBox c) (showSettings c) v (isRotating c) (isScaling c)
    (scaleHandle c) (rotationStart c) (doorHoverSnap c).
Definition setIsRotating (v : bool) (c : Canvas) : Canvas :=
  mkCanvas (viewTransform c) (isPanning c) (panStart c) (isDrawing c)
    (drawStart c) (tempElement c) (editingTextId c) (isDragging c)
    (dragStart c) (dragReferenceId c) (elementStartPositions c)
    (doorOriginalRotation c) (copiedElements c) (isSelecting c)
    (selectionBox c) (showSettings c) (potentialSelection c) v (isScaling c)
    (scaleHandle c) (rotationStart c) (doorHoverSnap c).
Definition setIsScaling (v : bool) (c : Canvas) : Canvas :=
  mkCanvas (viewTransform c) (isPanning c) (panStart c) (isDrawing c)
    (drawStart c) (tempElement c) (editingTextId c) (isDragging c)
    (dragStart c) (dragReferenceId c) (elementStartPositions c)
    (doorOriginalRotation c) (copiedElements c) (isSelecting c)
    (selectionBox c) (showSettings c) (potentialSelection c) (isRotating c)
    v (scaleHandle c) (rotationStart c) (doorHoverSnap c).
Definition setScaleHandle (v : option Handle) (c : Canvas) : Canvas :=
  mkCanvas (viewTransform c) (isPanning c) (panStart c) (isDrawing c)
    (drawStart c) (tempElement c) (editingTextId c) (isDragging c)
    (dragStart c) (dragReferenceId c) (elementStartPositions c)
    (doorOriginalRotation c) (copiedElements c) (isSelecting c)
    (selectionBox c) (showSettings c) (potentialSelection c) (isRotating c)
    (isScaling c) v (rotationStart c) (doorHoverSnap c).
Definition setRotationStart (v : R) (c : Canvas) : Canvas :=
  mkCanvas (viewTransform c) (isPanning c) (panStart c) (isDrawing c)
    (drawStart c) (tempElement c) (editingTextId c) (isDragging c)
    (dragStart c) (dragReferenceId c) (elementStartPositions c)
    (doorOriginalRotation c) (copiedElements c) (isSelecting c)
    (selectionBox c) (showSettings c) (potentialSelection c) (isRotating c)
    (isScaling c) (scaleHandle c) v (doorHoverSnap c).
Definition setDoorHoverSnap (v : option HoverSnap) (c : Canvas) : Canvas :=
  mkCanvas (viewTransform c) (isPanning c) (panStart c) (isDrawing c)
    (drawStart c) (tempElement c) (editingTextId c) (isDragging c)
    (dragStart c) (dragReferenceId c) (elementStartPositions c)
    (doorOriginalRotation c) (copiedElements c) (isSelecting c)
    (selectionBox c) (showSettings c) (potentialSelection c) (isRotating c)
    (isScaling c) (scaleHandle c) (rotationStart c) v.

(** ** Geometry *)

Record DOMRect : Type := mkDOMRect { rect_left : R; rect_top : R }.

(** [canvas] is [canvasRef.current] with its bounding client rectangle. *)
Definition screenToCanvas (canvas : option DOMRect) (vt : ViewTransform)
           (screenX screenY : R) : Point :=
  match canvas with
  | None => mkPoint 0 0
  | Some rect =>
      mkPoint ((screenX - rect_left rect - offsetX vt) / scale vt)
              ((screenY - rect_top rect - offsetY vt) / scale vt)
  end.

Definition calculateDistance (pixelsPerCm x1 y1 x2 y2 : R) : R :=
  let dx := x2 - x1 in
  let dy := y2 - y1 in
  let pixels := sqrt (dx * dx + dy * dy) in
  pixels / pixelsPerCm.

Definition Rmin3 (a b c : R) : R := Rmin (Rmin a b) c.
Definition Rmax3 (a b c : R) : R := Rmax (Rmax a b) c.

(** [element.content.length] *)
Definition contentLength (content : string) : R :=
  INR (String.length content).

Definition getElementBounds (vt : ViewTransform) (element : CanvasElement)
  : Bounds :=
  match element with
  | Line b endX endY _ =>
      let minX := Rmin (el_x b) endX in
      let minY := Rmin (el_y b) endY in
      let maxX := Rmax (el_x b) endX in
      let maxY := Rmax (el_y b) endY in
      mkBounds minX minY (maxX - minX) (maxY - minY)
               ((el_x b + endX) / 2) ((el_y b + endY) / 2)
  | Rectangle b width height _ _ =>
      mkBounds (el_x b) (el_y b) width height
               (el_x b + width / 2) (el_y b + height / 2)
  | Text b content fontSize _ =>
      let scaledFontSize := fontSize / scale vt in
      let estimatedWidth := contentLength content * scaledFontSize * 0.6 in
      mkBounds (el_x b) (el_y b - scaledFontSize) estimatedWidth
               scaledFontSize
               (el_x b + estimatedWidth / 2) (el_y b - scaledFontSize / 2)
  | Door b width _ _ _ =>
      let rotation := rotationOr0 element in
      let cos := cos rotation in
      let sin := sin rotation in
      let doorAngle := PI / 6 in
      let doorEndX := Rtrigo_def.cos doorAngle * width in
      let doorEndY := Rtrigo_def.sin doorAngle * width in
      let point1X := 0 in
      let point1Y := 0 in
      let point2X := width in
      let point2Y := 0 in
      let point3X := width + doorEndX in
      let point3Y := doorEndY in
      let worldPoint1X := el_x b + point1X * cos - point1Y * sin in
      let worldPoint1Y := el_y b + point1X * sin + point1Y * cos in
      let worldPoint2X := el_x b + point2X * cos - point2Y * sin in
      let worldPoint2Y := el_y b + point2X * sin + point2Y * cos in
      let worldPoint3X := el_x b + point3X * cos - point3Y * sin in
      let worldPoint3Y := el_y b + point3X * sin + point3Y * cos in
      let minX := Rmin3 worldPoint1X worldPoint2X worldPoint3X in
      let maxX := Rmax3 worldPoint1X worldPoint2X worldPoint3X in
      let minY := Rmin3 worldPoint1Y worldPoint2Y worldPoint3Y in
      let maxY := Rmax3 worldPoint1Y worldPoint2Y worldPoint3Y in
      mkBounds minX minY (maxX - minX) (maxY - minY)
               ((minX + maxX) / 2) ((minY + maxY) / 2)
  | Circle b radius _ =>
      mkBounds (el_x b - radius) (el_y b - radius) (radius * 2) (radius * 2)
               (el_x b) (el_y b)
  end.

Definition checkHandleHit (vt : ViewTransform) (point : Point)
           (handleX handleY : R) : bool :=
  let handleSize := 8 / scale vt in
  Rltb (Rabs (pt_x point - handleX)) handleSize
  && Rltb (Rabs (pt_y point - handleY)) handleSize.

Definition rotatePoint (px py cx cy angle : R) : Point :=
  let cos := cos angle in
  let sin := sin angle in
  let dx := px - cx in
  let dy := py - cy in
  mkPoint (cx + dx * cos - dy * sin) (cy + dx * sin + dy * cos).

Definition getScaleHandle (vt : ViewTransform) (point : Point)
           (element : CanvasElement) : option Handle :=
  if isLine element || isDoor element then None
  else
    let bounds := getElementBounds vt element in
    let x := bd_x bounds in
    let y := bd_y bounds in
    let width := bd_width bounds in
    let height := bd_height bounds in
    let rotation := rotationOr0 element in
    let handles :=
      [ (x, y, Hnw);
        (x + width, y, Hne);
        (x, y + height, Hsw);
        (x + width, y + height, Hse);
        (x + width / 2, y, Hn);
        (x + width / 2, y + height, Hs);
        (x, y + height / 2, Hw);
        (x + width, y + height / 2, He) ] in
    match
      find (fun handle =>
              let '(hx, hy, _) := handle in
              let rotated :=
                rotatePoint hx hy (centerX bounds) (centerY bounds) rotation in
              checkHandleHit vt point (pt_x rotated) (pt_y rotated))
           handles
    with
    | Some (_, _, type) => Some type
    | None => None
    end.

Definition getRotationHandle (vt : ViewTransform) (point : Point)
           (element : CanvasElement) : bool :=
  let bounds := getElementBounds vt element in
  let rotation := rotationOr0 element in
  let rotateHandleY := bd_y bounds - 30 / scale vt in
  let cos := cos rotation in
  let sin := sin rotation in
  let dx := centerX bounds - centerX bounds in
  let dy := rotateHandleY - centerY bounds in
  let rotatedX := centerX bounds + dx * cos - dy * sin in
  let rotatedY := centerY bounds + dx * sin + dy * cos in
  checkHandleHit vt point rotatedX rotatedY.

(** The clamped projection of [(px, py)] on the segment, shared by
    [pointToLineDistance] and [getClosestPointOnLine]. *)
Definition closest (px py x1 y1 x2 y2 : R) : Point :=
  let A := px - x1 in
  let B := py - y1 in
  let C := x2 - x1 in
  let D := y2 - y1 in
  let dot := A * C + B * D in
  let lenSq := C * C + D * D in
  let param := if negb (Reqb lenSq 0) then dot / lenSq else -1 in
  if Rltb param 0 then mkPoint x1 y1
  else if Rgtb param 1 then mkPoint x2 y2
  else mkPoint (x1 + param * C) (y1 + param * D).

Definition pointToLineDistance (px py x1 y1 x2 y2 : R) : R :=
  let c := closest px py x1 y1 x2 y2 in
  let dx := px - pt_x c in
  let dy := py - pt_y c in
  sqrt (dx * dx + dy * dy).

Definition getClosestPointOnLine (px py x1 y1 x2 y2 : R) : Point :=
  closest px py x1 y1 x2 y2.

(** ** Hit testing *)

(** The value of [isMatch] after the kind-specific test of the loop body
    of [findElementAt]. *)
Definition isMatch (vt : ViewTransform) (x y : R) (element : CanvasElement)
  : bool :=
  match element with
  | Line b endX endY _ =>
      let dist := pointToLineDistance x y (el_x b) (el_y b) endX endY in
      Rltb dist (10 / scale vt)
  | Rectangle b width height _ _ =>
      let rotation := rotationOr0 element in
      let centerX := el_x b + width / 2 in
      let centerY := el_y b + height / 2 in
      let cos := cos (- rotation) in
      let sin := sin (- rotation) in
      let dx := x - centerX in
      let dy := y - centerY in
      let localX := dx * cos - dy * sin in
      let localY := dx * sin + dy * cos in
      let halfWidth := width / 2 in
      let halfHeight := height / 2 in
      Rgeb localX (- halfWidth) && Rleb localX halfWidth
      && Rgeb localY (- halfHeight) && Rleb localY halfHeight
  | Text b content fontSize _ =>
      let rotation := rotationOr0 element in
      let scaledFontSize := fontSize / scale vt in
      let estimatedWidth := contentLength content * scaledFontSize * 0.6 in
      let cos := cos (- rotation) in
      let sin := sin (- rotation) in
      let dx := x - el_x b in
      let dy := y - el_y b in
      let localX := dx * cos - dy * sin in
      let localY := dx * sin + dy * cos in
      Rgeb localX 0 && Rleb localX estimatedWidth
      && Rgeb localY (- scaledFontSize) && Rleb localY 0
  | Door b width _ _ _ =>
      let rotation := rotationOr0 element in
      let cos := cos rotation in
      let sin := sin rotation in
      let dx := x - el_x b in
      let dy := y - el_y b in
      let localX := dx * cos + dy * sin in
      let localY := - dx * sin + dy * cos in
      let mainLineHit :=
        Rleb (Rabs localY) (5 / scale vt) && Rgeb localX 0
        && Rleb localX width in
      let doorAngle := PI / 6 in
      let doorEndX := width * Rtrigo_def.cos doorAngle in
      let doorEndY := width * Rtrigo_def.sin doorAngle in
      let doorLineDist :=
        pointToLineDistance localX localY width 0 (width + doorEndX)
                            doorEndY in
      let doorLineHit := Rleb doorLineDist (5 / scale vt) in
      mainLineHit || doorLineHit
  | Circle b radius _ =>
      let dx := x - el_x b in
      let dy := y - el_y b in
      let dist := sqrt (dx * dx + dy * dy) in
      Rleb dist radius
  end.

(** The loop of [findElementAt] from an index down to 0: [topFirst] is the
    rest of [project.elements] in decreasing index order. *)
Fixpoint findLoop (vt : ViewTransform) (x y : R)
         (topFirst : list CanvasElement) (lockedMatch : option CanvasElement)
  : option CanvasElement :=
  match topFirst with
  | [] => lockedMatch
  | element :: rest =>
      if isMatch vt x y element then
        if negb (locked element) then Some element
        else
          match lockedMatch with
          | None => findLoop vt x y rest (Some element)
          | Some _ => findLoop vt x y rest lockedMatch
          end
      else findLoop vt x y rest lockedMatch
  end.

Definition findElementAt (vt : ViewTransform) (els : list CanvasElement)
           (x y : R) : option CanvasElement :=
  findLoop vt x y (rev els) None.

(** ** Snapping *)

Definition noSnap (point : Point) : Snap :=
  mkSnap (pt_x point) (pt_y point) 0 Inf None None None.

(** One candidate segment of [findNearestLineOrWall]: the pair is
    [(nearestDist, nearestSnap)]. *)
Definition trySegment (snapDistance : R) (point : Point)
           (x y endX endY : R)
           (attachedToLine attachedToRectangle : option string)
           (attachmentSide : option Side) (nearest : Dist * Snap)
  : Dist * Snap :=
  let dist := pointToLineDistance (pt_x point) (pt_y point) x y endX endY in
  if Rltb dist snapDistance && ltDist dist (fst nearest) then
    let angle := atan2 (endY - y) (endX - x) in
    let closestPoint :=
      getClosestPointOnLine (pt_x point) (pt_y point) x y endX endY in
    (Fin dist,
     mkSnap (pt_x closestPoint) (pt_y closestPoint) angle (Fin dist)
            attachedToLine attachedToRectangle attachmentSide)
  else nearest.

(** The four sides of a rectangle, in the order of the source. *)
Definition sides (x y width height : R) : list (R * R * R * R * Side) :=
  [ (x, y, x + width, y, top);
    (x, y + height, x + width, y + height, bottom);
    (x, y, x, y + height, left);
    (x + width, y, x + width, y + height, right) ].

Definition findNearestLineOrWall (vt : ViewTransform)
           (els : list CanvasElement) (point : Point) : Snap :=
  let snapDistance := 30 / scale vt in
  snd
    (fold_left
       (fun nearest element =>
          match element with
          | Line b endX endY _ =>
              trySegment snapDistance point (el_x b) (el_y b) endX endY
                         (Some (el_id b)) None None nearest
          | Rectangle b width height _ _ =>
              fold_left
                (fun nearest side =>
                   let '(x, y, endX, endY, side) := side in
                   trySegment snapDistance point x y endX endY
                              None (Some (el_id b)) (Some side) nearest)
                (sides (el_x b) (el_y b) width height) nearest
          | _ => nearest
          end)
       els (Inf, noSnap point)).

(** ** Events and the state of the whole page *)

Record MouseEvent : Type := mkMouseEvent {
  clientX : R;
  clientY : R;
  button : Z;
  altKey : bool;
  shiftKey : bool
}.

Record WheelEvent : Type := mkWheelEvent {
  wheelX : R;
  wheelY : R;
  deltaY : R
}.

Record KeyboardEvent : Type := mkKeyboardEvent {
  key : string;
  metaKey : bool;
  ctrlKey : bool;
  keyShift : bool;
  keyAlt : bool;
  isInputField : bool
}.

(** The application, the canvas component, the canvas DOM node and the
    source of identifiers: [generateId()] returns [ids nextId] and moves on
    ([Date.now()] and [Math.random()] are not modelled further). *)
Record World : Type := mkWorld {
  app : App;
  cv : Canvas;
  canvas : option DOMRect;
  ids : nat -> string;
  nextId : nat
}.

Definition withApp (w : World) (a : App) : World :=
  mkWorld a (cv w) (canvas w) (ids w) (nextId w).
Definition withCv (w : World) (c : Canvas) : World :=
  mkWorld (app w) c (canvas w) (ids w) (nextId w).
Definition generateId (w : World) : string := ids w (nextId w).
Definition idUsed (w : World) : World :=
  mkWorld (app w) (cv w) (canvas w) (ids w) (S (nextId w)).

Definition strokeFor (t : Theme) : string :=
  match t with Dark => "#ffffff" | Light => "#000000" end.
Definition fillFor (t : Theme) : string :=
  match t with Dark => "#222222" | Light => "#f5f5f5" end.

(** [elements.find(e => e.id === id)] *)
Definition findById (els : list CanvasElement) (i : string)
  : option CanvasElement :=
  find (fun e => String.eqb (elemId e) i) els.

(** [selectedElementIds[0]] when [selectedElementIds.length === 1] *)
Definition soleSelected (sel : list string) : option string :=
  match sel with
  | [i] => Some i
  | _ => None
  end.

(** ** Wheel zoom *)

Definition handleWheel (e : WheelEvent) (w : World) : World :=
  let vt := viewTransform (cv w) in
  let delta := if Rgtb (deltaY e) 0 then 0.9 else 1.1 in
  let newScale := Rmax 0.1 (Rmin 5 (scale vt * delta)) in
  match canvas w with
  | None => w
  | Some rect =>
      let mouseX := wheelX e - rect_left rect in
      let mouseY := wheelY e - rect_top rect in
      let newOffsetX :=
        mouseX - (mouseX - offsetX vt) * (newScale / scale vt) in
      let newOffsetY :=
        mouseY - (mouseY - offsetY vt) * (newScale / scale vt) in
      let newTransform := mkView newScale newOffsetX newOffsetY in
      withApp (withCv w (setViewTransform newTransform (cv w)))
              (updateProjectSettings (app w) newTransform (app w))
  end.

(** ** Pointer down *)

(** [Map.prototype.set]: an existing key keeps its place. *)
Fixpoint mapSet (k : string) (v : StartPos) (m : list (string * StartPos))
  : list (string * StartPos) :=
  match m with
  | [] => [(k, v)]
  | (k', v') :: rest =>
      if String.eqb k' k then (k, v) :: rest else (k', v') :: mapSet k v rest
  end.

Definition startPosOf (element : CanvasElement) : StartPos :=
  match element with
  | Line b endX endY _ => mkStartPos (el_x b) (el_y b) (Some endX) (Some endY)
  | _ => mkStartPos (elemX element) (elemY element) None None
  end.

(** The body of [selectedElementIds.forEach] in [handleMouseDown]. *)
Definition captureStep (els : list CanvasElement)
           (positions : list (string * StartPos)) (i : string)
  : list (string * StartPos) :=
  match findById els i with
  | Some element =>
      if negb (locked element)
      then mapSet i (startPosOf element) positions
      else positions
  | None => positions
  end.

(** The snapshot taken by [handleMouseDown] over [selectedElementIds]. *)
Definition capturePositions (els : list CanvasElement) (sel : list string)
  : list (string * StartPos) :=
  fold_left (captureStep els) sel [].

(** The rotate and scale handles of the single selected element: [Some]
    is the state after the [return] of the handle branch. *)
Definition grabHandle (project : Project) (point : Point) (w : World)
  : option World :=
  let vt := viewTransform (cv w) in
  match tool (app w), soleSelected (selectedElementIds (app w)) with
  | ToolSelect, Some sel0 =>
      match findById (elements project) sel0 with
      | Some selectedElement =>
          if negb (locked selectedElement) then
            if getRotationHandle vt point selectedElement then
              let bounds := getElementBounds vt selectedElement in
              Some (withCv w
                      (setRotationStart
                         (atan2 (pt_y point - centerY bounds)
                                (pt_x point - centerX bounds))
                         (setIsRotating true (cv w))))
            else
              match getScaleHandle vt point selectedElement with
              | Some handle =>
                  Some (withCv w
                          (setDrawStart point
                             (setScaleHandle (Some handle)
                                (setIsScaling true (cv w)))))
              | None => None
              end
          else None
      | None => None
      end
  | _, _ => None
  end.

Definition newText (w : World) (point : Point) : CanvasElement :=
  Text (mkBase (generateId w) (pt_x point) (pt_y point)
               (strokeFor (theme (app w))) (fillFor (theme (app w)))
               None 10 None None None None)
       "Text" 16 "Arial".

Definition newDoor (w : World) (project : Project) (snappedPosition : Snap)
  : CanvasElement :=
  Door (mkBase (generateId w) (snap_x snappedPosition)
               (snap_y snappedPosition)
               (strokeFor (theme (app w))) (fillFor (theme (app w)))
               None 10 None (Some (snap_rotation snappedPosition)) None None)
       (80 * pixelsPerCm project)
       (snap_attachedToLine snappedPosition)
       (snap_attachedToRectangle snappedPosition)
       (snap_attachmentSide snappedPosition).

(** The selection after a click on an element: toggled under shift,
    replaced by the element when it was not selected, kept otherwise. *)
Definition clickSelect (e : MouseEvent) (clickedId : string) (a : App)
  : App :=
  let sel := selectedElementIds a in
  if shiftKey e then
    if includes sel clickedId
    then setSelectedElementIds
           (filter (fun i => negb (String.eqb i clickedId)) sel) a
    else setSelectedElementIds (sel ++ [clickedId]) a
  else if negb (includes sel clickedId)
  then setSelectedElementIds [clickedId] a
  else a.

(** The start of a drag on an unlocked clicked element; [sel] is
    [selectedElementIds] as the handler sees it. *)
Definition beginDrag (project : Project) (sel : list string) (point : Point)
           (clickedElement : CanvasElement) (c : Canvas) : Canvas :=
  let c1 :=
    setElementStartPositions
      (capturePositions (elements project) sel)
      (setDragStart point
         (setDragReferenceId (Some (elemId clickedElement))
            (setIsDragging true c))) in
  if isDoor clickedElement
  then setDoorOriginalRotation (el_rotation (base clickedElement)) c1
  else c1.

(** The component is mounted only while the current project exists;
    without one no handler runs. *)
Definition handleMouseDown (e : MouseEvent) (w : World) : World :=
  match currentProject (app w) with
  | None => w
  | Some project =>
    let c := cv w in
    let a := app w in
    let vt := viewTransform c in
    let sel := selectedElementIds a in
    let point := screenToCanvas (canvas w) vt (clientX e) (clientY e) in
    if (button e =? 1)%Z || (button e =? 2)%Z
       || ((button e =? 0)%Z && altKey e)
    then withCv w
           (setPanStart (mkPoint (clientX e) (clientY e))
              (setIsPanning true c))
    else
      match grabHandle project point w with
      | Some w' => w'
      | None =>
        match tool a with
        | ToolSelect =>
            match findElementAt vt (elements project) (pt_x point)
                                (pt_y point) with
            | Some clickedElement =>
                withCv
                  (withApp w (clickSelect e (elemId clickedElement) a))
                  (if negb (locked clickedElement)
                   then beginDrag project sel point clickedElement c
                   else c)
            | None =>
                let a' :=
                  if negb (shiftKey e) then setSelectedElementIds [] a
                  else a in
                withCv (withApp w a')
                       (setPotentialSelection true (setDrawStart point c))
            end
        | ToolLine | ToolRectangle | ToolCircle =>
            withCv w (setDrawStart point (setIsDrawing true c))
        | ToolText =>
            idUsed
              (withApp w
                 (setTool ToolSelect (addElement a (newText w point) a)))
        | ToolDoor =>
            let snappedPosition :=
              findNearestLineOrWall vt (elements project) point in
            idUsed
              (withApp w
                 (setTool ToolSelect
                    (addElement a (newDoor w project snappedPosition) a)))
        end
      end
  end.

(** ** Pointer move *)

(** The object literals passed to [onUpdateElement]. *)
Definition updRotation (rotation : R) : Updates :=
  mkUpdates None None None None None None None (Some (Some rotation)) None
            None None None None None None None None None None None None None
            None None None.
Definition updRect (x y width height : R) : Updates :=
  mkUpdates (Some x) (Some y) None None None None None None None None None
            None None (Some width) (Some height) None None None None None
            None None None None None.
Definition updFontSize (fontSize : R) : Updates :=
  mkUpdates None None None None None None None None None None None None None
            None None None None None (Some fontSize) None None None None None
            None.
Definition updLine (x y endX endY : R) : Updates :=
  mkUpdates (Some x) (Some y) None None None None None None None None
            (Some endX) (Some endY) None None None None None None None None
            None None None None None.
Definition updDoor (x y : R) (rotation : option R) : Updates :=
  mkUpdates (Some x) (Some y) None None None None None (Some rotation) None
            None None None None None None None None None None None None None
            None None None.
Definition updXY (x y : R) : Updates :=
  mkUpdates (Some x) (Some y) None None None None None None None None None
            None None None None None None None None None None None None None
            None.
Definition updContent (content : string) : Updates :=
  mkUpdates None None None None None None None None None None None None None
            None None None None (Some content) None None None None None None
            None.

(** The projection of the pointer on a wall segment, clamped to it. *)
Definition slideAlong (point : Point) (lineX1 lineY1 lineX2 lineY2 : R)
  : R * R * R :=
  let lineVecX := lineX2 - lineX1 in
  let lineVecY := lineY2 - lineY1 in
  let lineLength := sqrt (lineVecX * lineVecX + lineVecY * lineVecY) in
  let lineUnitX := lineVecX / lineLength in
  let lineUnitY := lineVecY / lineLength in
  let toPointX := pt_x point - lineX1 in
  let toPointY := pt_y point - lineY1 in
  let projection := toPointX * lineUnitX + toPointY * lineUnitY in
  let clampedProjection := Rmax 0 (Rmin lineLength projection) in
  (lineX1 + clampedProjection * lineUnitX,
   lineY1 + clampedProjection * lineUnitY,
   atan2 lineVecY lineVecX).

(** [newX], [newY] and [rotation] of the dragged reference door. *)
Definition doorDragPose (vt : ViewTransform) (els : list CanvasElement)
           (size : nat) (doorOriginalRotation : option R) (point : Point)
           (dx dy : R) (startPos : StartPos) (primaryElement : CanvasElement)
  : R * R * option R :=
  let newX := sp_x startPos + dx in
  let newY := sp_y startPos + dy in
  let rotation := el_rotation (base primaryElement) in
  match primaryElement with
  | Door _ _ attachedToLine attachedToRectangle attachmentSide =>
      if Nat.eqb size 1 then
        if truthy attachedToLine then
          match
            find (fun e => match attachedToLine with
                           | Some l => String.eqb (elemId e) l && isLine e
                           | None => false
                           end) els
          with
          | Some (Line lb lEndX lEndY _) =>
              let '(px, py, rot) :=
                slideAlong point (el_x lb) (el_y lb) lEndX lEndY in
              (px, py, Some rot)
          | _ => (newX, newY, rotation)
          end
        else if truthy attachedToRectangle then
          match
            find (fun e => match attachedToRectangle with
                           | Some l =>
                               String.eqb (elemId e) l && isRectangle e
                           | None => false
                           end) els,
            attachmentSide
          with
          | Some (Rectangle rb rWidth rHeight _ _), Some side =>
              let '(lineX1, lineY1, lineX2, lineY2) :=
                match side with
                | top =>
                    (el_x rb, el_y rb, el_x rb + rWidth, el_y rb)
                | bottom =>
                    (el_x rb, el_y rb + rHeight,
                     el_x rb + rWidth, el_y rb + rHeight)
                | left =>
                    (el_x rb, el_y rb, el_x rb, el_y rb + rHeight)
                | right =>
                    (el_x rb + rWidth, el_y rb,
                     el_x rb + rWidth, el_y rb + rHeight)
                end in
              let '(px, py, rot) :=
                slideAlong point lineX1 lineY1 lineX2 lineY2 in
              (px, py, Some rot)
          | _, _ => (newX, newY, rotation)
          end
        else
          let snappedPosition := findNearestLineOrWall vt els point in
          let snapDistance := 30 / scale vt in
          if distLt (snap_distance snappedPosition) snapDistance
          then (snap_x snappedPosition, snap_y snappedPosition,
                Some (snap_rotation snappedPosition))
          else (newX, newY, doorOriginalRotation)
      else (newX, newY, rotation)
  | _ => (newX, newY, rotation)
  end.

(** [id === dragReferenceId] *)
Definition isReference (c : Canvas) (i : string) : bool :=
  match dragReferenceId c with
  | Some d => String.eqb i d
  | None => false
  end.

(** The body of [elementStartPositions.forEach] while dragging: the
    object passed to [onUpdateElement(id, ..., true)], or [None] when the
    body returns before ([!element || element.locked]). *)
Definition dragUpdate (c : Canvas) (project : Project) (point : Point)
           (dx dy : R) (entry : string * StartPos) : option Updates :=
  let '(i, startPos) := entry in
  match findById (elements project) i with
  | None => None
  | Some element =>
      if locked element then None
      else
        match isLine element, sp_endX startPos, sp_endY startPos with
        | true, Some sEndX, Some sEndY =>
            Some (updLine (sp_x startPos + dx) (sp_y startPos + dy)
                          (sEndX + dx) (sEndY + dy))
        | _, _, _ =>
            if isDoor element && isReference c i then
              let '(newX, newY, rotation) :=
                doorDragPose (viewTransform c) (elements project)
                             (List.length (elementStartPositions c))
                             (doorOriginalRotation c) point dx dy startPos
                             element in
              Some (updDoor newX newY rotation)
            else
              Some (updXY (sp_x startPos + dx) (sp_y startPos + dy))
        end
  end.

(** One round of the [forEach]: [r] is the render the handler belongs to,
    [a] is the application state the updates accumulate in. *)
Definition dragEntry (r : App) (c : Canvas) (project : Project)
           (point : Point) (dx dy : R) (a : App) (entry : string * StartPos)
  : App :=
  match dragUpdate c project point dx dy entry with
  | Some updates => updateElement r (fst entry) updates true a
  | None => a
  end.

(** The rectangle branch of the scaling gesture: the new
    [(x, y, width, height)]. *)
Definition scaledRect (handle : Handle) (dx dy x y width height : R)
  : R * R * R * R :=
  let '(newX, newWidth) :=
    if includesW handle then (x + dx, width - dx) else (x, width) in
  let newWidth := if includesE handle then width + dx else newWidth in
  let '(newY, newHeight) :=
    if includesN handle then (y + dy, height - dy) else (y, height) in
  let newHeight := if includesS handle then height + dy else newHeight in
  (newX, newY, newWidth, newHeight).

Definition scaleMove (project : Project) (point : Point) (handle : Handle)
           (sel0 : string) (w acc : World) : World :=
  let c := cv w in
  match findById (elements project) sel0 with
  | Some (Rectangle b width height _ _) =>
      let dx := pt_x point - pt_x (drawStart c) in
      let dy := pt_y point - pt_y (drawStart c) in
      let '(newX, newY, newWidth, newHeight) :=
        scaledRect handle dx dy (el_x b) (el_y b) width height in
      if Rgtb newWidth 10 && Rgtb newHeight 10 then
        withCv
          (withApp acc
             (updateElement (app w) sel0
                (updRect newX newY newWidth newHeight) true (app acc)))
          (setDrawStart point (cv acc))
      else acc
  | Some (Text b content fontSize fontFamily) =>
      let dx := pt_x point - pt_x (drawStart c) in
      let dy := pt_y point - pt_y (drawStart c) in
      match handle with
      | He | Hne | Hse =>
          let newFontSize := Rmax 8 (fontSize + (dx + dy) / 2) in
          withCv
            (withApp acc
               (updateElement (app w) sel0 (updFontSize newFontSize) true
                              (app acc)))
            (setDrawStart point (cv acc))
      | _ => acc
      end
  | _ => acc
  end.

(** The preview element of the drawing gesture. *)
Definition drawPreview (w : World) (project : Project) (point : Point)
  : option CanvasElement :=
  let c := cv w in
  let stroke := strokeFor (theme (app w)) in
  let fill := fillFor (theme (app w)) in
  let start := drawStart c in
  match tool (app w) with
  | ToolLine =>
      let lengthCm :=
        calculateDistance (pixelsPerCm project) (pt_x start) (pt_y start)
                          (pt_x point) (pt_y point) in
      Some (Line (mkBase (generateId w) (pt_x start) (pt_y start) stroke fill
                         None 10 None None None None)
                 (pt_x point) (pt_y point) lengthCm)
  | ToolRectangle =>
      let width := Rabs (pt_x point - pt_x start) in
      let height := Rabs (pt_y point - pt_y start) in
      let x := Rmin (pt_x start) (pt_x point) in
      let y := Rmin (pt_y start) (pt_y point) in
      Some (Rectangle (mkBase (generateId w) x y stroke fill None 10 None
                              None None None)
                      width height (width / pixelsPerCm project)
                      (height / pixelsPerCm project))
  | ToolCircle =>
      let dx := pt_x point - pt_x start in
      let dy := pt_y point - pt_y start in
      let radius := sqrt (dx * dx + dy * dy) in
      Some (Circle (mkBase (generateId w) (pt_x start) (pt_y start) stroke
                           fill None 10 None None None None)
                   radius (radius / pixelsPerCm project))
  | _ => None
  end.

Definition handleMouseMove (e : MouseEvent) (w : World) : World :=
  match currentProject (app w) with
  | None => w
  | Some project =>
    let c := cv w in
    let a := app w in
    let vt := viewTransform c in
    let sel := selectedElementIds a in
    let point := screenToCanvas (canvas w) vt (clientX e) (clientY e) in
    (* hover feedback; [updateCursor] only sets the cursor shape *)
    let acc :=
      if negb (isPanning c) && negb (isRotating c) && negb (isScaling c)
         && negb (isDragging c) && negb (isDrawing c) && negb (isSelecting c)
      then
        match tool a with
        | ToolDoor =>
            let snappedPosition :=
              findNearestLineOrWall vt (elements project) point in
            let snapDistance := 30 / scale vt in
            if distLt (snap_distance snappedPosition) snapDistance
            then withCv w
                   (setDoorHoverSnap
                      (Some (mkHoverSnap (snap_x snappedPosition)
                                         (snap_y snappedPosition)
                                         (snap_rotation snappedPosition))) c)
            else withCv w (setDoorHoverSnap None c)
        | _ => withCv w (setDoorHoverSnap None c)
        end
      else w in
    if isPanning c then
      let dx := clientX e - pt_x (panStart c) in
      let dy := clientY e - pt_y (panStart c) in
      withCv acc
        (setPanStart (mkPoint (clientX e) (clientY e))
           (setViewTransform
              (mkView (scale vt) (offsetX vt + dx) (offsetY vt + dy))
              (cv acc)))
    else if isRotating c && Nat.eqb (List.length sel) 1 then
      match soleSelected sel with
      | Some sel0 =>
          match findById (elements project) sel0 with
          | Some selectedElement =>
              let bounds := getElementBounds vt selectedElement in
              let currentAngle :=
                atan2 (pt_y point - centerY bounds)
                      (pt_x point - centerX bounds) in
              let rotationDelta := currentAngle - rotationStart c in
              let currentRotation := rotationOr0 selectedElement in
              withCv
                (withApp acc
                   (updateElement a sel0
                      (updRotation (currentRotation + rotationDelta)) true
                      (app acc)))
                (setRotationStart currentAngle (cv acc))
          | None => acc
          end
      | None => acc
      end
    else if isScaling c
            && match scaleHandle c with Some _ => true | None => false end
            && Nat.eqb (List.length sel) 1 then
      match scaleHandle c, soleSelected sel with
      | Some handle, Some sel0 => scaleMove project point handle sel0 w acc
      | _, _ => acc
      end
    else if isDragging c && Nat.ltb 0 (List.length sel)
            && truthy (dragReferenceId c) then
      let dx := pt_x point - pt_x (dragStart c) in
      let dy := pt_y point - pt_y (dragStart c) in
      withApp acc
        (fold_left (dragEntry a c project point dx dy)
                   (elementStartPositions c) (app acc))
    else if potentialSelection c || isSelecting c then
      let distance :=
        sqrt ((pt_x point - pt_x (drawStart c)) ^ 2
              + (pt_y point - pt_y (drawStart c)) ^ 2) in
      let c1 :=
        if potentialSelection c && Rgtb distance 5
        then setIsSelecting true (setPotentialSelection false (cv acc))
        else cv acc in
      let c2 :=
        if isSelecting c then
          let width := pt_x point - pt_x (drawStart c) in
          let height := pt_y point - pt_y (drawStart c) in
          setSelectionBox
            (Some (mkBox (Rmin (pt_x (drawStart c)) (pt_x point))
                         (Rmin (pt_y (drawStart c)) (pt_y point))
                         (Rabs width) (Rabs height))) c1
        else c1 in
      withCv acc c2
    else if isDrawing c then
      match drawPreview w project point with
      | Some element => idUsed (withCv acc (setTempElement (Some element)
                                                           (cv acc)))
      | None => acc
      end
    else acc
  end.

(** ** Pointer up and box selection *)

Definition isPointInBox (x y : R) (box : Box) : bool :=
  Rgeb x (box_x box) && Rleb x (box_x box + box_width box)
  && Rgeb y (box_y box) && Rleb y (box_y box + box_height box).

Definition getRotatedCorners (x y width height rotation centerX centerY : R)
  : list Point :=
  let corners :=
    [ mkPoint x y;
      mkPoint (x + width) y;
      mkPoint x (y + height);
      mkPoint (x + width) (y + height) ] in
  map (fun corner =>
         let cos := cos rotation in
         let sin := sin rotation in
         let dx := pt_x corner - centerX in
         let dy := pt_y corner - centerY in
         mkPoint (centerX + dx * cos - dy * sin)
                 (centerY + dx * sin + dy * cos))
      corners.

(** The predicate of [project.elements.filter] on box-select release. *)
Definition inSelectionBox (vt : ViewTransform) (selectionBox : Box)
           (element : CanvasElement) : bool :=
  match element with
  | Line b endX endY _ =>
      (Rgeb (el_x b) (box_x selectionBox)
       && Rleb (el_x b) (box_x selectionBox + box_width selectionBox)
       && Rgeb (el_y b) (box_y selectionBox)
       && Rleb (el_y b) (box_y selectionBox + box_height selectionBox))
      || (Rgeb endX (box_x selectionBox)
          && Rleb endX (box_x selectionBox + box_width selectionBox)
          && Rgeb endY (box_y selectionBox)
          && Rleb endY (box_y selectionBox + box_height selectionBox))
  | Rectangle b width height _ _ =>
      let rotation := rotationOr0 element in
      let centerX := el_x b + width / 2 in
      let centerY := el_y b + height / 2 in
      let corners :=
        getRotatedCorners (el_x b) (el_y b) width height rotation
                          centerX centerY in
      existsb (fun corner =>
                 isPointInBox (pt_x corner) (pt_y corner) selectionBox)
              corners
  | Text b content fontSize _ =>
      let rotation := rotationOr0 element in
      let scaledFontSize := fontSize / scale vt in
      let estimatedWidth := contentLength content * scaledFontSize * 0.6 in
      let corners :=
        getRotatedCorners (el_x b) (el_y b - scaledFontSize) estimatedWidth
                          scaledFontSize rotation (el_x b) (el_y b) in
      existsb (fun corner =>
                 isPointInBox (pt_x corner) (pt_y corner) selectionBox)
              corners
  | Circle b radius _ =>
      Rltb (el_x b - radius) (box_x selectionBox + box_width selectionBox)
      && Rgtb (el_x b + radius) (box_x selectionBox)
      && Rltb (el_y b - radius) (box_y selectionBox + box_height selectionBox)
      && Rgtb (el_y b + radius) (box_y selectionBox)
  | Door b width _ _ _ =>
      let rotation := rotationOr0 element in
      let cos := cos rotation in
      let sin := sin rotation in
      let point1X := el_x b in
      let point1Y := el_y b in
      let point2X := el_x b + width * cos in
      let point2Y := el_y b + width * sin in
      isPointInBox point1X point1Y selectionBox
      || isPointInBox point2X point2Y selectionBox
  end.

Definition handleMouseUp (w : World) : World :=
  match currentProject (app w) with
  | None => w
  | Some project =>
    let c := cv w in
    let a := app w in
    if isPanning c then withCv w (setIsPanning false c)
    else if isRotating c then
      withApp (withCv w (setIsRotating false c))
              (saveCurrentStateToHistory a a)
    else if isScaling c then
      withApp (withCv w (setScaleHandle None (setIsScaling false c)))
              (saveCurrentStateToHistory a a)
    else if isDragging c then
      withApp
        (withCv w
           (setDoorOriginalRotation None
              (setElementStartPositions []
                 (setDragReferenceId None (setIsDragging false c)))))
        (saveCurrentStateToHistory a a)
    else if potentialSelection c then
      withCv w (setPotentialSelection false c)
    else
      match isSelecting c, selectionBox c, isDrawing c, tempElement c with
      | true, Some box, _, _ =>
          let elementsInBox :=
            filter (inSelectionBox (viewTransform c) box)
                   (elements project) in
          withApp
            (withCv w (setSelectionBox None (setIsSelecting false c)))
            (setSelectedElementIds (map elemId elementsInBox) a)
      | _, _, true, Some temp =>
          withApp
            (withCv w (setIsDrawing false (setTempElement None c)))
            (setTool ToolSelect (addElement a temp a))
      | _, _, _, _ => w
      end
  end.

(** ** Keyboard *)

(** The copy made by paste and duplicate:
    [{ ...copied, id: generateId(), x: copied.x + 20, y: copied.y + 20 }],
    with [endX] and [endY] moved as well for a line. *)
Definition offsetCopy (newId : string) (copied : CanvasElement)
  : CanvasElement :=
  let b := base copied in
  let nb :=
    mkBase newId (el_x b + 20) (el_y b + 20) (el_color b) (el_fillColor b)
           (el_opacity b) (el_strokeWidth b) (el_hideDimensions b)
           (el_rotation b) (el_text b) (el_locked b) in
  match copied with
  | Line _ endX endY lengthCm => Line nb (endX + 20) (endY + 20) lengthCm
  | _ => withBase copied nb
  end.

(** [source.map(el => ...)] with one [generateId()] per element, the first
    one being [ids n]. *)
Fixpoint offsetCopies (ids : nat -> string) (n : nat)
         (source : list CanvasElement) : list CanvasElement :=
  match source with
  | [] => []
  | el :: rest => offsetCopy (ids n) el :: offsetCopies ids (S n) rest
  end.

Definition idsUsed (k : nat) (w : World) : World :=
  mkWorld (app w) (cv w) (canvas w) (ids w) (nextId w + k).

Definition pasteElements (source : list CanvasElement) (w : World) : World :=
  let newElements := offsetCopies (ids w) (nextId w) source in
  idsUsed (List.length source)
    (withApp w
       (setSelectedElementIds (map elemId newElements)
          (addMultipleElements (app w) newElements (app w)))).

Definition isArrow (k : string) : bool :=
  String.eqb k "ArrowUp" || String.eqb k "ArrowDown"
  || String.eqb k "ArrowLeft" || String.eqb k "ArrowRight".

Definition updNudge (x y : R) (ends : option (R * R)) : Updates :=
  match ends with
  | Some (endX, endY) => updLine x y endX endY
  | None => updXY x y
  end.

(** The body of [selectedElementIds.forEach] of the arrow keys. *)
Definition nudge (r : App) (project : Project) (dx dy : R) (a : App)
           (i : string) : App :=
  match findById (elements project) i with
  | None => a
  | Some element =>
      updateElement r i
        (updNudge (round (elemX element + dx)) (round (elemY element + dy))
                  match element with
                  | Line _ endX endY _ =>
                      Some (round (endX + dx), round (endY + dy))
                  | _ => None
                  end)
        false a
  end.

Definition handleKeyDown (e : KeyboardEvent) (w : World) : World :=
  match currentProject (app w) with
  | None => w
  | Some project =>
    let c := cv w in
    let a := app w in
    let sel := selectedElementIds a in
    let cmd := metaKey e || ctrlKey e in
    if (String.eqb (key e) "Delete" || String.eqb (key e) "Backspace")
       && negb (isInputField e) then
      match sel with
      | [] => w
      | [i] => withApp w (deleteElement a i a)
      | _ => withApp w (deleteMultipleElements a sel a)
      end
    else if String.eqb (key e) "Escape" then
      if showSettings c then withCv w (setShowSettings false c)
      else withApp w (setTool ToolSelect (setSelectedElementIds [] a))
    else if cmd && String.eqb (key e) "a" && negb (isInputField e) then
      withApp w (setSelectedElementIds (map elemId (elements project)) a)
    else if cmd && String.eqb (key e) "c" && negb (isInputField e) then
      if Nat.ltb 0 (List.length sel) then
        withCv w
          (setCopiedElements
             (filter (fun el => includes sel (elemId el)) (elements project))
             c)
      else w
    else if cmd && String.eqb (key e) "v" && negb (isInputField e) then
      if Nat.ltb 0 (List.length (copiedElements c))
      then pasteElements (copiedElements c) w
      else w
    else if cmd && String.eqb (key e) "d" && negb (isInputField e) then
      if Nat.ltb 0 (List.length sel) then
        pasteElements
          (filter (fun el => includes sel (elemId el)) (elements project)) w
      else w
    else if isArrow (key e) && negb (isInputField e) then
      if Nat.ltb 0 (List.length sel) then
        let movementCm := if keyShift e then 1.0 else 0.5 in
        let movementPixels := round (movementCm * pixelsPerCm project) in
        let dx :=
          if String.eqb (key e) "ArrowRight" then movementPixels
          else if String.eqb (key e) "ArrowLeft" then - movementPixels
          else 0 in
        let dy :=
          if String.eqb (key e) "ArrowDown" then movementPixels
          else if String.eqb (key e) "ArrowUp" then - movementPixels
          else 0 in
        withApp w (fold_left (nudge a project dx dy) sel a)
      else w
    else if negb (isInputField e) && Nat.eqb (List.length sel) 1
            && Nat.eqb (String.length (key e)) 1
            && negb (metaKey e) && negb (ctrlKey e) && negb (keyAlt e) then
      match soleSelected sel with
      | Some sel0 =>
          match findById (elements project) sel0 with
          | Some (Text _ _ _ _) =>
              withCv
                (withApp w
                   (updateElement a sel0 (updContent (key e)) false a))
                (setEditingTextId (Some sel0) c)
          | _ => w
          end
      | None => w
      end
    else w
  end.

(** ** Sample values *)

(** The view transform of a fresh canvas. *)
Definition unitView : ViewTransform := mkView 1 0 0.

(** A line from (0,0) to (100,0) with arbitrary remaining fields. *)
Definition wall (b : BaseElement) (lengthCm : R) : CanvasElement :=
  Line (mkBase (el_id b) 0 0 (el_color b) (el_fillColor b) (el_opacity b)
               (el_strokeWidth b) (el_hideDimensions b) (el_rotation b)
               (el_text b) (el_locked b))
       100 0 lengthCm.

(** The derived length of a line agrees with its pixel geometry. *)
Definition lengthConsistent (pixelsPerCm : R) (e : CanvasElement) : Prop :=
  match e with
  | Line b endX endY lengthCm =>
      lengthCm
      = sqrt ((endX - el_x b) ^ 2 + (endY - el_y b) ^ 2) / pixelsPerCm
  | _ => True
  end.

(** A project of the sample application and the application showing it. *)
Definition sampleProject (els : list CanvasElement) : Project :=
  mkProject "p1" "Project 1" els 10 (Some 12) None.

Definition sampleApp (els : list CanvasElement) (sel : list string) : App :=
  mkApp [sampleProject els] (Some "p1"%string) sel ToolSelect Light [] (-1)%Z.

Definition plainBase (i : string) (x y : R) : BaseElement :=
  mkBase i x y "#000000" "#f5f5f5" None 10 None None None None.

(** ** Geometry in the words of the specification *)

(** [clamp(t, lo, hi)] *)
Definition clamp (t lo hi : R) : R := Rmax lo (Rmin hi t).

(** [distanceToSegment(point, a, b)]: the distance to the point of
    parameter [t = clamp(dot(point - a, b - a) / |b - a|^2, 0, 1)]. *)
Definition distanceToSegment (p a b : Point) : R :=
  let t :=
    clamp (((pt_x p - pt_x a) * (pt_x b - pt_x a)
            + (pt_y p - pt_y a) * (pt_y b - pt_y a))
           / ((pt_x b - pt_x a) ^ 2 + (pt_y b - pt_y a) ^ 2)) 0 1 in
  let cx := pt_x a + t * (pt_x b - pt_x a) in
  let cy := pt_y a + t * (pt_y b - pt_y a) in
  sqrt ((pt_x p - cx) ^ 2 + (pt_y p - cy) ^ 2).

(** The query point in the unrotated local frame of an element placed at
    [(ox, oy)]: the offset from the origin turned by the inverse of the
    rotation. *)
Definition intoLocalFrame (x y ox oy rotation : R) : Point :=
  let dx := x - ox in
  let dy := y - oy in
  mkPoint (dx * cos (- rotation) - dy * sin (- rotation))
          (dx * sin (- rotation) + dy * cos (- rotation)).

(** The two strokes of the door symbol in its local frame. *)
Definition leafStart : Point := mkPoint 0 0.
Definition leafEnd (width : R) : Point := mkPoint width 0.
Definition arcEnd (width : R) : Point :=
  mkPoint (width + width * cos (PI / 6)) (width * sin (PI / 6)).

(** The base fields of an element at another position. *)
Definition moveBase (b : BaseElement) (x y : R) : BaseElement :=
  mkBase (el_id b) x y (el_color b) (el_fillColor b) (el_opacity b)
         (el_strokeWidth b) (el_hideDimensions b) (el_rotation b)
         (el_text b) (el_locked b).

(** A canvas with no gesture in progress, and a page showing the sample
    project in it. *)
Definition idleCanvas : Canvas :=
  mkCanvas unitView false (mkPoint 0 0) false (mkPoint 0 0) None None false
           (mkPoint 0 0) None [] None [] false None false false false false
           None 0 None.

Definition sampleIds (n : nat) : string :=
  String (Ascii.ascii_of_nat (65 + n)) "-copy".

Definition sampleWorld (els : list CanvasElement) (sel : list string)
           (c : Canvas) : World :=
  mkWorld (sampleApp els sel) c (Some (mkDOMRect 0 0)) sampleIds 0.

(** A 20 by 20 square at the origin, selected, with the east handle held
    from the world point (20,10). *)
Definition square20 : CanvasElement :=
  Rectangle (plainBase "r1" 0 0) 20 20 2 2.

Definition scalingEast : World :=
  sampleWorld [square20] ["r1"%string]
    (setScaleHandle (Some He)
       (setIsScaling true (setDrawStart (mkPoint 20 10) idleCanvas))).

(** A left-button pointer event at a client position. *)
Definition pointerAt (x y : R) : MouseEvent := mkMouseEvent x y 0 false false.

(** ** Box selection in the words of the specification *)

(** A point lies inside the (closed) selection box. *)
Definition insideBox (p : Point) (box : Box) : Prop :=
  box_x box <= pt_x p <= box_x box + box_width box
  /\ box_y box <= pt_y p <= box_y box + box_height box.

(** The four corners of unrotated bounds. *)
Definition cornersOf (bd : Bounds) : list Point :=
  [ mkPoint (bd_x bd) (bd_y bd);
    mkPoint (bd_x bd + bd_width bd) (bd_y bd);
    mkPoint (bd_x bd) (bd_y bd + bd_height bd);
    mkPoint (bd_x bd + bd_width bd) (bd_y bd + bd_height bd) ].

(** Some corner of the bounds, turned by [rotation] about [(cx, cy)], lies
    inside the box. *)
Definition someRotatedCornerInside (bd : Bounds) (cx cy rotation : R)
           (box : Box) : Prop :=
  exists c,
    In c (cornersOf bd)
    /\ insideBox (rotatePoint (pt_x c) (pt_y c) cx cy rotation) box.

(** The bounds and the box overlap in each direction, strictly. *)
Definition overlapsStrictly (bd : Bounds) (box : Box) : Prop :=
  bd_x bd < box_x box + box_width box
  /\ box_x box < bd_x bd + bd_width bd
  /\ bd_y bd < box_y box + box_height box
  /\ box_y box < bd_y bd + bd_height bd.

(** The bounds and the box have a point in common. *)
Definition intersects (bd : Bounds) (box : Box) : Prop :=
  exists p,
    (bd_x bd <= pt_x p <= bd_x bd + bd_width bd
     /\ bd_y bd <= pt_y p <= bd_y bd + bd_height bd)
    /\ insideBox p box.

(** The inclusion rule of each kind. *)
Definition inclusionRule (vt : ViewTransform) (box : Box)
           (e : CanvasElement) : Prop :=
  let bd := getElementBounds vt e in
  match e with
  | Line b endX endY _ =>
      insideBox (mkPoint (el_x b) (el_y b)) box
      \/ insideBox (mkPoint endX endY) box
  | Rectangle b _ _ _ _ =>
      someRotatedCornerInside bd (centerX bd) (centerY bd) (rotationOr0 e)
                              box
  | Text b _ _ _ =>
      someRotatedCornerInside bd (el_x b) (el_y b) (rotationOr0 e) box
  | Circle _ _ _ => overlapsStrictly bd box
  | Door b width _ _ _ =>
      insideBox (mkPoint (el_x b) (el_y b)) box
      \/ insideBox (rotatePoint (el_x b + width) (el_y b) (el_x b) (el_y b)
                                (rotationOr0 e)) box
  end.

(** A canvas whose box selection covers [box]. *)
Definition selectingCanvas (box : Box) : Canvas :=
  setSelectionBox (Some box) (setIsSelecting true idleCanvas).

(** An element with another value of its [locked] flag. *)
Definition withLocked (e : CanvasElement) (flag : option bool)
  : CanvasElement :=
  let b := base e in
  withBase e
    (mkBase (el_id b) (el_x b) (el_y b) (el_color b) (el_fillColor b)
            (el_opacity b) (el_strokeWidth b) (el_hideDimensions b)
            (el_rotation b) (el_text b) flag).

(** A circle of radius 10 at the origin and a box that touches its
    bounding square along the line x = 10. *)
Definition circle10 : CanvasElement := Circle (plainBase "c1" 0 0) 10 1.
Definition touchingBox : Box := mkBox 10 0 5 5.

(** A locked circle of radius 10 at the origin. *)
Definition lockedCircle : CanvasElement := withLocked circle10 (Some true).

(** ** Paste and duplicate in the words of the specification *)

(** [new] is [src] with the identifier [newId], moved by (20, 20): every
    other field is the one of [src], and a line moves its end point too. *)
Definition isOffsetCopy (newId : string) (src new : CanvasElement) : Prop :=
  base new
  = mkBase newId (el_x (base src) + 20) (el_y (base src) + 20)
           (el_color (base src)) (el_fillColor (base src))
           (el_opacity (base src)) (el_strokeWidth (base src))
           (el_hideDimensions (base src)) (el_rotation (base src))
           (el_text (base src)) (el_locked (base src))
  /\ match src with
     | Line _ endX endY lengthCm =>
         new = Line (base new) (endX + 20) (endY + 20) lengthCm
     | _ => withBase new (base src) = src
     end.

Definition keyWithCtrl (k : string) : KeyboardEvent :=
  mkKeyboardEvent k false true false false false.

(** A line from (0,0) to (30,40), 5 cm long at 10 pixels per cm. *)
Definition line345 : CanvasElement := Line (plainBase "l1" 0 0) 30 40 5.

(** ** The drag loop, element by element *)

(** What the rounds of the drag loop over [positions] make of one element
    of a project whose ratio is [pixelsPerCm]. *)
Definition dragElement (c : Canvas) (project : Project) (point : Point)
           (dx dy : R) (pixelsPerCm : R)
           (positions : list (string * StartPos)) (e : CanvasElement)
  : CanvasElement :=
  fold_left
    (fun e entry =>
       match dragUpdate c project point dx dy entry with
       | Some updates => updateOne pixelsPerCm (fst entry) updates e
       | None => e
       end)
    positions e.

(** Two doors attached to a wall, both selected and dragged together, the
    first one having been clicked; the pointer went down at (0,0). *)
Definition wallLine : CanvasElement := Line (plainBase "wl" 0 0) 100 0 10.
Definition doorA : CanvasElement :=
  Door (plainBase "dA" 10 0) 80 (Some "wl"%string) None None.
Definition doorB : CanvasElement :=
  Door (plainBase "dB" 50 0) 80 (Some "wl"%string) None None.

Definition draggingTwoDoors : World :=
  sampleWorld [wallLine; doorA; doorB] ["dA"%string; "dB"%string]
    (setElementStartPositions
       [("dA"%string, mkStartPos 10 0 None None);
        ("dB"%string, mkStartPos 50 0 None None)]
       (setDragReferenceId (Some "dA"%string)
          (setIsDragging true idleCanvas))).

(** A run of pointer moves. *)
Definition pointerMoves (moves : list MouseEvent) (w : World) : World :=
  fold_left (fun w e => handleMouseMove e w) moves w.

(** No gesture is in progress. *)
Definition idle (c : Canvas) : Prop :=
  isPanning c = false /\ isRotating c = false /\ isScaling c = false
  /\ isDragging c = false /\ isDrawing c = false /\ isSelecting c = false
  /\ potentialSelection c = false.

(** A 100 by 50 rectangle at the origin. *)
Definition rect100 : CanvasElement :=
  Rectangle (plainBase "r1" 0 0) 100 50 10 5.

(** ** The text editor overlay *)

(** The screen position ([screenX], [screenY]) of the inline text editor
    of an element: the anchor of a text, the centre of the bounds of any
    other element. *)
Definition editorScreenPosition (rect : DOMRect) (vt : ViewTransform)
           (element : CanvasElement) : Point :=
  match element with
  | Text b _ _ _ =>
      mkPoint (el_x b * scale vt + offsetX vt + rect_left rect)
              (el_y b * scale vt + offsetY vt + rect_top rect)
  | _ =>
      let bounds := getElementBounds vt element in
      mkPoint (centerX bounds * scale vt + offsetX vt + rect_left rect)
              (centerY bounds * scale vt + offsetY vt + rect_top rect)
  end.

(** The world point the editor is placed at. *)
Definition editorAnchor (vt : ViewTransform) (element : CanvasElement)
  : Point :=
  match element with
  | Text b _ _ _ => mkPoint (el_x b) (el_y b)
  | _ =>
      mkPoint (centerX (getElementBounds vt element))
              (centerY (getElementBounds vt element))
  end.

(** A canvas in the middle of a pan that started at the client position
    [(x, y)]. *)
Definition panningCanvas (vt : ViewTransform) (x y : R) : Canvas :=
  setPanStart (mkPoint x y)
    (setIsPanning true (setViewTransform vt idleCanvas)).

(** ** The candidate segments of the snap search *)

(** A wall segment a door can attach to, with the attachment it stands
    for. *)
Record Candidate : Type := mkCandidate {
  cand_x : R;
  cand_y : R;
  cand_endX : R;
  cand_endY : R;
  cand_line : option string;
  cand_rectangle : option string;
  cand_side : option Side
}.

(** Every line is a candidate, and so is each of the four sides of every
    rectangle. *)
Definition candidatesOf (element : CanvasElement) : list Candidate :=
  match element with
  | Line b endX endY _ =>
      [mkCandidate (el_x b) (el_y b) endX endY (Some (el_id b)) None None]
  | Rectangle b width height _ _ =>
      map (fun s =>
             let '(x, y, endX, endY, side) := s in
             mkCandidate x y endX endY None (Some (el_id b)) (Some side))
          (sides (el_x b) (el_y b) width height)
  | _ => []
  end.

Definition candidates (els : list CanvasElement) : list Candidate :=
  flat_map candidatesOf els.

Definition distanceTo (point : Point) (c : Candidate) : R :=
  pointToLineDistance (pt_x point) (pt_y point) (cand_x c) (cand_y c)
                      (cand_endX c) (cand_endY c).

(** The pose of a door snapped to a candidate. *)
Definition snapTo (point : Point) (c : Candidate) : Snap :=
  let closestPoint :=
    getClosestPointOnLine (pt_x point) (pt_y point) (cand_x c) (cand_y c)
                          (cand_endX c) (cand_endY c) in
  mkSnap (pt_x closestPoint) (pt_y closestPoint)
         (atan2 (cand_endY c - cand_y c) (cand_endX c - cand_x c))
         (Fin (distanceTo point c))
         (cand_line c) (cand_rectangle c) (cand_side c).

(** One step of the search, on a candidate. *)
Definition tryCandidate (snapDistance : R) (point : Point)
           (nearest : Dist * Snap) (c : Candidate) : Dist * Snap :=
  trySegment snapDistance point (cand_x c) (cand_y c) (cand_endX c)
             (cand_endY c) (cand_line c) (cand_rectangle c) (cand_side c)
             nearest.

(** The search state after the candidates [seen]. *)
Definition nearestOf (snapDistance : R) (point : Point)
           (seen : list Candidate) (nearest : Dist * Snap) : Prop :=
  match fst nearest with
  | Inf =>
      snd nearest = noSnap point
      /\ forall c, In c seen -> snapDistance <= distanceTo point c
  | Fin d =>
      d < snapDistance
      /\ (forall c, In c seen -> d <= distanceTo point c)
      /\ exists c,
          In c seen /\ distanceTo point c = d /\ snd nearest = snapTo point c
  end.

(** A page with the door tool chosen, showing one wall. *)
Definition doorToolWorld : World :=
  mkWorld (setTool ToolDoor (sampleApp [wallLine] []))
          idleCanvas (Some (mkDOMRect 0 0)) sampleIds 0.

(** ** The drag gesture in progress *)

(** The state of the page during a drag of the current [project]:
    [isDragging] is the only gesture flag set, something is selected, the
    reference element is named, and the identifiers of the elements and
    the keys of the snapshot are unique. *)
Definition dragging (w : World) (project : Project) : Prop :=
  currentProject (app w) = Some project
  /\ truthy (currentProjectId (app w)) = true
  /\ isPanning (cv w) = false
  /\ isRotating (cv w) = false
  /\ isScaling (cv w) = false
  /\ isDragging (cv w) = true
  /\ selectedElementIds (app w) <> []
  /\ truthy (dragReferenceId (cv w)) = true
  /\ NoDup (map fst (elementStartPositions (cv w)))
  /\ NoDup (map elemId (elements project)).

(** The world-space pointer delta of a move since the pointer went down. *)
Definition dragDelta (e : MouseEvent) (w : World) : R * R :=
  let point :=
    screenToCanvas (canvas w) (viewTransform (cv w)) (clientX e) (clientY e) in
  (pt_x point - pt_x (dragStart (cv w)),
   pt_y point - pt_y (dragStart (cv w))).

(** A selected rectangle and a selected line, dragged together. *)
Definition draggingRectAndLine : World :=
  sampleWorld [rect100; line345] ["r1"%string; "l1"%string]
    (setElementStartPositions
       [("r1"%string, mkStartPos 0 0 None None);
        ("l1"%string, mkStartPos 0 0 (Some 30) (Some 40))]
       (setDragReferenceId (Some "r1"%string)
          (setIsDragging true idleCanvas))).

(** A canvas in a box selection that started at the world point
    [(x, y)]. *)
Definition boxSelectingFrom (x y : R) : Canvas :=
  setDrawStart (mkPoint x y) (setIsSelecting true idleCanvas).

(** A pointer event with shift held. *)
Definition shiftPointerAt (x y : R) : MouseEvent :=
  mkMouseEvent x y 0 false true.

(** A canvas after a press of the select tool on empty space at the world
    point [(x, y)]. *)
Definition pressedAt (x y : R) : Canvas :=
  setDrawStart (mkPoint x y) (setPotentialSelection true idleCanvas).

(** A text "Text" of font size 16 anchored at the origin, selected, with
    a scale handle held from the world point (0,0). *)
Definition label16 : CanvasElement :=
  Text (plainBase "t1" 0 0) "Text" 16 "Arial".

Definition scalingText (h : Handle) : World :=
  sampleWorld [label16] ["t1"%string]
    (setScaleHandle (Some h) (setIsScaling true idleCanvas)).

(** ** The drawing gesture in progress *)

(** [w] differs from [w1] only by the preview element and by [n] more
    generated identifiers. *)
Definition previewsLater (w1 w : World) (n : nat) : Prop :=
  app w = app w1
  /\ canvas w = canvas w1
  /\ ids w = ids w1
  /\ nextId w = (nextId w1 + n)%nat
  /\ setTempElement None (cv w) = setTempElement None (cv w1).

(** The page while a shape is being drawn with the tool [t] from the
    world point [start]. *)
Definition drawingWith (t : Tool) (w : World) (project : Project)
           (start : Point) : Prop :=
  currentProject (app w) = Some project
  /\ truthy (currentProjectId (app w)) = true
  /\ tool (app w) = t
  /\ (t = ToolLine \/ t = ToolRectangle \/ t = ToolCircle)
  /\ isPanning (cv w) = false
  /\ isRotating (cv w) = false
  /\ isScaling (cv w) = false
  /\ isDragging (cv w) = false
  /\ potentialSelection (cv w) = false
  /\ isSelecting (cv w) = false
  /\ isDrawing (cv w) = true
  /\ drawStart (cv w) = start.

(** The sample page with a drawing tool chosen. *)
Definition toolWorld (t : Tool) (els : list CanvasElement) : World :=
  mkWorld (setTool t (sampleApp els [])) idleCanvas (Some (mkDOMRect 0 0))
          sampleIds 0.

(** ** Undo and redo ([App.tsx]) *)

(** [l[i]]: [undefined] out of range. *)
Definition index {A : Type} (l : list A) (i : Z) : option A :=
  if (i <? 0)%Z then None else nth_error l (Z.to_nat i).

(** A callback that ran to its end, or one that stopped at an exception
    with the setters called so far queued:
    [JSON.parse(JSON.stringify(undefined))] raises a [SyntaxError]. *)
Inductive Outcome : Type :=
| Returned (a : App)
| Threw (a : App).

Definition undo (r : App) (a : App) : Outcome :=
  if (historyIndex r >? 0)%Z then
    let a1 := setHistoryIndex (historyIndex r - 1) a in
    match index (history r) (historyIndex r - 1) with
    | Some previousState => Returned (setProjects previousState a1)
    | None => Threw a1
    end
  else Returned a.

Definition redo (r : App) (a : App) : Outcome :=
  if (historyIndex r <? Z.of_nat (List.length (history r)) - 1)%Z then
    let a1 := setHistoryIndex (historyIndex r + 1) a in
    match index (history r) (historyIndex r + 1) with
    | Some nextState => Returned (setProjects nextState a1)
    | None => Threw a1
    end
  else Returned a.

(** The [keydown] listener of the application. *)
Definition appKeyDown (e : KeyboardEvent) (r : App) (a : App) : Outcome :=
  if (metaKey e || ctrlKey e) && String.eqb (key e) "z" && negb (keyShift e)
  then undo r a
  else if (metaKey e || ctrlKey e)
          && (String.eqb (key e) "y"
              || (String.eqb (key e) "z" && keyShift e))
  then redo r a
  else Returned a.

(** The history index points into the history, or is [-1] with nothing
    recorded before it. *)
Definition historyInRange (a : App) : Prop :=
  (-1 <= historyIndex a < Z.of_nat (List.length (history a)))%Z.

(** The application as it starts. *)
Definition freshApp (ps : list Project) (cur : option string) : App :=
  mkApp ps cur [] ToolSelect Light [] (-1).

Definition ctrlZ : KeyboardEvent :=
  mkKeyboardEvent "z" false true false false false.

(** ** Keys *)

Definition plainKey (k : string) : KeyboardEvent :=
  mkKeyboardEvent k false false false false false.

(** A key pressed while an [INPUT] or a [TEXTAREA] has the focus. *)
Definition keyInField (k : string) (withCtrl : bool) : KeyboardEvent :=
  mkKeyboardEvent k false withCtrl false false true.

(** ** The properties panel ([PropertiesPanel.tsx]) *)

Record Rgb : Type := mkRgb { rgb_r : Z; rgb_g : Z; rgb_b : Z }.

(** The value for [parseInt(_, 16)] of a character of the class [[a-f\d]]
    under the flag [i]. *)
Definition hexValue (c : ascii) : option Z :=
  let n := Z.of_nat (nat_of_ascii c) in
  if ((48 <=? n) && (n <=? 57))%Z then Some (n - 48)%Z
  else if ((97 <=? n) && (n <=? 102))%Z then Some (n - 87)%Z
  else if ((65 <=? n) && (n <=? 70))%Z then Some (n - 55)%Z
  else None.

(** One group [([a-f\d]{2})] and its [parseInt(_, 16)]. *)
Definition parsePair (c1 c2 : ascii) : option Z :=
  match hexValue c1, hexValue c2 with
  | Some hi, Some lo => Some (16 * hi + lo)%Z
  | _, _ => None
  end.

(** The three groups up to the end of the string. *)
Definition sixDigits (s : string) : option Rgb :=
  match s with
  | String c1 (String c2 (String c3 (String c4 (String c5
      (String c6 EmptyString))))) =>
      match parsePair c1 c2, parsePair c3 c4, parsePair c5 c6 with
      | Some r, Some g, Some b => Some (mkRgb r g b)
      | _, _, _ => None
      end
  | _ => None
  end.

(** [/^#?([a-f\d]{2})([a-f\d]{2})([a-f\d]{2})$/i.exec(hex)]: the groups
    follow the [#] when there is one, which is no hexadecimal digit. *)
Definition hexToRgb (hex : string) : Rgb :=
  if String.eqb hex "transparent" then mkRgb 255 255 255
  else
    let result :=
      match hex with
      | String "#" rest => sixDigits rest
      | _ => sixDigits hex
      end in
    match result with
    | Some rgb => rgb
    | None => mkRgb 0 0 0
    end.

(** One digit of [toString(16)]. *)
Definition hexDigit (n : Z) : ascii :=
  if (n <? 10)%Z then ascii_of_nat (Z.to_nat (48 + n))
  else ascii_of_nat (Z.to_nat (87 + n)).

(** [n.toString(16)] for [0 <= n <= 255]. *)
Definition toString16 (n : Z) : string :=
  if (n <? 16)%Z then String (hexDigit n) EmptyString
  else String (hexDigit (n / 16)) (String (hexDigit (n mod 16)) EmptyString).

(** The callback of [[r, g, b].map] in [rgbToHex]; the channels are
    integers ([parseInt(e.target.value) || 0]), which [Math.round]
    returns as they are. *)
Definition channelHex (x : Z) : string :=
  let hex := toString16 (Z.max 0 (Z.min 255 x)) in
  if Nat.eqb (String.length hex) 1 then String "0" hex else hex.

Definition rgbToHex (r g b : Z) : string :=
  ("#" ++ channelHex r ++ channelHex g ++ channelHex b)%string.

(** [handleRgbChange]: the new value of [rgbInput] and the colour handed
    to [onColorSelect]. *)
Inductive Channel : Type := ChR | ChG | ChB.

Definition handleRgbChange (rgbInput : Rgb) (channel : Channel) (value : Z)
  : Rgb * string :=
  let newRgb :=
    match channel with
    | ChR => mkRgb value (rgb_g rgbInput) (rgb_b rgbInput)
    | ChG => mkRgb (rgb_r rgbInput) value (rgb_b rgbInput)
    | ChB => mkRgb (rgb_r rgbInput) (rgb_g rgbInput) value
    end in
  (newRgb, rgbToHex (rgb_r newRgb) (rgb_g newRgb) (rgb_b newRgb)).

(** The check of one channel value, for the values [0 .. 255]. *)
Definition channelReadsBack (n : Z) : bool :=
  match channelHex n with
  | String c1 (String c2 EmptyString) =>
      match parsePair c1 c2 with
      | Some v => (v =? n)%Z
      | None => false
      end
  | _ => false
  end.

(** [onUpdateElement] as the application hands it to the panel
    ([App.tsx]). *)
Definition onUpdateElement (r : App) (updates : Updates) (a : App) : App :=
  match selectedElementIds r with
  | [] => a
  | [i] => updateElement r i updates false a
  | sel => updateMultipleElements r sel updates a
  end.

Definition updWidth (width : R) : Updates :=
  mkUpdates None None None None None None None None None None None None None
            (Some width) None None None None None None None None None None
            None.
Definition updHeight (height : R) : Updates :=
  mkUpdates None None None None None None None None None None None None None
            None (Some height) None None None None None None None None None
            None.
Definition updRadius (radius : R) : Updates :=
  mkUpdates None None None None None None None None None None None None None
            None None None None None None None None None None (Some radius)
            None.

(** The size fields of the panel of one element: "Width (cm)" and
    "Height (cm)" of a rectangle, "Size (cm)" of a door, "Radius (cm)" of
    a circle. *)
Inductive SizeField : Type := WidthCm | HeightCm | SizeCm | RadiusCm.

(** The [value] prop of a size field; [None] when the panel of the
    element has no such field. *)
Definition sizeValue (pixelsPerCm : R) (element : CanvasElement)
           (field : SizeField) : option R :=
  match field, element with
  | WidthCm, Rectangle _ _ _ widthCm _ => Some widthCm
  | HeightCm, Rectangle _ _ _ _ heightCm => Some heightCm
  | SizeCm, Door _ width _ _ _ => Some (width / pixelsPerCm)
  | RadiusCm, Circle _ radius _ => Some (radius / pixelsPerCm)
  | _, _ => None
  end.

(** The number that [value.toFixed(1)] writes: the multiple of one tenth
    nearest to [value], the one further from zero when two are as near. *)
Definition toFixed1 (value : R) : R :=
  if Rltb value 0 then - (IZR (Int_part (- value * 10 + 1 / 2)) / 10)
  else IZR (Int_part (value * 10 + 1 / 2)) / 10.

(** What a size field shows while it is not edited
    ([isEditing ? editValue : value.toFixed(1)] of [NumericInput]). *)
Definition shown (pixelsPerCm : R) (element : CanvasElement)
           (field : SizeField) : option R :=
  option_map toFixed1 (sizeValue pixelsPerCm element field).

(** The [onChange] of a size field. *)
Definition sizeChange (r : App) (pixelsPerCm : R) (field : SizeField)
           (value : R) (a : App) : App :=
  onUpdateElement r
    match field with
    | WidthCm | SizeCm => updWidth (value * pixelsPerCm)
    | HeightCm => updHeight (value * pixelsPerCm)
    | RadiusCm => updRadius (value * pixelsPerCm)
    end a.

(** ** The arrow keys *)

(** The movement of one arrow key: [movementPixels] along the axis of the
    key. *)
Definition arrowDelta (project : Project) (e : KeyboardEvent) : R * R :=
  let movementPixels :=
    round ((if keyShift e then 1.0 else 0.5) * pixelsPerCm project) in
  if String.eqb (key e) "ArrowLeft" then (- movementPixels, 0)
  else if String.eqb (key e) "ArrowRight" then (movementPixels, 0)
  else if String.eqb (key e) "ArrowUp" then (0, - movementPixels)
  else (0, movementPixels).

(** ** The cursor of a scale handle *)

(** [a % b]: the remainder of the division truncated towards zero. *)
Definition jsRem (a b : R) : R :=
  let q := a / b in
  a - b * IZR (if Rlt_dec q 0 then (- Int_part (- q))%Z else Int_part q).

Definition getCursorForHandle (handle : option Handle) (rotation : R)
  : string :=
  match handle with
  | None => "default"
  | Some handle =>
      let angle := rotation * (180 / PI) in
      let normalizedAngle := jsRem (jsRem angle 180 + 180) 180 in
      let turned := Rgtb normalizedAngle 45 && Rltb normalizedAngle 135 in
      match handle with
      | Hn | Hs => if turned then "ew-resize" else "ns-resize"
      | He | Hw => if turned then "ns-resize" else "ew-resize"
      | Hne | Hsw => if turned then "nwse-resize" else "nesw-resize"
      | Hnw | Hse => if turned then "nesw-resize" else "nwse-resize"
      end
  end.

(** The handle across the element. *)
Definition opposite (h : Handle) : Handle :=
  match h with
  | Hn => Hs | Hs => Hn | He => Hw | Hw => He
  | Hne => Hsw | Hsw => Hne | Hnw => Hse | Hse => Hnw
  end.

(** ** A locked door in a group *)



(** ** Three selected elements *)

(** A rectangle, a line and a circle, all three selected, in the
    application as it starts. *)
Definition threeSelected : World :=
  sampleWorld [rect100; line345; circle10]
              ["r1"%string; "l1"%string; "c1"%string] idleCanvas.

(** * Properties *)

(** ** Comparisons *)

Lemma Rltb_true (a b : R) : Rltb a b = true <-> a < b.
Proof.
  unfold Rltb. destruct (Rlt_dec a b); split; intros; auto; discriminate.
Qed.

Lemma Rltb_false (a b : R) : Rltb a b = false <-> b <= a.
Proof.
  unfold Rltb.
  destruct (Rlt_dec a b); split; intros; auto; try discriminate; lra.
Qed.

Lemma Rleb_true (a b : R) : Rleb a b = true <-> a <= b.
Proof.
  unfold Rleb. destruct (Rle_dec a b); split; intros; auto; discriminate.
Qed.

Lemma Rleb_false (a b : R) : Rleb a b = false <-> b < a.
Proof.
  unfold Rleb.
  destruct (Rle_dec a b); split; intros; auto; try discriminate; lra.
Qed.

Lemma Rgtb_true (a b : R) : Rgtb a b = true <-> b < a.
Proof. apply Rltb_true. Qed.

Lemma Rgtb_false (a b : R) : Rgtb a b = false <-> a <= b.
Proof. apply Rltb_false. Qed.

Lemma Rgeb_true (a b : R) : Rgeb a b = true <-> b <= a.
Proof. apply Rleb_true. Qed.

Lemma Rgeb_false (a b : R) : Rgeb a b = false <-> a < b.
Proof. apply Rleb_false. Qed.

Lemma Reqb_true (a b : R) : Reqb a b = true <-> a = b.
Proof.
  unfold Reqb.
  destruct (Req_dec_T a b); split; intros; auto; discriminate.
Qed.

Lemma Reqb_false (a b : R) : Reqb a b = false <-> a <> b.
Proof.
  unfold Reqb. destruct (Req_dec_T a b); split; intros; auto; try discriminate.
  contradiction.
Qed.

(** Decide one comparison of the goal by linear arithmetic. *)
Ltac cmp_true t :=
  match t with
  | Rltb ?a ?b => rewrite (proj2 (Rltb_true a b)) by lra
  | Rleb ?a ?b => rewrite (proj2 (Rleb_true a b)) by lra
  | Rgtb ?a ?b => rewrite (proj2 (Rgtb_true a b)) by lra
  | Rgeb ?a ?b => rewrite (proj2 (Rgeb_true a b)) by lra
  | Reqb ?a ?b => rewrite (proj2 (Reqb_true a b)) by lra
  end.
Ltac cmp_false t :=
  match t with
  | Rltb ?a ?b => rewrite (proj2 (Rltb_false a b)) by lra
  | Rleb ?a ?b => rewrite (proj2 (Rleb_false a b)) by lra
  | Rgtb ?a ?b => rewrite (proj2 (Rgtb_false a b)) by lra
  | Rgeb ?a ?b => rewrite (proj2 (Rgeb_false a b)) by lra
  | Reqb ?a ?b => rewrite (proj2 (Reqb_false a b)) by lra
  end.
Ltac cmp :=
  repeat match goal with
         | |- context [Rltb ?a ?b] =>
             first [cmp_true (Rltb a b) | cmp_false (Rltb a b)]
         | |- context [Rleb ?a ?b] =>
             first [cmp_true (Rleb a b) | cmp_false (Rleb a b)]
         | |- context [Rgtb ?a ?b] =>
             first [cmp_true (Rgtb a b) | cmp_false (Rgtb a b)]
         | |- context [Rgeb ?a ?b] =>
             first [cmp_true (Rgeb a b) | cmp_false (Rgeb a b)]
         | |- context [Reqb ?a ?b] =>
             first [cmp_true (Reqb a b) | cmp_false (Reqb a b)]
         end.

(** ** Viewport transform *)

Lemma clamp_scale_pos (a : R) : 0.1 <= Rmax 0.1 (Rmin 5 a) <= 5.
Proof.
  split.
  - apply Rmax_l.
  - apply Rmax_lub; [lra | apply Rmin_l].
Qed.

(** C1. One wheel-zoom step keeps the scale within [0.1, 5] and leaves the
    world point under the cursor where it was: [screenToCanvas] of the
    cursor position is the same before and after [handleWheel], for every
    cursor position, wheel delta and view transform whose scale is within
    [0.1, 5]. *)
Theorem wheel_zoom_keeps_point_under_cursor (e : WheelEvent) (w : World) :
  0.1 <= scale (viewTransform (cv w)) <= 5 ->
  let w' := handleWheel e w in
  0.1 <= scale (viewTransform (cv w')) <= 5
  /\ screenToCanvas (canvas w') (viewTransform (cv w')) (wheelX e) (wheelY e)
     = screenToCanvas (canvas w) (viewTransform (cv w)) (wheelX e) (wheelY e).
Proof.
  intros Hs. unfold handleWheel.
  destruct (canvas w) as [rect|] eqn:Hc; cbn zeta.
  - cbn. rewrite Hc.
    set (k := Rmax 0.1 (Rmin 5 (scale (viewTransform (cv w))
                                * (if Rgtb (deltaY e) 0 then 0.9 else 1.1)))).
    assert (Hk : 0.1 <= k <= 5) by apply clamp_scale_pos.
    clearbody k. split; [exact Hk|].
    cbn. f_equal; field; lra.
  - rewrite Hc. split; [exact Hs | reflexivity].
Qed.

Lemma wheel_zoom_keeps_point_under_cursor_witness :
  let w := sampleWorld [] [] idleCanvas in
  let e := mkWheelEvent 320 240 (-100) in
  let w' := handleWheel e w in
  0.1 <= scale (viewTransform (cv w')) <= 5
  /\ screenToCanvas (canvas w') (viewTransform (cv w')) (wheelX e) (wheelY e)
     = screenToCanvas (canvas w) (viewTransform (cv w)) (wheelX e) (wheelY e).
Proof.
  cbv zeta.
  apply (wheel_zoom_keeps_point_under_cursor
           (mkWheelEvent 320 240 (-100)) (sampleWorld [] [] idleCanvas)).
  cbn. lra.
Defined.

(** ** Snapping to a wall *)

Lemma sqrt_sq_of (a s : R) : 0 <= a -> s = a * a -> sqrt s = a.
Proof. intros Ha ->. apply sqrt_square, Ha. Qed.

(** The clamped projection on the segment from (0,0) to (100,0). *)
Lemma closest_wall_inside (px py : R) :
  0 <= px <= 100 -> closest px py 0 0 100 0 = mkPoint px 0.
Proof.
  intros H. unfold closest. cbv zeta.
  assert (Hp : ((px - 0) * (100 - 0) + (py - 0) * (0 - 0))
               / ((100 - 0) * (100 - 0) + (0 - 0) * (0 - 0)) = px / 100)
    by (field; lra).
  cmp. cbn [negb]. rewrite Hp. cmp. f_equal; lra.
Qed.

Lemma closest_wall_beyond (px py : R) :
  100 < px -> closest px py 0 0 100 0 = mkPoint 100 0.
Proof.
  intros H. unfold closest. cbv zeta.
  assert (Hp : ((px - 0) * (100 - 0) + (py - 0) * (0 - 0))
               / ((100 - 0) * (100 - 0) + (0 - 0) * (0 - 0)) = px / 100)
    by (field; lra).
  cmp. cbn [negb]. rewrite Hp. cmp. reflexivity.
Qed.

Lemma atan2_wall : atan2 (0 - 0) (100 - 0) = 0.
Proof.
  unfold atan2. cmp.
  replace ((0 - 0) / (100 - 0)) with 0 by (field; lra). apply atan_0.
Qed.

(** The search over the one-wall list, for a query whose clamped
    projection is [(cx, 0)] at distance [d]. *)
Lemma snap_one_wall (b : BaseElement) (l px py cx d : R) :
  closest px py 0 0 100 0 = mkPoint cx 0 ->
  0 <= d -> (px - cx) * (px - cx) + (py - 0) * (py - 0) = d * d ->
  findNearestLineOrWall unitView [wall b l] (mkPoint px py)
  = if Rltb d 30
    then mkSnap cx 0 0 (Fin d) (Some (el_id b)) None None
    else noSnap (mkPoint px py).
Proof.
  intros Hc Hd Hsq.
  unfold findNearestLineOrWall, wall, unitView, trySegment,
    pointToLineDistance, getClosestPointOnLine.
  cbn [fold_left scale el_x el_y el_id pt_x pt_y fst snd ltDist].
  rewrite Hc. cbn [pt_x pt_y].
  rewrite (sqrt_sq_of d _ Hd Hsq).
  replace (30 / 1) with 30 by field.
  rewrite atan2_wall, andb_true_r.
  destruct (Rltb d 30); reflexivity.
Qed.

(** C2 as stated fails on its second half: with scale 1 the query (150,0) is
    50 pixels from the wall, beyond the snap threshold of 30, and the
    search returns the query point itself, not the endpoint (100,0). *)
Lemma snap_beyond_threshold_not_clamped :
  let s := findNearestLineOrWall unitView
             [wall (mkBase "w1" 0 0 "#000000" "#f5f5f5" None 10 None None
                           None None) 10]
             (mkPoint 150 0) in
  ~ (snap_x s = 100 /\ snap_y s = 0).
Proof.
  cbv zeta.
  rewrite (snap_one_wall _ _ 150 0 100 50).
  - cmp. cbn. intros [H _]. lra.
  - apply closest_wall_beyond. lra.
  - lra.
  - lra.
Qed.

(** C2, amended.  With view scale 1 and a list holding exactly one line
    from (0,0) to (100,0): the query (50,5) returns point (50,0), rotation 0,
    distance 5, attached to that line; the query (120,0), beyond the end of
    the segment and within the snap threshold 30, returns the clamped
    endpoint (100,0) at distance 20; the query (150,0) is beyond the
    threshold and returns the input point (150,0) with rotation 0 and an
    infinite distance, although its closest point on the segment is the
    clamped endpoint (100,0). *)
Theorem snap_to_wall_within_threshold (b : BaseElement) (l : R) :
  findNearestLineOrWall unitView [wall b l] (mkPoint 50 5)
  = mkSnap 50 0 0 (Fin 5) (Some (el_id b)) None None
  /\ findNearestLineOrWall unitView [wall b l] (mkPoint 120 0)
     = mkSnap 100 0 0 (Fin 20) (Some (el_id b)) None None
  /\ findNearestLineOrWall unitView [wall b l] (mkPoint 150 0)
     = mkSnap 150 0 0 Inf None None None
  /\ getClosestPointOnLine 150 0 0 0 100 0 = mkPoint 100 0
  /\ pointToLineDistance 150 0 0 0 100 0 = 50.
Proof.
  repeat split.
  - rewrite (snap_one_wall b l 50 5 50 5).
    + cmp. reflexivity.
    + apply closest_wall_inside. lra.
    + lra.
    + lra.
  - rewrite (snap_one_wall b l 120 0 100 20).
    + cmp. reflexivity.
    + apply closest_wall_beyond. lra.
    + lra.
    + lra.
  - rewrite (snap_one_wall b l 150 0 100 50).
    + cmp. reflexivity.
    + apply closest_wall_beyond. lra.
    + lra.
    + lra.
  - apply closest_wall_beyond. lra.
  - unfold pointToLineDistance. rewrite closest_wall_beyond by lra.
    cbn [pt_x pt_y]. apply sqrt_sq_of; lra.
Qed.

(** ** Derived centimetre fields *)

Lemma recompute_line_consistent (ppc : R) (e : CanvasElement) (u : Updates) :
  isLine e = true ->
  isLine (recompute ppc (spread e u)) = true
  /\ elemId (recompute ppc (spread e u)) = elemId e
  /\ lengthConsistent ppc (recompute ppc (spread e u)).
Proof.
  destruct e; try discriminate. intros _. cbn.
  repeat split. f_equal. f_equal. ring.
Qed.

Lemma updateFn_nth (cur : option string) (elementId : string) (u : Updates)
      (ps : list Project) (k : nat) (p : Project) :
  nth_error ps k = Some p ->
  isCurrent cur p = true ->
  nth_error (updateFn cur elementId u ps) k
  = Some (withElements p
            (map (updateOne (pixelsPerCm p) elementId u) (elements p))).
Proof.
  intros Hk Hc. unfold updateFn. rewrite nth_error_map, Hk. cbn.
  rewrite Hc. reflexivity.
Qed.

Lemma projects_updateElement (r a : App) (elementId : string) (u : Updates)
      (skip : bool) :
  truthy (currentProjectId r) = true ->
  projects (updateElement r elementId u skip a)
  = updateFn (currentProjectId r) elementId u (projects a).
Proof.
  intros Ht. unfold updateElement. rewrite Ht. cbn.
  destruct skip; reflexivity.
Qed.

(** C3. After [updateElement] with any partial update, every line of the
    current project that carries the updated identifier is still a line
    with that identifier whose [lengthCm] is
    [sqrt ((endX - x)^2 + (endY - y)^2) / pixelsPerCm] of its new
    geometry; the ratio of the project is untouched and the elements with
    another identifier are returned as they were. *)
Theorem updateElement_line_length_recomputed
        (r a : App) (elementId : string) (u : Updates) (skip : bool)
        (k : nat) (p : Project) :
  truthy (currentProjectId r) = true ->
  nth_error (projects a) k = Some p ->
  isCurrent (currentProjectId r) p = true ->
  exists p',
    nth_error (projects (updateElement r elementId u skip a)) k = Some p'
    /\ pixelsPerCm p' = pixelsPerCm p
    /\ forall i e,
        nth_error (elements p) i = Some e ->
        exists e',
          nth_error (elements p') i = Some e'
          /\ (isLine e = true -> elemId e = elementId ->
              isLine e' = true /\ elemId e' = elementId
              /\ lengthConsistent (pixelsPerCm p) e')
          /\ (elemId e <> elementId -> e' = e).
Proof.
  intros Ht Hk Hc.
  rewrite (projects_updateElement r a elementId u skip Ht).
  rewrite (updateFn_nth _ _ _ _ _ _ Hk Hc).
  eexists. split; [reflexivity|]. split; [reflexivity|].
  intros i e Hi. cbn [elements withElements].
  rewrite nth_error_map, Hi. cbn [option_map]. unfold updateOne.
  eexists. split; [reflexivity|]. split.
  - intros Hl He.
    rewrite <- He, String.eqb_refl. cbn [negb].
    apply recompute_line_consistent, Hl.
  - intros Hne. apply String.eqb_neq in Hne. rewrite Hne. reflexivity.
Qed.

Lemma updateElement_line_length_recomputed_witness :
  let line := Line (plainBase "l1" 0 0) 30 40 999 in
  let a := sampleApp [line] [] in
  exists p',
    nth_error (projects (updateElement a "l1" (updXY 0 10) true a)) 0
    = Some p'
    /\ pixelsPerCm p' = 10
    /\ forall i e,
        nth_error [line] i = Some e ->
        exists e',
          nth_error (elements p') i = Some e'
          /\ (isLine e = true -> elemId e = "l1"%string ->
              isLine e' = true /\ elemId e' = "l1"%string
              /\ lengthConsistent 10 e')
          /\ (elemId e <> "l1"%string -> e' = e).
Proof.
  cbv zeta.
  apply (updateElement_line_length_recomputed
           (sampleApp [Line (plainBase "l1" 0 0) 30 40 999] [])
           (sampleApp [Line (plainBase "l1" 0 0) 30 40 999] [])
           "l1" (updXY 0 10) true 0
           (sampleProject [Line (plainBase "l1" 0 0) 30 40 999])).
  - reflexivity.
  - reflexivity.
  - reflexivity.
Defined.

(** The same holds for [updateMultipleElements]. *)
Lemma updateMultipleElements_line_length_recomputed
      (r a : App) (elementIds : list string) (u : Updates)
      (k : nat) (p : Project) :
  truthy (currentProjectId r) = true ->
  nth_error (projects a) k = Some p ->
  isCurrent (currentProjectId r) p = true ->
  exists p',
    nth_error (projects (updateMultipleElements r elementIds u a)) k
    = Some p'
    /\ pixelsPerCm p' = pixelsPerCm p
    /\ forall i e,
        nth_error (elements p) i = Some e ->
        exists e',
          nth_error (elements p') i = Some e'
          /\ (isLine e = true -> includes elementIds (elemId e) = true ->
              isLine e' = true /\ elemId e' = elemId e
              /\ lengthConsistent (pixelsPerCm p) e')
          /\ (includes elementIds (elemId e) = false -> e' = e).
Proof.
  intros Ht Hk Hc. unfold updateMultipleElements. rewrite Ht.
  cbn [negb projects setProjects].
  rewrite nth_error_map, Hk. cbn [option_map]. rewrite Hc. cbn [negb].
  eexists. split; [reflexivity|]. split; [reflexivity|].
  intros i e Hi. cbn [elements withElements].
  rewrite nth_error_map, Hi. cbn [option_map].
  eexists. split; [reflexivity|]. split.
  - intros Hl He. rewrite He. cbn [negb].
    apply recompute_line_consistent, Hl.
  - intros Hne. rewrite Hne. reflexivity.
Qed.

(** ** Point-to-segment distance *)

Ltac by_cases_on b :=
  let E := fresh "E" in
  destruct b eqn:E;
  [ first [ apply Rltb_true in E | apply Rleb_true in E
          | apply Rgtb_true in E | apply Rgeb_true in E
          | apply Reqb_true in E ]
  | first [ apply Rltb_false in E | apply Rleb_false in E
          | apply Rgtb_false in E | apply Rgeb_false in E
          | apply Reqb_false in E ] ].

Lemma sum_squares_zero (c d : R) : c * c + d * d = 0 -> c = 0 /\ d = 0.
Proof. intros H. split; nra. Qed.

(** The source's [pointToLineDistance] is the specification's
    [distanceToSegment]. *)
Lemma pointToLineDistance_is_distanceToSegment (px py x1 y1 x2 y2 : R) :
  pointToLineDistance px py x1 y1 x2 y2
  = distanceToSegment (mkPoint px py) (mkPoint x1 y1) (mkPoint x2 y2).
Proof.
  unfold pointToLineDistance, distanceToSegment, closest, clamp.
  cbn [pt_x pt_y]. cbv zeta.
  set (C := x2 - x1). set (D := y2 - y1).
  set (dot := (px - x1) * C + (py - y1) * D).
  replace (C ^ 2 + D ^ 2) with (C * C + D * D) by ring.
  by_cases_on (Reqb (C * C + D * D) 0); cbn [negb].
  - destruct (sum_squares_zero C D E) as [HC HD].
    cmp. cbn [pt_x pt_y]. rewrite HC, HD. f_equal. ring.
  - set (t := dot / (C * C + D * D)).
    by_cases_on (Rltb t 0).
    + cbn [pt_x pt_y]. rewrite (Rmin_right 1 t) by lra.
      rewrite Rmax_left by lra. f_equal. ring.
    + by_cases_on (Rgtb t 1); cbn [pt_x pt_y].
      * rewrite (Rmin_left 1 t) by lra. rewrite Rmax_right by lra.
        f_equal. unfold C, D. ring.
      * rewrite (Rmin_right 1 t) by lra. rewrite Rmax_right by lra.
        f_equal. ring.
Qed.

(** ** Door hit test *)

Lemma sqrt_sq_abs (a b : R) : a = 0 -> sqrt (a ^ 2 + b ^ 2) = Rabs b.
Proof.
  intros ->. replace (0 ^ 2 + b ^ 2) with (Rsqr b) by (unfold Rsqr; ring).
  apply sqrt_Rsqr_abs.
Qed.

(** A point of the band along the leaf is as far from the leaf segment as
    its local ordinate. *)
Lemma band_distance_to_leaf (lx ly width : R) :
  0 <= lx <= width ->
  distanceToSegment (mkPoint lx ly) leafStart (leafEnd width) = Rabs ly.
Proof.
  intros H. unfold distanceToSegment, leafStart, leafEnd, clamp.
  cbn [pt_x pt_y]. cbv zeta.
  replace (ly - (0 + _ * (0 - 0))) with ly by ring.
  apply sqrt_sq_abs.
  destruct (Req_dec width 0) as [H0|H0].
  - rewrite H0. replace lx with 0 by lra. ring.
  - replace (((lx - 0) * (width - 0) + (ly - 0) * (0 - 0))
             / ((width - 0) ^ 2 + (0 - 0) ^ 2)) with (lx / width)
      by (field; lra).
    assert (Hw : 0 < width) by lra.
    assert (H1 : 0 <= lx / width).
    { apply (Rmult_le_reg_r width); [lra|].
      replace (lx / width * width) with lx by (field; lra). lra. }
    assert (H2 : lx / width <= 1).
    { apply (Rmult_le_reg_r width); [lra|].
      replace (lx / width * width) with lx by (field; lra). lra. }
    rewrite Rmin_right by lra. rewrite Rmax_right by lra.
    field; lra.
Qed.

Lemma door_local_frame (x y ox oy r : R) :
  intoLocalFrame x y ox oy r
  = mkPoint ((x - ox) * cos r + (y - oy) * sin r)
            (- (x - ox) * sin r + (y - oy) * cos r).
Proof.
  unfold intoLocalFrame. cbv zeta. rewrite cos_neg, sin_neg. f_equal; ring.
Qed.

Lemma isMatch_door (vt : ViewTransform) (b : BaseElement) (width : R)
      (al ar : option string) (side : option Side) (x y : R) :
  let l := intoLocalFrame x y (el_x b) (el_y b)
             (rotationOr0 (Door b width al ar side)) in
  isMatch vt x y (Door b width al ar side)
  = (Rleb (Rabs (pt_y l)) (5 / scale vt) && Rgeb (pt_x l) 0
     && Rleb (pt_x l) width)
    || Rleb (distanceToSegment l (leafEnd width) (arcEnd width))
            (5 / scale vt).
Proof.
  cbv zeta. rewrite door_local_frame. unfold isMatch. cbv zeta.
  rewrite pointToLineDistance_is_distanceToSegment.
  reflexivity.
Qed.

(** C5 as stated fails: the tolerance of the door strokes is 5 / scale, not
    10 / scale.  At scale 1 the point (50,7) is 7 pixels from the leaf of
    an unrotated door of width 100 at the origin, within 10, and is no
    hit. *)
Lemma door_within_ten_pixels_not_hit :
  let d := Door (plainBase "d1" 0 0) 100 None None None in
  let l := intoLocalFrame 50 7 0 0 (rotationOr0 d) in
  ~ (isMatch unitView 50 7 d = true
     <-> (distanceToSegment l leafStart (leafEnd 100) <= 10 / scale unitView
          \/ distanceToSegment l (leafEnd 100) (arcEnd 100)
             <= 10 / scale unitView)).
Proof.
  cbv zeta. intros [_ H].
  assert (Hl : intoLocalFrame 50 7 0 0
                 (rotationOr0 (Door (plainBase "d1" 0 0) 100 None None None))
               = mkPoint 50 7).
  { rewrite door_local_frame. cbn [rotationOr0 base plainBase el_rotation].
    rewrite cos_0, sin_0. f_equal; ring. }
  rewrite Hl in H.
  assert (Hhit : isMatch unitView 50 7
                   (Door (plainBase "d1" 0 0) 100 None None None) = true).
  { apply H. left. rewrite band_distance_to_leaf by lra.
    cbn [scale unitView]. rewrite Rabs_right by lra. lra. }
  rewrite isMatch_door in Hhit.
  cbn [plainBase el_x el_y] in Hhit. rewrite Hl in Hhit.
  cbn [pt_x pt_y scale unitView] in Hhit.
  apply orb_true_iff in Hhit. destruct Hhit as [Hb|Ha].
  - apply andb_true_iff in Hb. destruct Hb as [Hb _].
    apply andb_true_iff in Hb. destruct Hb as [Hb _].
    apply Rleb_true in Hb. rewrite Rabs_right in Hb by lra. lra.
  - apply Rleb_true in Ha. unfold leafEnd, arcEnd in Ha.
    rewrite <- pointToLineDistance_is_distanceToSegment in Ha.
    unfold pointToLineDistance, closest in Ha. cbv zeta in Ha.
    rewrite cos_PI6, sin_PI6 in Ha.
    assert (Hs : 1 < sqrt 3).
    { rewrite <- sqrt_1 at 1. apply sqrt_lt_1; lra. }
    set (s := sqrt 3) in *.
    assert (Hlen : 0 < (100 + 100 * (s / 2) - 100) * (100 + 100 * (s / 2) - 100)
                       + (100 * (1 / 2) - 0) * (100 * (1 / 2) - 0)) by nra.
    rewrite (proj2 (Reqb_false _ 0)) in Ha by lra. cbn [negb] in Ha.
    rewrite (proj2 (Rltb_true _ 0)) in Ha.
    + cbn [pt_x pt_y] in Ha.
      assert (H5 : 5 < sqrt ((50 - 100) * (50 - 100) + (7 - 0) * (7 - 0))).
      { rewrite <- (sqrt_square 5) at 1 by lra. apply sqrt_lt_1; lra. }
      lra.
    + apply Rmult_neg_pos; [nra | apply Rinv_0_lt_compat, Hlen].
Qed.

(** C5, amended.  With [(lx, ly)] the query point in the unrotated local
    frame of a door, [findElementAt] registers a hit on the door exactly
    when [|ly| <= 5 / scale] and [0 <= lx <= width] (a band along the leaf),
    or [(lx, ly)] is within [5 / scale] of the arc-end segment from
    [(width, 0)] to [(width + width cos 30, width sin 30)]; every hit is
    within [5 / scale] of the leaf segment or of the arc-end segment. *)
Theorem door_hit_within_five_pixels
        (vt : ViewTransform) (b : BaseElement) (width : R)
        (al ar : option string) (side : option Side) (x y : R) :
  let d := Door b width al ar side in
  let l := intoLocalFrame x y (el_x b) (el_y b) (rotationOr0 d) in
  let band := Rabs (pt_y l) <= 5 / scale vt /\ 0 <= pt_x l <= width in
  let nearArc :=
    distanceToSegment l (leafEnd width) (arcEnd width) <= 5 / scale vt in
  let nearLeaf :=
    distanceToSegment l leafStart (leafEnd width) <= 5 / scale vt in
  (isMatch vt x y d = true <-> band \/ nearArc)
  /\ (isMatch vt x y d = true -> nearLeaf \/ nearArc)
  /\ findElementAt vt [d] x y = (if isMatch vt x y d then Some d else None).
Proof.
  cbv zeta.
  assert (Hiff :
    isMatch vt x y (Door b width al ar side) = true <->
    (Rabs (pt_y (intoLocalFrame x y (el_x b) (el_y b)
                   (rotationOr0 (Door b width al ar side)))) <= 5 / scale vt
     /\ 0 <= pt_x (intoLocalFrame x y (el_x b) (el_y b)
                     (rotationOr0 (Door b width al ar side))) <= width)
    \/ distanceToSegment
         (intoLocalFrame x y (el_x b) (el_y b)
            (rotationOr0 (Door b width al ar side)))
         (leafEnd width) (arcEnd width) <= 5 / scale vt).
  { rewrite isMatch_door. cbv zeta.
    rewrite orb_true_iff, !andb_true_iff, !Rleb_true, Rgeb_true. tauto. }
  split; [exact Hiff|]. split.
  - intros H. apply Hiff in H. destruct H as [[Hy Hx]|H]; [left|right; exact H].
    destruct (intoLocalFrame x y (el_x b) (el_y b)
                (rotationOr0 (Door b width al ar side))) as [lx ly].
    cbn [pt_x pt_y] in *. rewrite band_distance_to_leaf by exact Hx. exact Hy.
  - clear Hiff. unfold findElementAt.
    change (rev [Door b width al ar side]) with [Door b width al ar side].
    cbn [findLoop].
    destruct (isMatch vt x y (Door b width al ar side)); [|reflexivity].
    destruct (negb (locked (Door b width al ar side))); reflexivity.
Qed.

(** ** The current project under updates *)

Lemma find_map_same {A : Type} (f : A -> bool) (g : A -> A) (l : list A) :
  (forall a, f (g a) = f a) ->
  find f (map g l) = option_map g (find f l).
Proof.
  intros Hfg. induction l as [|a l IH]; [reflexivity|].
  cbn. rewrite Hfg. destruct (f a); [reflexivity | exact IH].
Qed.

Lemma find_some_holds {A : Type} (f : A -> bool) (l : list A) (a : A) :
  find f l = Some a -> f a = true.
Proof. intros H. apply find_some in H. tauto. Qed.

Lemma currentProject_updateFn (a : App) (cur : option string)
      (elementId : string) (u : Updates) (project : Project) :
  cur = currentProjectId a ->
  currentProject a = Some project ->
  currentProject (setProjects (updateFn cur elementId u (projects a)) a)
  = Some (withElements project
            (map (updateOne (pixelsPerCm project) elementId u)
                 (elements project))).
Proof.
  intros -> Hp. unfold currentProject in *.
  cbn [projects currentProjectId setProjects]. unfold updateFn.
  rewrite find_map_same.
  - rewrite Hp. cbn [option_map].
    rewrite (find_some_holds _ _ _ Hp). reflexivity.
  - intros p. destruct (isCurrent (currentProjectId a) p) eqn:E; cbn [negb].
    + unfold isCurrent, withElements in *. cbn [p_id]. exact E.
    + exact E.
Qed.

Lemma currentProject_updateElement_skip (r a : App) (elementId : string)
      (u : Updates) (project : Project) :
  currentProjectId r = currentProjectId a ->
  truthy (currentProjectId r) = true ->
  currentProject a = Some project ->
  currentProject (updateElement r elementId u true a)
  = Some (withElements project
            (map (updateOne (pixelsPerCm project) elementId u)
                 (elements project))).
Proof.
  intros Hc Ht Hp. unfold updateElement. rewrite Ht. cbn [negb].
  apply currentProject_updateFn; assumption.
Qed.

Lemma updateOne_other (ppc : R) (elementId : string) (u : Updates)
      (e : CanvasElement) :
  elemId e <> elementId -> updateOne ppc elementId u e = e.
Proof.
  intros H. unfold updateOne. apply String.eqb_neq in H. rewrite H.
  reflexivity.
Qed.

Lemma updateOne_same (ppc : R) (u : Updates) (e : CanvasElement) :
  updateOne ppc (elemId e) u e = recompute ppc (spread e u).
Proof. unfold updateOne. rewrite String.eqb_refl. reflexivity. Qed.

(** ** Scaling a rectangle *)

(** One pointer move of the scaling gesture on a rectangle. *)
Lemma handleMouseMove_scaling_rectangle
      (e : MouseEvent) (w : World) (project : Project) (h : Handle)
      (sel0 : string) (b : BaseElement) (width height wc hc : R) :
  currentProject (app w) = Some project ->
  isPanning (cv w) = false ->
  isRotating (cv w) = false ->
  isScaling (cv w) = true ->
  scaleHandle (cv w) = Some h ->
  selectedElementIds (app w) = [sel0] ->
  findById (elements project) sel0 = Some (Rectangle b width height wc hc) ->
  let point :=
    screenToCanvas (canvas w) (viewTransform (cv w)) (clientX e) (clientY e) in
  let dx := pt_x point - pt_x (drawStart (cv w)) in
  let dy := pt_y point - pt_y (drawStart (cv w)) in
  let new := scaledRect h dx dy (el_x b) (el_y b) width height in
  handleMouseMove e w
  = if Rgtb (snd (fst new)) 10 && Rgtb (snd new) 10
    then withCv
           (withApp w
              (updateElement (app w) sel0
                 (updRect (fst (fst (fst new))) (snd (fst (fst new)))
                          (snd (fst new)) (snd new)) true (app w)))
           (setDrawStart point (cv w))
    else w.
Proof.
  intros Hp Hpan Hrot Hsc Hh Hsel Hf. cbv zeta.
  unfold handleMouseMove. rewrite Hp. cbv zeta.
  rewrite Hpan, Hrot, Hsc, Hh, Hsel.
  cbn [negb andb length Nat.eqb soleSelected].
  unfold scaleMove. rewrite Hf.
  destruct (scaledRect h _ _ (el_x b) (el_y b) width height)
    as [[[nx ny] nw] nh] eqn:En.
  cbn [fst snd]. reflexivity.
Qed.

Lemma scaledRect_by_handle (h : Handle) (dx dy x y width height : R) :
  scaledRect h dx dy x y width height
  = (if includesW h then x + dx else x,
     if includesN h then y + dy else y,
     if includesE h then width + dx
     else if includesW h then width - dx else width,
     if includesS h then height + dy
     else if includesN h then height - dy else height).
Proof. destruct h; reflexivity. Qed.

Lemma recompute_spread_rect (ppc : R) (b : BaseElement)
      (width height wc hc nx ny nw nh : R) :
  recompute ppc (spread (Rectangle b width height wc hc)
                        (updRect nx ny nw nh))
  = Rectangle (moveBase b nx ny) nw nh (nw / ppc) (nh / ppc).
Proof. reflexivity. Qed.

(** C6 as stated fails at the floor itself: a move that would make the
    width exactly 10 pixels does not fall below the floor, and is
    discarded all the same. *)
Lemma scale_to_exactly_ten_discarded :
  let w := scalingEast in
  let w' := handleMouseMove (pointerAt 10 10) w in
  let newWidth := 20 + (10 - 20) in
  let newHeight := 20 in
  ~ ((newWidth < 10 \/ newHeight < 10 -> w' = w)
     /\ (~ (newWidth < 10 \/ newHeight < 10) ->
         exists project',
           currentProject (app w') = Some project'
           /\ nth_error (elements project') 0
              = Some (Rectangle (plainBase "r1" 0 0) newWidth newHeight
                                (newWidth / 10) (newHeight / 10)))).
Proof.
  cbv zeta. intros [_ H].
  destruct H as [p' [Hp Hn]]; [lra|].
  rewrite (handleMouseMove_scaling_rectangle (pointerAt 10 10) scalingEast
             (sampleProject [square20]) He "r1" (plainBase "r1" 0 0)
             20 20 2 2) in Hp by reflexivity.
  rewrite scaledRect_by_handle in Hp.
  cbn [includesW includesE includesN includesS fst snd] in Hp.
  rewrite (proj2 (Rgtb_false _ 10)) in Hp.
  - cbn [andb] in Hp.
    assert (Hc : currentProject (app scalingEast)
                 = Some (sampleProject [square20])) by reflexivity.
    rewrite Hc in Hp. injection Hp as <-.
    cbn [elements sampleProject nth_error] in Hn.
    unfold square20 in Hn. injection Hn as H1 _. lra.
  - cbn. lra.
Qed.

(** C6, amended.  One pointer move of the scaling gesture on a rectangle
    is all or nothing: if the resulting width or the resulting height is
    at most 10 pixels, the move changes nothing; if both are greater than
    10, the rectangle takes the new x, y, width and height selected by the
    handle (west moves x and shrinks the width, east grows the width, north
    moves y and shrinks the height, south grows the height) and its
    centimetre fields follow.  So after the move the rectangle is as
    before or wider and higher than 10 pixels. *)
Theorem scaling_move_all_or_nothing
        (e : MouseEvent) (w : World) (project : Project) (h : Handle)
        (sel0 : string) (b : BaseElement) (width height wc hc : R)
        (i : nat) :
  currentProject (app w) = Some project ->
  truthy (currentProjectId (app w)) = true ->
  isPanning (cv w) = false ->
  isRotating (cv w) = false ->
  isScaling (cv w) = true ->
  scaleHandle (cv w) = Some h ->
  selectedElementIds (app w) = [sel0] ->
  findById (elements project) sel0 = Some (Rectangle b width height wc hc) ->
  nth_error (elements project) i = Some (Rectangle b width height wc hc) ->
  let point :=
    screenToCanvas (canvas w) (viewTransform (cv w)) (clientX e) (clientY e) in
  let dx := pt_x point - pt_x (drawStart (cv w)) in
  let dy := pt_y point - pt_y (drawStart (cv w)) in
  let newX := if includesW h then el_x b + dx else el_x b in
  let newY := if includesN h then el_y b + dy else el_y b in
  let newWidth :=
    if includesE h then width + dx
    else if includesW h then width - dx else width in
  let newHeight :=
    if includesS h then height + dy
    else if includesN h then height - dy else height in
  let w' := handleMouseMove e w in
  (newWidth <= 10 \/ newHeight <= 10 -> w' = w)
  /\ (10 < newWidth /\ 10 < newHeight ->
      exists project',
        currentProject (app w') = Some project'
        /\ nth_error (elements project') i
           = Some (Rectangle (moveBase b newX newY) newWidth newHeight
                             (newWidth / pixelsPerCm project)
                             (newHeight / pixelsPerCm project)))
  /\ (exists project' b' width' height' wc' hc',
        currentProject (app w') = Some project'
        /\ nth_error (elements project') i
           = Some (Rectangle b' width' height' wc' hc')
        /\ ((b' = b /\ width' = width /\ height' = height)
            \/ (10 < width' /\ 10 < height'))).
Proof.
  intros Hp Ht Hpan Hrot Hsc Hh Hsel Hf Hi. cbv zeta.
  rewrite (handleMouseMove_scaling_rectangle e w project h sel0 b width
             height wc hc Hp Hpan Hrot Hsc Hh Hsel Hf).
  rewrite scaledRect_by_handle. cbn [fst snd].
  set (point := screenToCanvas _ _ _ _).
  set (dx := pt_x point - _). set (dy := pt_y point - _).
  set (nx := if includesW h then el_x b + dx else el_x b).
  set (ny := if includesN h then el_y b + dy else el_y b).
  set (nw := if includesE h then width + dx
             else if includesW h then width - dx else width).
  set (nh := if includesS h then height + dy
             else if includesN h then height - dy else height).
  assert (Hid : elemId (Rectangle b width height wc hc) = sel0).
  { apply find_some_holds in Hf. apply String.eqb_eq in Hf. exact Hf. }
  assert (Hgo : 10 < nw /\ 10 < nh ->
    exists project',
      currentProject
        (app (withCv
                (withApp w
                   (updateElement (app w) sel0 (updRect nx ny nw nh) true
                                  (app w)))
                (setDrawStart point (cv w)))) = Some project'
      /\ nth_error (elements project') i
         = Some (Rectangle (moveBase b nx ny) nw nh
                           (nw / pixelsPerCm project)
                           (nh / pixelsPerCm project))).
  { intros _. eexists. split.
    - cbn [app withCv withApp].
      apply currentProject_updateElement_skip;
        [reflexivity | exact Ht | exact Hp].
    - cbn [elements withElements]. rewrite nth_error_map, Hi.
      cbn [option_map]. rewrite <- Hid, updateOne_same.
      rewrite recompute_spread_rect. reflexivity. }
  by_cases_on (Rgtb nw 10); [by_cases_on (Rgtb nh 10)|]; cbn [andb].
  - split; [intros [H|H]; lra|]. split; [exact Hgo|].
    destruct (Hgo (conj E E0)) as [p' [H1 H2]].
    exists p', (moveBase b nx ny), nw, nh, (nw / pixelsPerCm project),
      (nh / pixelsPerCm project).
    split; [exact H1|]. split; [exact H2|]. right. split; assumption.
  - split; [intros _; reflexivity|]. split; [intros [_ H]; lra|].
    exists project, b, width, height, wc, hc.
    split; [exact Hp|]. split; [exact Hi|]. left. auto.
  - split; [intros _; reflexivity|]. split; [intros [H _]; lra|].
    exists project, b, width, height, wc, hc.
    split; [exact Hp|]. split; [exact Hi|]. left. auto.
Qed.

Lemma scaling_move_all_or_nothing_witness :
  let w := scalingEast in
  let e := pointerAt 30 10 in
  let b := plainBase "r1" 0 0 in
  let point :=
    screenToCanvas (canvas w) (viewTransform (cv w)) (clientX e) (clientY e) in
  let dx := pt_x point - pt_x (drawStart (cv w)) in
  let newWidth := 20 + dx in
  let w' := handleMouseMove e w in
  (newWidth <= 10 \/ 20 <= 10 -> w' = w)
  /\ (10 < newWidth /\ 10 < 20 ->
      exists project',
        currentProject (app w') = Some project'
        /\ nth_error (elements project') 0
           = Some (Rectangle (moveBase b 0 0) newWidth 20
                             (newWidth / 10) (20 / 10)))
  /\ (exists project' b' width' height' wc' hc',
        currentProject (app w') = Some project'
        /\ nth_error (elements project') 0
           = Some (Rectangle b' width' height' wc' hc')
        /\ ((b' = b /\ width' = 20 /\ height' = 20)
            \/ (10 < width' /\ 10 < height'))).
Proof.
  cbv zeta.
  apply (scaling_move_all_or_nothing (pointerAt 30 10) scalingEast
           (sampleProject [square20]) He "r1" (plainBase "r1" 0 0)
           20 20 2 2 0); reflexivity.
Defined.

(** ** Box selection *)

Lemma isPointInBox_inside (x y : R) (box : Box) :
  isPointInBox x y box = true <-> insideBox (mkPoint x y) box.
Proof.
  unfold isPointInBox, insideBox. cbn [pt_x pt_y].
  rewrite !andb_true_iff, !Rgeb_true, !Rleb_true. tauto.
Qed.

Lemma rotated_corners_inside (x y width height rotation cx cy : R)
      (box : Box) :
  existsb (fun corner => isPointInBox (pt_x corner) (pt_y corner) box)
          (getRotatedCorners x y width height rotation cx cy) = true
  <-> someRotatedCornerInside (mkBounds x y width height cx cy) cx cy
                              rotation box.
Proof.
  unfold getRotatedCorners, someRotatedCornerInside, cornersOf.
  cbn [bd_x bd_y bd_width bd_height].
  rewrite existsb_exists. split.
  - intros [p [Hin Hp]]. apply in_map_iff in Hin.
    destruct Hin as [c [<- Hc]]. exists c. split; [exact Hc|].
    apply isPointInBox_inside in Hp. exact Hp.
  - intros [c [Hc Hp]].
    exists (rotatePoint (pt_x c) (pt_y c) cx cy rotation). split.
    + apply in_map_iff. exists c. split; [reflexivity | exact Hc].
    + apply isPointInBox_inside. exact Hp.
Qed.

(** The filter of the source decides the inclusion rule. *)
Lemma inSelectionBox_rule (vt : ViewTransform) (box : Box)
      (e : CanvasElement) :
  inSelectionBox vt box e = true <-> inclusionRule vt box e.
Proof.
  destruct e as [b ex ey l | b w h wc hc | b c f ff | b w al ar sd | b r rc];
    unfold inSelectionBox, inclusionRule; cbv zeta.
  - rewrite orb_true_iff. unfold insideBox. cbn [pt_x pt_y].
    rewrite !andb_true_iff, !Rgeb_true, !Rleb_true. tauto.
  - rewrite rotated_corners_inside. reflexivity.
  - rewrite rotated_corners_inside.
    unfold someRotatedCornerInside, cornersOf, getElementBounds.
    cbv zeta. cbn [bd_x bd_y bd_width bd_height]. reflexivity.
  - rewrite orb_true_iff, !isPointInBox_inside.
    unfold rotatePoint. cbv zeta.
    set (r := rotationOr0 (Door b w al ar sd)).
    replace (el_x b + (el_x b + w - el_x b) * cos r
             - (el_y b - el_y b) * sin r)
      with (el_x b + w * cos r) by ring.
    replace (el_y b + (el_x b + w - el_x b) * sin r
             + (el_y b - el_y b) * cos r)
      with (el_y b + w * sin r) by ring.
    reflexivity.
  - unfold overlapsStrictly, getElementBounds.
    cbn [bd_x bd_y bd_width bd_height].
    rewrite !andb_true_iff, !Rgtb_true, !Rltb_true.
    replace (el_x b - r + r * 2) with (el_x b + r) by ring.
    replace (el_y b - r + r * 2) with (el_y b + r) by ring.
    tauto.
Qed.

(** Releasing the pointer at the end of a box selection. *)
Lemma handleMouseUp_box_select (w : World) (project : Project) (box : Box) :
  currentProject (app w) = Some project ->
  isPanning (cv w) = false ->
  isRotating (cv w) = false ->
  isScaling (cv w) = false ->
  isDragging (cv w) = false ->
  potentialSelection (cv w) = false ->
  isSelecting (cv w) = true ->
  selectionBox (cv w) = Some box ->
  handleMouseUp w
  = withApp
      (withCv w (setSelectionBox None (setIsSelecting false (cv w))))
      (setSelectedElementIds
         (map elemId
              (filter (inSelectionBox (viewTransform (cv w)) box)
                      (elements project)))
         (app w)).
Proof.
  intros Hp H1 H2 H3 H4 H5 H6 H7. unfold handleMouseUp.
  rewrite Hp. cbv zeta. rewrite H1, H2, H3, H4, H5, H6, H7. reflexivity.
Qed.

Lemma interval_meets (a b c d : R) :
  a < b -> c <= d ->
  (a < d /\ c < b) <-> (exists t, a < t < b /\ c <= t <= d).
Proof.
  intros Hab Hcd. split.
  - intros [H1 H2]. destruct (Rlt_dec a c) as [Hac|Hac].
    + exists c. lra.
    + destruct (Rle_dec b d) as [Hbd|Hbd].
      * exists ((a + b) / 2). lra.
      * exists ((a + d) / 2). lra.
  - intros [t Ht]. lra.
Qed.

(** For a circle of positive radius and a box of non-negative extent, the
    strict overlap says that the interior of the bounding square meets
    the box. *)
Lemma overlapsStrictly_interior (vt : ViewTransform) (b : BaseElement)
      (radius radiusCm : R) (box : Box) :
  0 < radius -> 0 <= box_width box -> 0 <= box_height box ->
  let bd := getElementBounds vt (Circle b radius radiusCm) in
  overlapsStrictly bd box
  <-> exists p,
        (bd_x bd < pt_x p < bd_x bd + bd_width bd
         /\ bd_y bd < pt_y p < bd_y bd + bd_height bd)
        /\ insideBox p box.
Proof.
  intros Hr Hw Hh. cbv zeta. unfold overlapsStrictly, insideBox.
  cbn [getElementBounds bd_x bd_y bd_width bd_height].
  split.
  - intros [H1 [H2 [H3 H4]]].
    destruct (proj1 (interval_meets (el_x b - radius)
                       (el_x b - radius + radius * 2) (box_x box)
                       (box_x box + box_width box) ltac:(lra) ltac:(lra))
                    (conj H1 H2)) as [tx Htx].
    destruct (proj1 (interval_meets (el_y b - radius)
                       (el_y b - radius + radius * 2) (box_y box)
                       (box_y box + box_height box) ltac:(lra) ltac:(lra))
                    (conj H3 H4)) as [ty Hty].
    exists (mkPoint tx ty). cbn [pt_x pt_y]. tauto.
  - intros [[tx ty] H]. cbn [pt_x pt_y] in H. lra.
Qed.

(** C7 as stated fails for a circle whose bounding square only touches the
    box: the square [-10,10] x [-10,10] and the box [10,15] x [0,5] share
    the point (10,2), yet the circle is not selected. *)
Lemma touching_circle_not_selected :
  let w := sampleWorld [circle10] [] (selectingCanvas touchingBox) in
  let w' := handleMouseUp w in
  ~ (In "c1"%string (selectedElementIds (app w'))
     <-> intersects (getElementBounds unitView circle10) touchingBox).
Proof.
  cbv zeta. intros [_ H].
  assert (Hin : In "c1"%string
                   (selectedElementIds
                      (app (handleMouseUp
                              (sampleWorld [circle10] []
                                 (selectingCanvas touchingBox)))))).
  { apply H. exists (mkPoint 10 2). unfold insideBox. cbn. lra. }
  rewrite (handleMouseUp_box_select _ (sampleProject [circle10]) touchingBox)
    in Hin by reflexivity.
  cbn [app withApp selectedElementIds setSelectedElementIds elements
       sampleProject filter] in Hin.
  assert (Hno : inSelectionBox
                  (viewTransform
                     (cv (sampleWorld [circle10] []
                            (selectingCanvas touchingBox))))
                  touchingBox circle10 = false).
  { unfold inSelectionBox, circle10, touchingBox.
    cbn [plainBase el_x el_y box_x box_y box_width box_height].
    cmp. reflexivity. }
  rewrite Hno in Hin. exact Hin.
Qed.

(** C7, amended.  On box-select release the committed selection holds the
    identifier of an element exactly when the element satisfies the rule
    of its kind: a line has an endpoint inside the box; a rectangle or a
    text has one of the four corners of its bounds, turned by its rotation
    (about the centre for a rectangle, about the anchor for a text), inside
    the box; the bounding square of a circle overlaps the box strictly in
    both directions, so a square that only touches the box does not
    count; a door has its hinge or its rotated latch endpoint inside the
    box.  The gesture ends with the box cleared. *)
Theorem box_select_commits_inclusion_rule
        (w : World) (project : Project) (box : Box) :
  currentProject (app w) = Some project ->
  isPanning (cv w) = false ->
  isRotating (cv w) = false ->
  isScaling (cv w) = false ->
  isDragging (cv w) = false ->
  potentialSelection (cv w) = false ->
  isSelecting (cv w) = true ->
  selectionBox (cv w) = Some box ->
  let w' := handleMouseUp w in
  (forall i,
      In i (selectedElementIds (app w')) <->
      exists e,
        In e (elements project) /\ elemId e = i
        /\ inclusionRule (viewTransform (cv w)) box e)
  /\ isSelecting (cv w') = false
  /\ selectionBox (cv w') = None.
Proof.
  intros Hp H1 H2 H3 H4 H5 H6 H7. cbv zeta.
  rewrite (handleMouseUp_box_select w project box Hp H1 H2 H3 H4 H5 H6 H7).
  split; [|split; reflexivity].
  intros i. cbn [app withApp selectedElementIds setSelectedElementIds].
  rewrite in_map_iff. split.
  - intros [e [He Hin]]. apply filter_In in Hin. destruct Hin as [Hin Hr].
    exists e. split; [exact Hin|]. split; [exact He|].
    apply inSelectionBox_rule. exact Hr.
  - intros [e [Hin [He Hr]]]. exists e. split; [exact He|].
    apply filter_In. split; [exact Hin|].
    apply inSelectionBox_rule. exact Hr.
Qed.

Lemma box_select_commits_inclusion_rule_witness :
  let box := mkBox 0 0 5 5 in
  let w := sampleWorld [circle10] [] (selectingCanvas box) in
  let w' := handleMouseUp w in
  (forall i,
      In i (selectedElementIds (app w')) <->
      exists e,
        In e [circle10] /\ elemId e = i /\ inclusionRule unitView box e)
  /\ isSelecting (cv w') = false
  /\ selectionBox (cv w') = None.
Proof.
  cbv zeta.
  apply (box_select_commits_inclusion_rule
           (sampleWorld [circle10] [] (selectingCanvas (mkBox 0 0 5 5)))
           (sampleProject [circle10]) (mkBox 0 0 5 5)); reflexivity.
Defined.

(** ** Locked elements *)

Lemma findLoop_locked_result (vt : ViewTransform) (x y : R)
      (l : list CanvasElement) (lm : option CanvasElement)
      (found : CanvasElement) :
  findLoop vt x y l lm = Some found ->
  locked found = true ->
  forall e, In e l -> isMatch vt x y e = true -> locked e = true.
Proof.
  revert lm. induction l as [|a l IH]; intros lm Hf Hl e Hin Hm.
  - destruct Hin.
  - cbn [findLoop] in Hf. destruct (isMatch vt x y a) eqn:Ea.
    + destruct (locked a) eqn:La; cbn [negb] in Hf.
      * destruct Hin as [<-|Hin]; [exact La|].
        destruct lm; eapply IH; eauto.
      * injection Hf as <-. congruence.
    + destruct Hin as [<-|Hin]; [congruence|]. eapply IH; eauto.
Qed.

Lemma inSelectionBox_ignores_locked (vt : ViewTransform) (box : Box)
      (e : CanvasElement) (flag : option bool) :
  inSelectionBox vt box (withLocked e flag) = inSelectionBox vt box e.
Proof. destruct e; reflexivity. Qed.

(** C9.  Box selection ignores the locked flag: on box-select release a
    locked element that satisfies the inclusion rule of its kind is in the
    committed selection, and the filter gives the same answer whatever the
    flag is; whereas the hit test returns a locked element only when no
    unlocked element matches the point. *)
Theorem box_select_includes_locked
        (w : World) (project : Project) (box : Box) (e : CanvasElement) :
  currentProject (app w) = Some project ->
  isPanning (cv w) = false ->
  isRotating (cv w) = false ->
  isScaling (cv w) = false ->
  isDragging (cv w) = false ->
  potentialSelection (cv w) = false ->
  isSelecting (cv w) = true ->
  selectionBox (cv w) = Some box ->
  In e (elements project) ->
  locked e = true ->
  inclusionRule (viewTransform (cv w)) box e ->
  In (elemId e) (selectedElementIds (app (handleMouseUp w)))
  /\ (forall flag,
         inSelectionBox (viewTransform (cv w)) box (withLocked e flag)
         = inSelectionBox (viewTransform (cv w)) box e)
  /\ (forall x y found,
         findElementAt (viewTransform (cv w)) (elements project) x y
         = Some found ->
         locked found = true ->
         forall e',
           In e' (elements project) ->
           isMatch (viewTransform (cv w)) x y e' = true ->
           locked e' = true).
Proof.
  intros Hp H1 H2 H3 H4 H5 H6 H7 Hin Hl Hr.
  rewrite (handleMouseUp_box_select w project box Hp H1 H2 H3 H4 H5 H6 H7).
  split; [|split].
  - cbn [app withApp selectedElementIds setSelectedElementIds].
    apply in_map. apply filter_In. split; [exact Hin|].
    apply inSelectionBox_rule. exact Hr.
  - intros flag. apply inSelectionBox_ignores_locked.
  - intros x y found Hf Hlf e' Hin' Hm. unfold findElementAt in Hf.
    apply (findLoop_locked_result _ _ _ _ _ _ Hf Hlf e');
      [apply in_rev in Hin'; exact Hin' | exact Hm].
Qed.

Lemma box_select_includes_locked_witness :
  let box := mkBox 0 0 5 5 in
  let w := sampleWorld [lockedCircle] [] (selectingCanvas box) in
  In (elemId lockedCircle) (selectedElementIds (app (handleMouseUp w)))
  /\ (forall flag,
         inSelectionBox unitView box (withLocked lockedCircle flag)
         = inSelectionBox unitView box lockedCircle)
  /\ (forall x y found,
         findElementAt unitView [lockedCircle] x y = Some found ->
         locked found = true ->
         forall e',
           In e' [lockedCircle] ->
           isMatch unitView x y e' = true ->
           locked e' = true).
Proof.
  cbv zeta.
  apply (box_select_includes_locked
           (sampleWorld [lockedCircle] [] (selectingCanvas (mkBox 0 0 5 5)))
           (sampleProject [lockedCircle]) (mkBox 0 0 5 5) lockedCircle);
    try reflexivity.
  - left. reflexivity.
  - unfold inclusionRule, overlapsStrictly. cbn. lra.
Defined.

(** ** Paste and duplicate *)

Lemma offsetCopy_isOffsetCopy (newId : string) (src : CanvasElement) :
  isOffsetCopy newId src (offsetCopy newId src).
Proof.
  destruct src as [b ? ? ? | b ? ? ? ? | b ? ? ? | b ? ? ? ? | b ? ?];
    destruct b; split; reflexivity.
Qed.

Lemma offsetCopies_length (ids : nat -> string) (n : nat)
      (source : list CanvasElement) :
  List.length (offsetCopies ids n source) = List.length source.
Proof.
  revert n. induction source as [|a l IH]; intros n; cbn; [reflexivity|].
  rewrite IH. reflexivity.
Qed.

Lemma offsetCopies_nth (ids : nat -> string) (n k : nat)
      (source : list CanvasElement) :
  nth_error (offsetCopies ids n source) k
  = option_map (offsetCopy (ids (n + k)%nat)) (nth_error source k).
Proof.
  revert n k. induction source as [|a l IH]; intros n k.
  - destruct k; reflexivity.
  - destruct k as [|k]; cbn.
    + rewrite Nat.add_0_r. reflexivity.
    + rewrite IH. rewrite Nat.add_succ_r. reflexivity.
Qed.

Lemma currentProject_addMultipleElements (a : App) (project : Project)
      (els : list CanvasElement) :
  currentProject a = Some project ->
  truthy (currentProjectId a) = true ->
  currentProject (addMultipleElements a els a)
  = Some (withElements project (elements project ++ els)).
Proof.
  intros Hp Ht. unfold addMultipleElements. rewrite Ht. cbn [negb].
  unfold currentProject, saveHistory in *.
  cbn [projects currentProjectId setProjects setHistoryIndex setHistory].
  rewrite find_map_same.
  - rewrite Hp. cbn [option_map].
    rewrite (find_some_holds _ _ _ Hp). reflexivity.
  - intros p. destruct (isCurrent (currentProjectId a) p) eqn:E.
    + unfold isCurrent, withElements in *. cbn [p_id]. exact E.
    + exact E.
Qed.

Lemma pasteElements_result (source : list CanvasElement) (w : World)
      (project : Project) :
  currentProject (app w) = Some project ->
  truthy (currentProjectId (app w)) = true ->
  let news := offsetCopies (ids w) (nextId w) source in
  let w' := pasteElements source w in
  currentProject (app w')
  = Some (withElements project (elements project ++ news))
  /\ selectedElementIds (app w') = map elemId news
  /\ cv w' = cv w
  /\ nextId w' = (nextId w + List.length source)%nat.
Proof.
  intros Hp Ht. cbv zeta. unfold pasteElements.
  cbn [app cv nextId idsUsed withApp].
  split; [|split; [|split]; reflexivity].
  rewrite <- (currentProject_addMultipleElements _ _ _ Hp Ht).
  unfold currentProject. reflexivity.
Qed.

(** What Ctrl/Cmd+V and Ctrl/Cmd+D do, given the elements they copy. *)
Lemma handleKeyDown_paste_or_duplicate
      (e : KeyboardEvent) (w : World) (project : Project)
      (source : list CanvasElement) :
  currentProject (app w) = Some project ->
  (metaKey e || ctrlKey e) = true ->
  isInputField e = false ->
  (key e = "v"%string /\ source = copiedElements (cv w) /\ source <> [])
  \/ (key e = "d"%string
      /\ source = filter (fun el => includes (selectedElementIds (app w))
                                             (elemId el))
                         (elements project)
      /\ selectedElementIds (app w) <> []) ->
  handleKeyDown e w = pasteElements source w.
Proof.
  intros Hp Hc Hi [[Hk [Hs Hne]]|[Hk [Hs Hne]]];
    unfold handleKeyDown; rewrite Hp; cbv zeta; rewrite Hk, Hc, Hi;
    cbn [String.eqb Ascii.eqb Bool.eqb andb orb negb isArrow].
  - rewrite <- Hs. destruct source; [contradiction|]. reflexivity.
  - rewrite <- Hs. destruct (selectedElementIds (app w)); [contradiction|].
    reflexivity.
Qed.

(** C10.  Paste (Ctrl/Cmd+V over a non-empty copy buffer) and duplicate
    (Ctrl/Cmd+D over a non-empty selection), outside an input field, append
    to the elements of the current project one new element per source
    element, in order: the k-th new element carries the k-th generated
    identifier and is its source moved by (20, 20), a line with its end
    point moved as well, every other field being equal.  The elements
    already in the project are unchanged, the selection becomes the
    identifiers of the new elements and the copy buffer is kept. *)
Theorem paste_and_duplicate_append_offset_copies
        (e : KeyboardEvent) (w : World) (project : Project)
        (source : list CanvasElement) :
  currentProject (app w) = Some project ->
  truthy (currentProjectId (app w)) = true ->
  (metaKey e || ctrlKey e) = true ->
  isInputField e = false ->
  (key e = "v"%string /\ source = copiedElements (cv w) /\ source <> [])
  \/ (key e = "d"%string
      /\ source = filter (fun el => includes (selectedElementIds (app w))
                                             (elemId el))
                         (elements project)
      /\ selectedElementIds (app w) <> []) ->
  let w' := handleKeyDown e w in
  exists news,
    currentProject (app w')
    = Some (withElements project (elements project ++ news))
    /\ List.length news = List.length source
    /\ (forall k src,
           nth_error source k = Some src ->
           exists new,
             nth_error news k = Some new
             /\ isOffsetCopy (ids w (nextId w + k)%nat) src new)
    /\ selectedElementIds (app w') = map elemId news
    /\ copiedElements (cv w') = copiedElements (cv w).
Proof.
  intros Hp Ht Hc Hi Hk. cbv zeta.
  rewrite (handleKeyDown_paste_or_duplicate e w project source Hp Hc Hi Hk).
  destruct (pasteElements_result source w project Hp Ht) as [H1 [H2 [H3 _]]].
  exists (offsetCopies (ids w) (nextId w) source).
  split; [exact H1|]. split; [apply offsetCopies_length|].
  split; [|split; [exact H2 | rewrite H3; reflexivity]].
  intros k src Hsrc. rewrite offsetCopies_nth, Hsrc. cbn [option_map].
  eexists. split; [reflexivity|]. apply offsetCopy_isOffsetCopy.
Qed.

Lemma paste_and_duplicate_append_offset_copies_witness :
  let w := sampleWorld [line345] ["l1"%string] idleCanvas in
  let w' := handleKeyDown (keyWithCtrl "d") w in
  exists news,
    currentProject (app w')
    = Some (withElements (sampleProject [line345]) ([line345] ++ news))
    /\ List.length news = 1%nat
    /\ (forall k src,
           nth_error [line345] k = Some src ->
           exists new,
             nth_error news k = Some new
             /\ isOffsetCopy (sampleIds (0 + k)) src new)
    /\ selectedElementIds (app w') = map elemId news
    /\ copiedElements (cv w') = [].
Proof.
  cbv zeta.
  apply (paste_and_duplicate_append_offset_copies
           (keyWithCtrl "d") (sampleWorld [line345] ["l1"%string] idleCanvas)
           (sampleProject [line345]) [line345]);
    try reflexivity.
  right. split; [reflexivity|]. split; [reflexivity | discriminate].
Defined.

(** ** Dragging *)

Lemma elemId_recompute (ppc : R) (e : CanvasElement) :
  elemId (recompute ppc e) = elemId e.
Proof. destruct e; reflexivity. Qed.

Lemma elemId_spread (e : CanvasElement) (u : Updates) :
  elemId (spread e u) = elemId e.
Proof. destruct e; reflexivity. Qed.

Lemma elemId_updateOne (ppc : R) (i : string) (u : Updates)
      (e : CanvasElement) :
  elemId (updateOne ppc i u e) = elemId e.
Proof.
  unfold updateOne. destruct (negb (String.eqb (elemId e) i)).
  - reflexivity.
  - rewrite elemId_recompute, elemId_spread. reflexivity.
Qed.

Lemma findById_NoDup (els : list CanvasElement) (e : CanvasElement) :
  NoDup (map elemId els) -> In e els -> findById els (elemId e) = Some e.
Proof.
  induction els as [|a l IH]; intros Hnd Hin; [destruct Hin|].
  cbn [map] in Hnd. inversion Hnd as [|? ? Hnotin Hnd']; subst.
  unfold findById in *. cbn [find].
  destruct Hin as [->|Hin].
  - rewrite String.eqb_refl. reflexivity.
  - destruct (String.eqb (elemId a) (elemId e)) eqn:E.
    + apply String.eqb_eq in E. exfalso. apply Hnotin. rewrite E.
      apply in_map, Hin.
    + apply IH; assumption.
Qed.

Lemma withElements_twice (p : Project) (a b : list CanvasElement) :
  withElements (withElements p a) b = withElements p b.
Proof. reflexivity. Qed.

Lemma currentProjectId_updateElement (r a : App) (i : string) (u : Updates)
      (skip : bool) :
  currentProjectId (updateElement r i u skip a) = currentProjectId a.
Proof.
  unfold updateElement. destruct (negb (truthy (currentProjectId r)));
    [reflexivity|]. destruct skip; reflexivity.
Qed.

(** The drag loop acts on the current project element by element. *)
Lemma fold_dragEntry_current (r : App) (c : Canvas) (project : Project)
      (point : Point) (dx dy : R) (positions : list (string * StartPos)) :
  truthy (currentProjectId r) = true ->
  forall (a : App) (pa : Project),
    currentProjectId r = currentProjectId a ->
    currentProject a = Some pa ->
    currentProject (fold_left (dragEntry r c project point dx dy) positions a)
    = Some (withElements pa
              (map (dragElement c project point dx dy (pixelsPerCm pa)
                                positions)
                   (elements pa))).
Proof.
  intros Ht. induction positions as [|entry rest IH]; intros a pa Hc Hp.
  - cbn [fold_left]. unfold dragElement. cbn [fold_left].
    rewrite map_id. rewrite Hp. destruct pa; reflexivity.
  - cbn [fold_left]. unfold dragEntry at 2.
    unfold dragElement. cbn [fold_left].
    destruct (dragUpdate c project point dx dy entry) as [u|] eqn:Eu.
    + rewrite (IH _ (withElements pa
                       (map (updateOne (pixelsPerCm pa) (fst entry) u)
                            (elements pa)))).
      * cbn [elements withElements pixelsPerCm]. rewrite map_map.
        reflexivity.
      * rewrite currentProjectId_updateElement. exact Hc.
      * apply currentProject_updateElement_skip; assumption.
    + rewrite (IH a pa Hc Hp). reflexivity.
Qed.

Lemma dragElement_untouched (c : Canvas) (project : Project) (point : Point)
      (dx dy ppc : R) (positions : list (string * StartPos))
      (e : CanvasElement) :
  (forall entry, In entry positions ->
                 fst entry <> elemId e
                 \/ dragUpdate c project point dx dy entry = None) ->
  dragElement c project point dx dy ppc positions e = e.
Proof.
  unfold dragElement. induction positions as [|entry rest IH]; intros H.
  - reflexivity.
  - cbn [fold_left].
    destruct (H entry (or_introl eq_refl)) as [Hne|Hnone].
    + destruct (dragUpdate c project point dx dy entry).
      * rewrite updateOne_other by congruence.
        apply IH. intros en Hin. apply H. right. exact Hin.
      * apply IH. intros en Hin. apply H. right. exact Hin.
    + rewrite Hnone. apply IH. intros en Hin. apply H. right. exact Hin.
Qed.

Lemma dragElement_target (c : Canvas) (project : Project) (point : Point)
      (dx dy ppc : R) (positions : list (string * StartPos))
      (e : CanvasElement) (sp : StartPos) (u : Updates) :
  NoDup (map fst positions) ->
  In (elemId e, sp) positions ->
  dragUpdate c project point dx dy (elemId e, sp) = Some u ->
  dragElement c project point dx dy ppc positions e
  = recompute ppc (spread e u).
Proof.
  unfold dragElement.
  induction positions as [|entry rest IH]; intros Hnd Hin Hu;
    [destruct Hin|].
  cbn [map] in Hnd. inversion Hnd as [|? ? Hnotin Hnd']; subst.
  cbn [fold_left]. destruct Hin as [->|Hin].
  - rewrite Hu. cbn [fst]. rewrite updateOne_same.
    apply (dragElement_untouched c project point dx dy ppc rest).
    intros en Hen. left. rewrite elemId_recompute, elemId_spread.
    intros Heq. apply Hnotin. cbn [fst]. rewrite <- Heq.
    apply in_map, Hen.
  - assert (Hne : fst entry <> elemId e).
    { intros Heq. apply Hnotin. rewrite Heq.
      change (elemId e) with (fst (elemId e, sp)). apply in_map, Hin. }
    destruct (dragUpdate c project point dx dy entry).
    + rewrite updateOne_other by congruence. apply IH; assumption.
    + apply IH; assumption.
Qed.

(** One pointer move of the drag gesture. *)
Lemma handleMouseMove_dragging (e : MouseEvent) (w : World)
      (project : Project) :
  currentProject (app w) = Some project ->
  isPanning (cv w) = false ->
  isRotating (cv w) = false ->
  isScaling (cv w) = false ->
  isDragging (cv w) = true ->
  selectedElementIds (app w) <> [] ->
  truthy (dragReferenceId (cv w)) = true ->
  let point :=
    screenToCanvas (canvas w) (viewTransform (cv w)) (clientX e) (clientY e) in
  let dx := pt_x point - pt_x (dragStart (cv w)) in
  let dy := pt_y point - pt_y (dragStart (cv w)) in
  handleMouseMove e w
  = withApp w
      (fold_left (dragEntry (app w) (cv w) project point dx dy)
                 (elementStartPositions (cv w)) (app w)).
Proof.
  intros Hp H1 H2 H3 H4 Hsel Href. cbv zeta. unfold handleMouseMove.
  rewrite Hp. cbv zeta. rewrite H1, H2, H3, H4, Href.
  cbn [negb andb].
  destruct (selectedElementIds (app w)); [contradiction|]. reflexivity.
Qed.



Lemma noDup_strings_2 (a b : string) : a <> b -> NoDup [a; b].
Proof.
  intros H. constructor; [intros [E|[]]; congruence|].
  constructor; [intros []|constructor].
Qed.

Lemma noDup_strings_3 (a b c : string) :
  a <> b -> a <> c -> b <> c -> NoDup [a; b; c].
Proof.
  intros H1 H2 H3. constructor.
  - intros [E|[E|[]]]; congruence.
  - apply noDup_strings_2, H3.
Qed.


(** ** Pointer down on an element, then pointer moves *)

Lemma withApp_same (w : World) : withApp w (app w) = w.
Proof. destruct w; reflexivity. Qed.

(** A pointer-down of the select tool that reaches the hit test and hits
    an element. *)
Lemma handleMouseDown_hit (e : MouseEvent) (w : World) (project : Project)
      (clicked : CanvasElement) :
  currentProject (app w) = Some project ->
  button e = 0%Z ->
  altKey e = false ->
  tool (app w) = ToolSelect ->
  let point :=
    screenToCanvas (canvas w) (viewTransform (cv w)) (clientX e) (clientY e) in
  grabHandle project point w = None ->
  findElementAt (viewTransform (cv w)) (elements project)
                (pt_x point) (pt_y point) = Some clicked ->
  handleMouseDown e w
  = withCv (withApp w (clickSelect e (elemId clicked) (app w)))
           (if negb (locked clicked)
            then beginDrag project (selectedElementIds (app w)) point
                           clicked (cv w)
            else cv w).
Proof.
  intros Hp Hb Ha Ht. cbv zeta. intros Hg Hf.
  unfold handleMouseDown. rewrite Hp. cbv zeta.
  rewrite Hb, Ha, Hg, Ht, Hf. reflexivity.
Qed.

(** A pointer move while no gesture is in progress only clears the door
    preview. *)
Lemma handleMouseMove_idle (e : MouseEvent) (w : World) (project : Project) :
  currentProject (app w) = Some project ->
  idle (cv w) ->
  tool (app w) = ToolSelect ->
  handleMouseMove e w = withCv w (setDoorHoverSnap None (cv w)).
Proof.
  intros Hp [H1 [H2 [H3 [H4 [H5 [H6 H7]]]]]] Ht.
  unfold handleMouseMove. rewrite Hp. cbv zeta.
  rewrite H1, H2, H3, H4, H5, H6, H7, Ht. reflexivity.
Qed.

Lemma pointerMoves_idle (moves : list MouseEvent) (project : Project) :
  forall w,
    currentProject (app w) = Some project ->
    idle (cv w) ->
    tool (app w) = ToolSelect ->
    app (pointerMoves moves w) = app w.
Proof.
  unfold pointerMoves.
  induction moves as [|e rest IH]; intros w Hp Hi Ht; [reflexivity|].
  cbn [fold_left]. rewrite (handleMouseMove_idle e w project Hp Hi Ht).
  rewrite IH; [reflexivity | exact Hp | exact Hi | exact Ht].
Qed.

Lemma clickSelect_keeps_projects (e : MouseEvent) (i : string) (a : App) :
  projects (clickSelect e i a) = projects a
  /\ currentProjectId (clickSelect e i a) = currentProjectId a
  /\ tool (clickSelect e i a) = tool a.
Proof.
  unfold clickSelect.
  destruct (shiftKey e), (includes (selectedElementIds a) i);
    repeat split; reflexivity.
Qed.

(** The locked half of C4: after a pointer-down that hits a locked
    element, no run of pointer moves changes any element of the project,
    so the x and y of the locked element stay. *)
Lemma locked_hit_then_moves_change_nothing
      (down : MouseEvent) (moves : list MouseEvent) (w : World)
      (project : Project) (clicked : CanvasElement) :
  currentProject (app w) = Some project ->
  idle (cv w) ->
  button down = 0%Z ->
  altKey down = false ->
  tool (app w) = ToolSelect ->
  let point :=
    screenToCanvas (canvas w) (viewTransform (cv w)) (clientX down)
                   (clientY down) in
  grabHandle project point w = None ->
  findElementAt (viewTransform (cv w)) (elements project)
                (pt_x point) (pt_y point) = Some clicked ->
  locked clicked = true ->
  let w' := pointerMoves moves (handleMouseDown down w) in
  projects (app w') = projects (app w)
  /\ currentProject (app w') = Some project.
Proof.
  intros Hp Hi Hb Ha Ht. cbv zeta. intros Hg Hf Hl.
  rewrite (handleMouseDown_hit down w project clicked Hp Hb Ha Ht Hg Hf).
  rewrite Hl. cbn [negb].
  destruct (clickSelect_keeps_projects down (elemId clicked) (app w))
    as [K1 [K2 K3]].
  assert (Hp' : currentProject (clickSelect down (elemId clicked) (app w))
                = Some project).
  { unfold currentProject in *. rewrite K1, K2. exact Hp. }
  rewrite (pointerMoves_idle moves project).
  - cbn [app withCv withApp]. split; [exact K1 | exact Hp'].
  - exact Hp'.
  - exact Hi.
  - cbn [app withCv withApp]. rewrite K3. exact Ht.
Qed.

(** A pointer move of a drag whose snapshot is empty changes nothing. *)
Lemma handleMouseMove_empty_snapshot (e : MouseEvent) (w : World)
      (project : Project) :
  currentProject (app w) = Some project ->
  isPanning (cv w) = false ->
  isRotating (cv w) = false ->
  isScaling (cv w) = false ->
  isDragging (cv w) = true ->
  selectedElementIds (app w) <> [] ->
  truthy (dragReferenceId (cv w)) = true ->
  elementStartPositions (cv w) = [] ->
  handleMouseMove e w = w.
Proof.
  intros Hp H1 H2 H3 H4 Hsel Href Hempty.
  rewrite (handleMouseMove_dragging e w project Hp H1 H2 H3 H4 Hsel Href).
  rewrite Hempty. cbn [fold_left]. apply withApp_same.
Qed.

Lemma isMatch_rect100_centre :
  isMatch unitView ((50 - 0 - 0) / 1) ((25 - 0 - 0) / 1) rect100 = true.
Proof.
  unfold isMatch, rect100. cbv zeta.
  cbn [rotationOr0 base plainBase el_rotation el_x el_y].
  rewrite cos_neg, sin_neg, cos_0, sin_0. cmp. reflexivity.
Qed.

(** C4 at the failing input: the pointer goes down on an unlocked
    rectangle that is not selected yet.  The rectangle becomes the
    selection and the drag starts with it as reference element, but the
    snapshot is taken over the selection of the render the handler belongs
    to, which is empty; whatever pointer moves follow, the rectangle stays
    at (0,0). *)
Theorem drag_of_unselected_rectangle_leaves_it (moves : list MouseEvent) :
  let w := sampleWorld [rect100] [] idleCanvas in
  let w1 := handleMouseDown (pointerAt 50 25) w in
  let w2 := pointerMoves moves w1 in
  findElementAt unitView [rect100] ((50 - 0 - 0) / 1) ((25 - 0 - 0) / 1)
  = Some rect100
  /\ locked rect100 = false
  /\ selectedElementIds (app w1) = ["r1"%string]
  /\ isDragging (cv w1) = true
  /\ dragReferenceId (cv w1) = Some "r1"%string
  /\ elementStartPositions (cv w1) = []
  /\ currentProject (app w2) = Some (sampleProject [rect100]).
Proof.
  cbv zeta.
  assert (Hf : findElementAt unitView [rect100] ((50 - 0 - 0) / 1)
                             ((25 - 0 - 0) / 1) = Some rect100).
  { unfold findElementAt. change (rev [rect100]) with [rect100].
    cbn [findLoop]. rewrite isMatch_rect100_centre. reflexivity. }
  split; [exact Hf|]. split; [reflexivity|].
  rewrite (handleMouseDown_hit (pointerAt 50 25)
             (sampleWorld [rect100] [] idleCanvas)
             (sampleProject [rect100]) rect100
             eq_refl eq_refl eq_refl eq_refl eq_refl Hf).
  split; [reflexivity|]. split; [reflexivity|]. split; [reflexivity|].
  split; [reflexivity|].
  match goal with
  | |- currentProject (app (pointerMoves moves ?w1)) = _ =>
      assert (Hstay : pointerMoves moves w1 = w1)
  end.
  { unfold pointerMoves. induction moves as [|e rest IH]; [reflexivity|].
    cbn [fold_left].
    rewrite (handleMouseMove_empty_snapshot e _ (sampleProject [rect100]));
      [exact IH | reflexivity | reflexivity | reflexivity | reflexivity
       | reflexivity | discriminate | reflexivity | reflexivity].
  }
  rewrite Hstay. reflexivity.
Qed.

(** ** The snapshot of start positions *)

Lemma mapSet_In_inv (k : string) (v : StartPos) (m : list (string * StartPos))
      (entry : string * StartPos) :
  In entry (mapSet k v m) -> entry = (k, v) \/ In entry m.
Proof.
  induction m as [|[k1 v1] rest IH]; cbn [mapSet]; intros H.
  - destruct H as [<-|[]]. left. reflexivity.
  - destruct (String.eqb k1 k).
    + destruct H as [<-|H]; [left; reflexivity | right; right; exact H].
    + destruct H as [<-|H]; [right; left; reflexivity|].
      destruct (IH H) as [E|E]; [left; exact E | right; right; exact E].
Qed.

Lemma mapSet_keys (k : string) (v : StartPos) (m : list (string * StartPos))
      (k' : string) :
  In k' (map fst (mapSet k v m)) <-> k' = k \/ In k' (map fst m).
Proof.
  induction m as [|[k1 v1] rest IH]; cbn [mapSet map fst In].
  - intuition.
  - destruct (String.eqb k1 k) eqn:E; cbn [map fst In].
    + apply String.eqb_eq in E. subst k1. intuition.
    + rewrite IH. intuition.
Qed.

Lemma mapSet_NoDup (k : string) (v : StartPos)
      (m : list (string * StartPos)) :
  NoDup (map fst m) -> NoDup (map fst (mapSet k v m)).
Proof.
  induction m as [|[k1 v1] rest IH]; cbn [mapSet map fst]; intros H.
  - constructor; [intros []|constructor].
  - inversion H as [|? ? Hnotin Hrest]; subst.
    destruct (String.eqb k1 k) eqn:E; cbn [map fst].
    + apply String.eqb_eq in E. subst k1. constructor; assumption.
    + apply String.eqb_neq in E. constructor.
      * rewrite mapSet_keys. intros [Hk|Hk]; [congruence | contradiction].
      * apply IH, Hrest.
Qed.

Lemma capture_NoDup (els : list CanvasElement) (sel : list string) :
  forall acc,
    NoDup (map fst acc) ->
    NoDup (map fst (fold_left (captureStep els) sel acc)).
Proof.
  induction sel as [|i rest IH]; intros acc H; [exact H|].
  cbn [fold_left]. apply IH. unfold captureStep.
  destruct (findById els i) as [el|]; [|exact H].
  destruct (negb (locked el)); [apply mapSet_NoDup, H | exact H].
Qed.

Lemma capture_keys (els : list CanvasElement) (sel : list string)
      (i : string) (el : CanvasElement) :
  findById els i = Some el ->
  locked el = false ->
  forall acc,
    In i sel \/ In i (map fst acc) ->
    In i (map fst (fold_left (captureStep els) sel acc)).
Proof.
  intros Hf Hl. induction sel as [|j rest IH]; intros acc H.
  - destruct H as [[]|H]. exact H.
  - cbn [fold_left]. apply IH.
    destruct H as [[->|H]|H].
    + right. unfold captureStep. rewrite Hf, Hl. cbn [negb].
      apply mapSet_keys. left. reflexivity.
    + left. exact H.
    + right. unfold captureStep.
      destruct (findById els j) as [ej|]; [|exact H].
      destruct (negb (locked ej)); [|exact H].
      apply mapSet_keys. right. exact H.
Qed.

Lemma capture_values (els : list CanvasElement) (sel : list string) :
  forall acc,
    (forall k v, In (k, v) acc ->
                 exists el, findById els k = Some el /\ v = startPosOf el) ->
    forall k v,
      In (k, v) (fold_left (captureStep els) sel acc) ->
      exists el, findById els k = Some el /\ v = startPosOf el.
Proof.
  induction sel as [|j rest IH]; intros acc Hacc k v H.
  - apply Hacc, H.
  - cbn [fold_left] in H. refine (IH _ _ k v H).
    intros k' v' H'. unfold captureStep in H'.
    destruct (findById els j) as [ej|] eqn:Ej; [|apply Hacc, H'].
    destruct (negb (locked ej)); [|apply Hacc, H'].
    apply mapSet_In_inv in H'. destruct H' as [E|H']; [|apply Hacc, H'].
    injection E as -> ->. exists ej. split; [exact Ej | reflexivity].
Qed.

(** A selected unlocked element is in the snapshot with its position. *)
Lemma capturePositions_selected (els : list CanvasElement)
      (sel : list string) (el : CanvasElement) :
  findById els (elemId el) = Some el ->
  locked el = false ->
  In (elemId el) sel ->
  NoDup (map fst (capturePositions els sel))
  /\ In (elemId el, startPosOf el) (capturePositions els sel).
Proof.
  intros Hf Hl Hin. unfold capturePositions. split.
  - apply capture_NoDup. constructor.
  - assert (Hk : In (elemId el)
                    (map fst (fold_left (captureStep els) sel [])))
      by (apply (capture_keys els sel _ el Hf Hl); left; exact Hin).
    apply in_map_iff in Hk. destruct Hk as [[k v] [Hk Hkv]].
    cbn [fst] in Hk. subst k.
    destruct (capture_values els sel [] (fun _ _ H => match H with end)
                             _ _ Hkv) as [el' [Hf' ->]].
    rewrite Hf in Hf'. injection Hf' as <-. exact Hkv.
Qed.

Lemma includes_In (l : list string) (i : string) :
  includes l i = true <-> In i l.
Proof.
  unfold includes. rewrite existsb_exists. split.
  - intros [j [Hj E]]. apply String.eqb_eq in E. subst. exact Hj.
  - intros H. exists i. split; [exact H | apply String.eqb_refl].
Qed.

(** The unlocked half of C4, for a rectangle that is already selected:
    the pointer-down starts the drag with the rectangle in the snapshot and
    the next pointer move takes it to its position plus the world-space
    pointer delta. *)
Lemma selected_rectangle_follows_pointer
      (down move : MouseEvent) (w : World) (project : Project) (k : nat)
      (b : BaseElement) (width height wc hc : R) :
  currentProject (app w) = Some project ->
  truthy (currentProjectId (app w)) = true ->
  idle (cv w) ->
  button down = 0%Z ->
  altKey down = false ->
  shiftKey down = false ->
  tool (app w) = ToolSelect ->
  let p0 :=
    screenToCanvas (canvas w) (viewTransform (cv w)) (clientX down)
                   (clientY down) in
  let p1 :=
    screenToCanvas (canvas w) (viewTransform (cv w)) (clientX move)
                   (clientY move) in
  grabHandle project p0 w = None ->
  findElementAt (viewTransform (cv w)) (elements project)
                (pt_x p0) (pt_y p0) = Some (Rectangle b width height wc hc) ->
  locked (Rectangle b width height wc hc) = false ->
  In (el_id b) (selectedElementIds (app w)) ->
  el_id b <> EmptyString ->
  NoDup (map elemId (elements project)) ->
  nth_error (elements project) k = Some (Rectangle b width height wc hc) ->
  exists project',
    currentProject (app (handleMouseMove move (handleMouseDown down w)))
    = Some project'
    /\ nth_error (elements project') k
       = Some (Rectangle
                 (moveBase b (el_x b + (pt_x p1 - pt_x p0))
                           (el_y b + (pt_y p1 - pt_y p0)))
                 width height (width / pixelsPerCm project)
                 (height / pixelsPerCm project)).
Proof.
  intros Hp Ht [I1 [I2 [I3 [I4 [I5 [I6 I7]]]]]] Hb Ha Hs Htool. cbv zeta.
  intros Hg Hf Hl Hsel Hid Hnd Hk.
  set (rect := Rectangle b width height wc hc) in *.
  rewrite (handleMouseDown_hit down w project rect Hp Hb Ha Htool Hg Hf).
  rewrite Hl. cbn [negb].
  assert (Hcs : clickSelect down (elemId rect) (app w) = app w).
  { change (elemId rect) with (el_id b). unfold clickSelect. rewrite Hs.
    rewrite (proj2 (includes_In _ _) Hsel). reflexivity. }
  rewrite Hcs.
  set (p0 := screenToCanvas (canvas w) (viewTransform (cv w)) (clientX down)
                            (clientY down)) in *.
  set (w1 := withCv (withApp w (app w))
                    (beginDrag project (selectedElementIds (app w)) p0 rect
                               (cv w))).
  assert (Hfind : findById (elements project) (elemId rect) = Some rect).
  { apply findById_NoDup; [exact Hnd | eapply nth_error_In; exact Hk]. }
  destruct (capturePositions_selected (elements project)
              (selectedElementIds (app w)) rect Hfind Hl Hsel)
    as [Hkeys Hentry].
  assert (Hmove : handleMouseMove move w1
                  = withApp w1
                      (fold_left
                         (dragEntry (app w1) (cv w1) project
                            (screenToCanvas (canvas w1) (viewTransform (cv w1))
                                            (clientX move) (clientY move))
                            (pt_x (screenToCanvas (canvas w1)
                                     (viewTransform (cv w1)) (clientX move)
                                     (clientY move))
                             - pt_x (dragStart (cv w1)))
                            (pt_y (screenToCanvas (canvas w1)
                                     (viewTransform (cv w1)) (clientX move)
                                     (clientY move))
                             - pt_y (dragStart (cv w1))))
                         (elementStartPositions (cv w1)) (app w1))).
  { apply handleMouseMove_dragging.
    - exact Hp.
    - exact I1.
    - exact I2.
    - exact I3.
    - reflexivity.
    - cbn [app w1 withCv withApp]. intros E. rewrite E in Hsel. exact Hsel.
    - cbn. apply negb_true_iff. apply String.eqb_neq. exact Hid. }
  rewrite Hmove. cbn [app withApp].
  rewrite (fold_dragEntry_current _ _ _ _ _ _ _ Ht (app w) project eq_refl Hp).
  eexists. split; [reflexivity|].
  cbn [elements withElements]. rewrite nth_error_map, Hk. cbn [option_map].
  f_equal.
  rewrite (dragElement_target _ _ _ _ _ _ _ rect (startPosOf rect)
             (updXY (el_x b + (pt_x (screenToCanvas (canvas w)
                                       (viewTransform (cv w)) (clientX move)
                                       (clientY move)) - pt_x p0))
                    (el_y b + (pt_y (screenToCanvas (canvas w)
                                       (viewTransform (cv w)) (clientX move)
                                       (clientY move)) - pt_y p0)))).
  - reflexivity.
  - exact Hkeys.
  - exact Hentry.
  - unfold dragUpdate. rewrite Hfind, Hl. reflexivity.
Qed.

Lemma Rltb_Rabs (t c : R) : Rltb (Rabs t) c = Rltb (- c) t && Rltb t c.
Proof.
  by_cases_on (Rltb (Rabs t) c).
  - apply Rabs_def2 in E. symmetry. apply andb_true_iff.
    split; apply Rltb_true; lra.
  - symmetry. apply andb_false_iff.
    destruct (Rlt_dec (- c) t) as [H1|H1]; [|left; apply Rltb_false; lra].
    destruct (Rlt_dec t c) as [H2|H2]; [|right; apply Rltb_false; lra].
    exfalso. assert (Rabs t < c) by (apply Rabs_def1; lra). lra.
Qed.

(** No handle of the selected [rect100] is under its centre. *)
Lemma grabHandle_rect100_centre :
  grabHandle (sampleProject [rect100])
             (mkPoint ((50 - 0 - 0) / 1) ((25 - 0 - 0) / 1))
             (sampleWorld [rect100] ["r1"%string] idleCanvas)
  = None.
Proof.
  unfold grabHandle.
  cbn [app cv sampleWorld sampleApp tool selectedElementIds soleSelected
       elements sampleProject viewTransform idleCanvas].
  change (findById [rect100] "r1") with (Some rect100).
  change (negb (locked rect100)) with true. cbv iota.
  assert (Hr : getRotationHandle unitView
                 (mkPoint ((50 - 0 - 0) / 1) ((25 - 0 - 0) / 1)) rect100
               = false).
  { unfold getRotationHandle, checkHandleHit, rect100. cbv zeta.
    cbn [getElementBounds rotationOr0 base plainBase el_rotation el_x el_y
         bd_x bd_y bd_width bd_height centerX centerY pt_x pt_y scale
         unitView].
    rewrite cos_0, sin_0, !Rltb_Rabs. cmp. reflexivity. }
  rewrite Hr.
  assert (Hs : getScaleHandle unitView
                 (mkPoint ((50 - 0 - 0) / 1) ((25 - 0 - 0) / 1)) rect100
               = None).
  { unfold getScaleHandle, checkHandleHit, rotatePoint, rect100. cbv zeta.
    cbn [isLine isDoor orb getElementBounds rotationOr0 base plainBase
         el_rotation el_x el_y bd_x bd_y bd_width bd_height centerX centerY
         pt_x pt_y scale unitView find].
    rewrite cos_0, sin_0, !Rltb_Rabs. cmp. reflexivity. }
  rewrite Hs. reflexivity.
Qed.

(** The same gesture as at the failing input of C4, on the rectangle
    already selected: from (50,25) to (60,35) it moves by (10,10). *)
Example drag_of_selected_rectangle_moves_it :
  let w := sampleWorld [rect100] ["r1"%string] idleCanvas in
  let w2 := handleMouseMove (pointerAt 60 35)
                            (handleMouseDown (pointerAt 50 25) w) in
  exists project' b,
    currentProject (app w2) = Some project'
    /\ nth_error (elements project') 0
       = Some (Rectangle b 100 50 (100 / 10) (50 / 10))
    /\ el_x b = 10 /\ el_y b = 10.
Proof.
  cbv zeta.
  assert (Hf : findElementAt unitView [rect100] ((50 - 0 - 0) / 1)
                             ((25 - 0 - 0) / 1) = Some rect100).
  { unfold findElementAt. change (rev [rect100]) with [rect100].
    cbn [findLoop]. rewrite isMatch_rect100_centre. reflexivity. }
  destruct (selected_rectangle_follows_pointer
              (pointerAt 50 25) (pointerAt 60 35)
              (sampleWorld [rect100] ["r1"%string] idleCanvas)
              (sampleProject [rect100]) 0 (plainBase "r1" 0 0) 100 50 10 5)
    as [p' [Hp Hn]];
    try reflexivity.
  - repeat split.
  - exact grabHandle_rect100_centre.
  - exact Hf.
  - left. reflexivity.
  - discriminate.
  - constructor; [intros []|constructor].
  - eexists. eexists. split; [exact Hp|]. split; [exact Hn|].
    cbn. split; lra.
Qed.

(** * Further properties of the engine *)

(** ** Screen and world coordinates *)

(** X1.  World to screen and back: the screen position computed for the
    inline text editor of an element is mapped by [screenToCanvas] to the
    world point the editor belongs to, for every view transform with a
    non-zero scale. *)
Theorem editor_position_round_trip
        (rect : DOMRect) (vt : ViewTransform) (element : CanvasElement) :
  scale vt <> 0 ->
  let p := editorScreenPosition rect vt element in
  screenToCanvas (Some rect) vt (pt_x p) (pt_y p) = editorAnchor vt element.
Proof.
  intros Hs. cbv zeta. unfold screenToCanvas.
  destruct element; cbn [editorScreenPosition editorAnchor pt_x pt_y];
    f_equal; field; exact Hs.
Qed.

Lemma editor_position_round_trip_witness :
  let vt := mkView 2 30 40 in
  let p := editorScreenPosition (mkDOMRect 5 7) vt rect100 in
  screenToCanvas (Some (mkDOMRect 5 7)) vt (pt_x p) (pt_y p)
  = editorAnchor vt rect100.
Proof.
  cbv zeta.
  apply (editor_position_round_trip (mkDOMRect 5 7) (mkView 2 30 40) rect100).
  cbn. lra.
Defined.

(** X2.  Panning keeps the grabbed point under the pointer: after a
    pointer move of a pan the world point under the pointer is the world
    point that was under the previous pointer position; the scale and the
    application state are untouched and the pan continues from the new
    pointer position. *)
Theorem pan_keeps_grabbed_point (e : MouseEvent) (w : World)
        (project : Project) :
  currentProject (app w) = Some project ->
  isPanning (cv w) = true ->
  let w' := handleMouseMove e w in
  screenToCanvas (canvas w') (viewTransform (cv w')) (clientX e) (clientY e)
  = screenToCanvas (canvas w) (viewTransform (cv w))
                   (pt_x (panStart (cv w))) (pt_y (panStart (cv w)))
  /\ scale (viewTransform (cv w')) = scale (viewTransform (cv w))
  /\ panStart (cv w') = mkPoint (clientX e) (clientY e)
  /\ isPanning (cv w') = true
  /\ app w' = app w.
Proof.
  intros Hp Hpan. cbv zeta. unfold handleMouseMove.
  rewrite Hp. cbv zeta. rewrite Hpan. cbn [negb andb].
  cbn [cv canvas app withCv viewTransform setPanStart setViewTransform
       panStart scale isPanning].
  split; [|repeat split; exact Hpan].
  unfold screenToCanvas. destruct (canvas w) as [rect|]; [|reflexivity].
  cbn [offsetX offsetY scale]. f_equal; f_equal; ring.
Qed.

Lemma pan_keeps_grabbed_point_witness :
  let w := sampleWorld [rect100] [] (panningCanvas (mkView 2 30 40) 100 100) in
  let e := pointerAt 130 90 in
  let w' := handleMouseMove e w in
  screenToCanvas (canvas w') (viewTransform (cv w')) (clientX e) (clientY e)
  = screenToCanvas (canvas w) (viewTransform (cv w)) 100 100
  /\ scale (viewTransform (cv w')) = 2
  /\ panStart (cv w') = mkPoint 130 90
  /\ isPanning (cv w') = true
  /\ app w' = app w.
Proof.
  cbv zeta.
  apply (pan_keeps_grabbed_point (pointerAt 130 90)
           (sampleWorld [rect100] [] (panningCanvas (mkView 2 30 40) 100 100))
           (sampleProject [rect100])); reflexivity.
Defined.

(** ** The closest point of a segment *)

(** The point found by the clamped projection lies on the segment. *)
Lemma closest_on_segment (px py x1 y1 x2 y2 : R) :
  exists t,
    0 <= t <= 1
    /\ closest px py x1 y1 x2 y2
       = mkPoint (x1 + t * (x2 - x1)) (y1 + t * (y2 - y1)).
Proof.
  unfold closest. cbv zeta.
  set (param := if negb (Reqb _ 0) then _ else _).
  by_cases_on (Rltb param 0).
  - exists 0. split; [lra|]. f_equal; ring.
  - by_cases_on (Rgtb param 1).
    + exists 1. split; [lra|]. f_equal; ring.
    + exists param. split; [lra | reflexivity].
Qed.

(** X3.  [pointToLineDistance] is the distance to the segment: the point
    it measures to lies on the segment, and no point of the segment is
    nearer to the query point. *)
Theorem pointToLineDistance_is_least (px py x1 y1 x2 y2 s : R) :
  0 <= s <= 1 ->
  (exists t,
      0 <= t <= 1
      /\ getClosestPointOnLine px py x1 y1 x2 y2
         = mkPoint (x1 + t * (x2 - x1)) (y1 + t * (y2 - y1)))
  /\ 0 <= pointToLineDistance px py x1 y1 x2 y2
  /\ pointToLineDistance px py x1 y1 x2 y2
     <= sqrt ((px - (x1 + s * (x2 - x1))) * (px - (x1 + s * (x2 - x1)))
              + (py - (y1 + s * (y2 - y1))) * (py - (y1 + s * (y2 - y1)))).
Proof.
  intros Hs. split; [apply closest_on_segment|].
  split; [apply sqrt_pos|].
  unfold pointToLineDistance. apply sqrt_le_1_alt.
  unfold closest. cbv zeta.
  set (A := px - x1). set (B := py - y1).
  set (C := x2 - x1). set (D := y2 - y1).
  replace (px - (x1 + s * C)) with (A - s * C) by (unfold A; ring).
  replace (py - (y1 + s * D)) with (B - s * D) by (unfold B; ring).
  by_cases_on (Reqb (C * C + D * D) 0); cbn [negb].
  - destruct (sum_squares_zero C D E) as [HC HD].
    cmp. cbn [pt_x pt_y]. fold A B. rewrite HC, HD. nra.
  - assert (HL : 0 < C * C + D * D) by nra.
    set (L := C * C + D * D) in *.
    set (dot := A * C + B * D).
    assert (Hdot : dot = dot / L * L) by (field; lra).
    set (t0 := dot / L) in *.
    assert (Hkey : forall t,
               (A - s * C) * (A - s * C) + (B - s * D) * (B - s * D)
               - ((A - t * C) * (A - t * C) + (B - t * D) * (B - t * D))
               = L * (s - t) * (s + t - 2 * t0)).
    { intros t. unfold L.
      replace ((A - s * C) * (A - s * C) + (B - s * D) * (B - s * D)
               - ((A - t * C) * (A - t * C) + (B - t * D) * (B - t * D)))
        with ((s - t) * ((s + t) * (C * C + D * D) - 2 * dot))
        by (unfold dot; ring).
      rewrite Hdot. unfold L. ring. }
    by_cases_on (Rltb t0 0); [|by_cases_on (Rgtb t0 1)]; cbn [pt_x pt_y].
    + specialize (Hkey 0).
      replace (px - x1) with (A - 0 * C) by (unfold A; ring).
      replace (py - y1) with (B - 0 * D) by (unfold B; ring).
      assert (0 <= L * (s - 0) * (s + 0 - 2 * t0)).
      { apply Rmult_le_pos; [apply Rmult_le_pos|]; lra. }
      lra.
    + specialize (Hkey 1).
      replace (px - x2) with (A - 1 * C) by (unfold A, C; ring).
      replace (py - y2) with (B - 1 * D) by (unfold B, D; ring).
      assert (0 <= L * ((1 - s) * (2 * t0 - s - 1))).
      { apply Rmult_le_pos; [|apply Rmult_le_pos]; lra. }
      lra.
    + specialize (Hkey t0).
      replace (px - (x1 + t0 * C)) with (A - t0 * C) by (unfold A; ring).
      replace (py - (y1 + t0 * D)) with (B - t0 * D) by (unfold B; ring).
      assert (0 <= L * ((s - t0) * (s - t0))).
      { apply Rmult_le_pos; [lra | apply Rle_0_sqr]. }
      lra.
Qed.

Lemma pointToLineDistance_is_least_witness :
  (exists t,
      0 <= t <= 1
      /\ getClosestPointOnLine 150 0 0 0 100 0
         = mkPoint (0 + t * (100 - 0)) (0 + t * (0 - 0)))
  /\ 0 <= pointToLineDistance 150 0 0 0 100 0
  /\ pointToLineDistance 150 0 0 0 100 0
     <= sqrt ((150 - (0 + (1 / 2) * (100 - 0)))
              * (150 - (0 + (1 / 2) * (100 - 0)))
              + (0 - (0 + (1 / 2) * (0 - 0)))
                * (0 - (0 + (1 / 2) * (0 - 0)))).
Proof.
  apply (pointToLineDistance_is_least 150 0 0 0 100 0 (1 / 2)). lra.
Defined.

(** ** Hit testing *)

Lemma cos_sin_unit (r : R) : cos r * cos r + sin r * sin r = 1.
Proof. pose proof (sin2_cos2 r) as H. unfold Rsqr in H. lra. Qed.

Lemma isMatch_rectangle_iff
        (vt : ViewTransform) (b : BaseElement) (width height wc hc : R)
        (x y : R) :
  let rect := Rectangle b width height wc hc in
  let bounds := getElementBounds vt rect in
  isMatch vt x y rect = true
  <-> exists ux uy,
        el_x b <= ux <= el_x b + width
        /\ el_y b <= uy <= el_y b + height
        /\ rotatePoint ux uy (centerX bounds) (centerY bounds)
                       (rotationOr0 rect)
           = mkPoint x y.
Proof.
  cbv zeta. unfold isMatch, rotatePoint. cbv zeta.
  cbn [getElementBounds centerX centerY].
  rewrite cos_neg, sin_neg.
  set (r := rotationOr0 (Rectangle b width height wc hc)).
  pose proof (cos_sin_unit r) as Hcs.
  set (c := cos r) in *. set (s := sin r) in *.
  set (cx := el_x b + width / 2). set (cy := el_y b + height / 2).
  rewrite !andb_true_iff, !Rgeb_true, !Rleb_true.
  split.
  - intros [[[H1 H2] H3] H4].
    set (lx := (x - cx) * c - (y - cy) * - s) in *.
    set (ly := (x - cx) * - s + (y - cy) * c) in *.
    exists (cx + lx), (cy + ly).
    split; [unfold cx; lra|]. split; [unfold cy; lra|].
    unfold lx, ly. f_equal.
    + transitivity (cx + (x - cx) * (c * c + s * s)); [ring|].
      rewrite Hcs. ring.
    + transitivity (cy + (y - cy) * (c * c + s * s)); [ring|].
      rewrite Hcs. ring.
  - intros [ux [uy [Hx [Hy Heq]]]].
    injection Heq as Ex Ey.
    assert (Lx : (x - cx) * c - (y - cy) * - s = ux - cx).
    { rewrite <- Ex, <- Ey.
      transitivity ((ux - cx) * (c * c + s * s)); [ring|].
      rewrite Hcs. ring. }
    assert (Ly : (x - cx) * - s + (y - cy) * c = uy - cy).
    { rewrite <- Ex, <- Ey.
      transitivity ((uy - cy) * (c * c + s * s)); [ring|].
      rewrite Hcs. ring. }
    rewrite Lx, Ly. unfold cx, cy. lra.
Qed.

(** X5.  The hit region of a rectangle is the rectangle turned by its
    rotation about its centre: a point hits exactly when it is the image,
    under [rotatePoint] about the centre, of a point of the unrotated
    rectangle.  The test therefore agrees with the rotated corners used
    by box selection and with the handle positions, whatever the
    rotation. *)
Theorem rectangle_hit_is_rotated_rectangle
        (vt : ViewTransform) (b : BaseElement) (width height wc hc : R)
        (x y : R) :
  let rect := Rectangle b width height wc hc in
  let bounds := getElementBounds vt rect in
  isMatch vt x y rect = true
  <-> exists ux uy,
        el_x b <= ux <= el_x b + width
        /\ el_y b <= uy <= el_y b + height
        /\ rotatePoint ux uy (centerX bounds) (centerY bounds)
                       (rotationOr0 rect)
           = mkPoint x y.
Proof. apply isMatch_rectangle_iff. Qed.

(** The rotated corners computed on box-select release hit the
    rectangle they belong to. *)
Lemma rectangle_rotated_corners_hit
      (vt : ViewTransform) (b : BaseElement) (width height wc hc : R)
      (corner : Point) :
  0 <= width -> 0 <= height ->
  let rect := Rectangle b width height wc hc in
  In corner
     (getRotatedCorners (el_x b) (el_y b) width height (rotationOr0 rect)
                        (el_x b + width / 2) (el_y b + height / 2)) ->
  isMatch vt (pt_x corner) (pt_y corner) rect = true.
Proof.
  intros Hw Hh. cbv zeta. intros Hin.
  apply isMatch_rectangle_iff.
  unfold getRotatedCorners in Hin. apply in_map_iff in Hin.
  destruct Hin as [u [Hu Hin]].
  exists (pt_x u), (pt_y u).
  assert (Hb : el_x b <= pt_x u <= el_x b + width
               /\ el_y b <= pt_y u <= el_y b + height).
  { destruct Hin as [<-|[<-|[<-|[<-|[]]]]]; cbn [pt_x pt_y]; lra. }
  destruct Hb as [Hx Hy]. split; [exact Hx|]. split; [exact Hy|].
  rewrite <- Hu. destruct corner. reflexivity.
Qed.

Lemma findLoop_cases (vt : ViewTransform) (x y : R)
      (l : list CanvasElement) :
  forall lm,
    match findLoop vt x y l lm with
    | None => lm = None /\ forall e, In e l -> isMatch vt x y e = false
    | Some e =>
        (locked e = false /\ isMatch vt x y e = true
         /\ exists l1 l2,
             l = l1 ++ e :: l2
             /\ forall e', In e' l1 -> isMatch vt x y e' = true ->
                           locked e' = true)
        \/ (lm = Some e
            /\ forall e', In e' l -> isMatch vt x y e' = true ->
                          locked e' = true)
        \/ (lm = None /\ locked e = true /\ isMatch vt x y e = true
            /\ exists l1 l2,
                l = l1 ++ e :: l2
                /\ (forall e', In e' l1 -> isMatch vt x y e' = false)
                /\ forall e', In e' l2 -> isMatch vt x y e' = true ->
                              locked e' = true)
    end.
Proof.
  induction l as [|a rest IH]; intros lm.
  - cbn [findLoop]. destruct lm as [m|].
    + right. left. split; [reflexivity|]. intros e' [].
    + split; [reflexivity|]. intros e [].
  - cbn [findLoop]. destruct (isMatch vt x y a) eqn:Ma.
    + destruct (locked a) eqn:La; cbn [negb].
      * assert (Hext : forall e' (l1 : list CanvasElement),
                   (forall e'', In e'' l1 -> isMatch vt x y e'' = true ->
                                locked e'' = true) ->
                   In e' (a :: l1) -> isMatch vt x y e' = true ->
                   locked e' = true).
        { intros e' l1 H [<-|Hin] Hm; [exact La | apply H; assumption]. }
        destruct lm as [m|].
        -- specialize (IH (Some m)).
           destruct (findLoop vt x y rest (Some m)) as [e|];
             [|destruct IH; discriminate].
           destruct IH as [[Le [Me [l1 [l2 [-> H]]]]]|[[Em H]|[Em _]]].
           ++ left. split; [exact Le|]. split; [exact Me|].
              exists (a :: l1), l2. split; [reflexivity|].
              intros e'. apply Hext, H.
           ++ right. left. split; [exact Em|]. intros e'. apply Hext, H.
           ++ discriminate.
        -- specialize (IH (Some a)).
           destruct (findLoop vt x y rest (Some a)) as [e|];
             [|destruct IH; discriminate].
           destruct IH as [[Le [Me [l1 [l2 [-> H]]]]]|[[Em H]|[Em _]]].
           ++ left. split; [exact Le|]. split; [exact Me|].
              exists (a :: l1), l2. split; [reflexivity|].
              intros e'. apply Hext, H.
           ++ injection Em as <-. right. right.
              split; [reflexivity|]. split; [exact La|]. split; [exact Ma|].
              exists [], rest. split; [reflexivity|].
              split; [intros e' []|exact H].
           ++ discriminate.
      * left. split; [exact La|]. split; [exact Ma|].
        exists [], rest. split; [reflexivity|]. intros e' [].
    + specialize (IH lm).
      destruct (findLoop vt x y rest lm) as [e|].
      * destruct IH as [[Le [Me [l1 [l2 [-> H]]]]]
                       |[[Em H]|[Em [Le [Me [l1 [l2 [-> [H1 H2]]]]]]]]].
        -- left. split; [exact Le|]. split; [exact Me|].
           exists (a :: l1), l2. split; [reflexivity|].
           intros e' [<-|Hin] Hm; [congruence | apply H; assumption].
        -- right. left. split; [exact Em|].
           intros e' [<-|Hin] Hm; [congruence | apply H; assumption].
        -- right. right. split; [exact Em|]. split; [exact Le|].
           split; [exact Me|].
           exists (a :: l1), l2. split; [reflexivity|]. split; [|exact H2].
           intros e' [<-|Hin]; [exact Ma | apply H1, Hin].
      * destruct IH as [Em H]. split; [exact Em|].
        intros e' [<-|Hin]; [exact Ma | apply H, Hin].
Qed.

(** X6.  The hit test returns nothing exactly when no element matches the
    point.  Otherwise it returns a matching element of the list: the
    topmost unlocked match if there is one (every match drawn above it is
    locked), and else the topmost match, which is then locked like every
    other match. *)
Theorem findElementAt_topmost (vt : ViewTransform)
        (els : list CanvasElement) (x y : R) :
  match findElementAt vt els x y with
  | None => forall e, In e els -> isMatch vt x y e = false
  | Some e =>
      isMatch vt x y e = true
      /\ exists below above,
          els = below ++ e :: above
          /\ (locked e = false ->
              forall e', In e' above -> isMatch vt x y e' = true ->
                         locked e' = true)
          /\ (locked e = true ->
              (forall e', In e' above -> isMatch vt x y e' = false)
              /\ forall e', In e' els -> isMatch vt x y e' = true ->
                            locked e' = true)
  end.
Proof.
  unfold findElementAt.
  pose proof (findLoop_cases vt x y (rev els) None) as H.
  destruct (findLoop vt x y (rev els) None) as [e|].
  - assert (Hrev : forall l1 l2, rev els = l1 ++ e :: l2 ->
                                 els = rev l2 ++ e :: rev l1).
    { intros l1 l2 E. rewrite <- (rev_involutive els), E.
      rewrite rev_app_distr. cbn [rev]. rewrite <- app_assoc. reflexivity. }
    destruct H as [[Le [Me [l1 [l2 [E H]]]]]
                  |[[Em _]|[_ [Le [Me [l1 [l2 [E [H1 H2]]]]]]]]].
    + split; [exact Me|]. exists (rev l2), (rev l1).
      split; [apply Hrev, E|]. split.
      * intros _ e' Hin. apply H. apply in_rev. exact Hin.
      * intros Hl. congruence.
    + discriminate.
    + split; [exact Me|]. exists (rev l2), (rev l1).
      split; [apply Hrev, E|]. split; [intros Hl; congruence|].
      intros _. split.
      * intros e' Hin. apply H1. apply in_rev. exact Hin.
      * intros e' Hin Hm. apply in_rev in Hin. rewrite E in Hin.
        apply in_app_or in Hin. destruct Hin as [Hin|[<-|Hin]].
        -- rewrite (H1 e' Hin) in Hm. discriminate.
        -- exact Le.
        -- apply H2; assumption.
  - destruct H as [_ H]. intros e Hin. apply H. apply in_rev in Hin.
    exact Hin.
Qed.

(** ** The snap search *)

Lemma findNearestLineOrWall_candidates (vt : ViewTransform)
      (els : list CanvasElement) (point : Point) :
  findNearestLineOrWall vt els point
  = snd (fold_left (tryCandidate (30 / scale vt) point) (candidates els)
                   (Inf, noSnap point)).
Proof.
  unfold findNearestLineOrWall, candidates. f_equal.
  generalize (Inf, noSnap point).
  induction els as [|e rest IH]; intros acc; [reflexivity|].
  cbn [fold_left flat_map]. rewrite fold_left_app, IH. f_equal.
  destruct e; reflexivity.
Qed.

Lemma tryCandidate_nearestOf (snapDistance : R) (point : Point)
      (seen : list Candidate) (nearest : Dist * Snap) (c : Candidate) :
  nearestOf snapDistance point seen nearest ->
  nearestOf snapDistance point (seen ++ [c])
            (tryCandidate snapDistance point nearest c).
Proof.
  destruct nearest as [nd snap]. unfold nearestOf, tryCandidate, trySegment.
  cbn [fst snd]. fold (distanceTo point c).
  assert (Hin : forall c', In c' (seen ++ [c]) -> In c' seen \/ c' = c).
  { intros c' H. apply in_app_or in H. destruct H as [H|[H|[]]]; auto. }
  intros H.
  by_cases_on (Rltb (distanceTo point c) snapDistance); cbn [andb].
  - destruct nd as [d|]; cbn [ltDist].
    + destruct H as [Hd [Hall [c0 [Hc0 [Hd0 Hs]]]]].
      by_cases_on (Rltb (distanceTo point c) d); cbn [fst snd].
      * split; [exact E|]. split.
        -- intros c' Hc'. destruct (Hin c' Hc') as [Hc''| ->]; [|lra].
           specialize (Hall c' Hc''). lra.
        -- exists c. split; [apply in_or_app; right; left; reflexivity|].
           split; reflexivity.
      * split; [exact Hd|]. split.
        -- intros c' Hc'. destruct (Hin c' Hc') as [Hc''| ->]; [|lra].
           apply Hall, Hc''.
        -- exists c0. split; [apply in_or_app; left; exact Hc0|].
           split; assumption.
    + destruct H as [Hs Hall]. cbn [fst snd].
      split; [exact E|]. split.
      * intros c' Hc'. destruct (Hin c' Hc') as [Hc''| ->]; [|lra].
        specialize (Hall c' Hc''). lra.
      * exists c. split; [apply in_or_app; right; left; reflexivity|].
        split; reflexivity.
  - cbn [fst snd]. destruct nd as [d|].
    + destruct H as [Hd [Hall [c0 [Hc0 [Hd0 Hs]]]]].
      split; [exact Hd|]. split.
      * intros c' Hc'. destruct (Hin c' Hc') as [Hc''| ->]; [|lra].
        apply Hall, Hc''.
      * exists c0. split; [apply in_or_app; left; exact Hc0|].
        split; assumption.
    + destruct H as [Hs Hall]. split; [exact Hs|].
      intros c' Hc'. destruct (Hin c' Hc') as [Hc''| ->]; [|lra].
      apply Hall, Hc''.
Qed.

Lemma fold_tryCandidate_nearestOf (snapDistance : R) (point : Point)
      (todo : list Candidate) :
  forall seen nearest,
    nearestOf snapDistance point seen nearest ->
    nearestOf snapDistance point (seen ++ todo)
              (fold_left (tryCandidate snapDistance point) todo nearest).
Proof.
  induction todo as [|c rest IH]; intros seen nearest H.
  - rewrite app_nil_r. exact H.
  - cbn [fold_left].
    replace (seen ++ c :: rest) with ((seen ++ [c]) ++ rest)
      by (rewrite <- app_assoc; reflexivity).
    apply IH, tryCandidate_nearestOf, H.
Qed.

Lemma fold_tryCandidate_distance (snapDistance : R) (point : Point)
      (todo : list Candidate) :
  forall nearest,
    snap_distance (snd nearest) = fst nearest ->
    snap_distance
      (snd (fold_left (tryCandidate snapDistance point) todo nearest))
    = fst (fold_left (tryCandidate snapDistance point) todo nearest).
Proof.
  induction todo as [|c rest IH]; intros nearest H; [exact H|].
  cbn [fold_left]. apply IH. unfold tryCandidate, trySegment.
  destruct (_ && _); [reflexivity | exact H].
Qed.

Lemma findNearestLineOrWall_cases (vt : ViewTransform)
        (els : list CanvasElement) (point : Point) :
  let s := findNearestLineOrWall vt els point in
  match snap_distance s with
  | Inf =>
      s = noSnap point
      /\ forall c, In c (candidates els) ->
                   30 / scale vt <= distanceTo point c
  | Fin d =>
      d < 30 / scale vt
      /\ (forall c, In c (candidates els) -> d <= distanceTo point c)
      /\ exists c,
          In c (candidates els) /\ distanceTo point c = d
          /\ s = snapTo point c
  end.
Proof.
  cbv zeta. rewrite findNearestLineOrWall_candidates.
  pose proof (fold_tryCandidate_nearestOf (30 / scale vt) point
                (candidates els) [] (Inf, noSnap point)) as H.
  cbn [app] in H.
  rewrite (fold_tryCandidate_distance (30 / scale vt) point (candidates els)
             (Inf, noSnap point) eq_refl).
  apply H. unfold nearestOf. cbn [fst snd].
  split; [reflexivity|]. intros c [].
Qed.

(** X4.  The snap search returns the nearest wall within the threshold:
    when its distance is infinite, the result is the query point itself,
    unattached, and every candidate segment (each line, each side of each
    rectangle) is at least [30 / scale] away; otherwise the result is the
    pose on one candidate segment of the project, whose distance is below
    [30 / scale] and at most the distance of every other candidate. *)
Theorem snap_is_nearest_within_threshold (vt : ViewTransform)
        (els : list CanvasElement) (point : Point) :
  let s := findNearestLineOrWall vt els point in
  match snap_distance s with
  | Inf =>
      s = noSnap point
      /\ forall c, In c (candidates els) ->
                   30 / scale vt <= distanceTo point c
  | Fin d =>
      d < 30 / scale vt
      /\ (forall c, In c (candidates els) -> d <= distanceTo point c)
      /\ exists c,
          In c (candidates els) /\ distanceTo point c = d
          /\ s = snapTo point c
  end.
Proof. apply findNearestLineOrWall_cases. Qed.

Lemma candidates_origin (els : list CanvasElement) (c : Candidate) :
  In c (candidates els) ->
  (exists b endX endY l,
      In (Line b endX endY l) els
      /\ c = mkCandidate (el_x b) (el_y b) endX endY (Some (el_id b)) None
                         None)
  \/ (exists b width height wc hc x y endX endY side,
         In (Rectangle b width height wc hc) els
         /\ In (x, y, endX, endY, side)
               (sides (el_x b) (el_y b) width height)
         /\ c = mkCandidate x y endX endY None (Some (el_id b)) (Some side)).
Proof.
  unfold candidates. intros H. apply in_flat_map in H.
  destruct H as [e [He Hc]]. destruct e; cbn [candidatesOf] in Hc.
  - destruct Hc as [<-|[]]. left. repeat eexists. exact He.
  - apply in_map_iff in Hc. destruct Hc as [[[[[x y] ex] ey] sd] [<- Hs]].
    right. exists b, width, height, widthCm, heightCm, x, y, ex, ey, sd.
    split; [exact He|]. split; [exact Hs | reflexivity].
  - destruct Hc.
  - destruct Hc.
  - destruct Hc.
Qed.

Lemma currentProject_addElement (a : App) (project : Project)
      (element : CanvasElement) :
  currentProject a = Some project ->
  truthy (currentProjectId a) = true ->
  currentProject (addElement a element a)
  = Some (withElements project (elements project ++ [element])).
Proof.
  intros Hp Ht. unfold addElement. rewrite Ht. cbn [negb].
  unfold currentProject, saveHistory in *.
  cbn [projects currentProjectId setProjects setHistoryIndex setHistory].
  rewrite find_map_same.
  - rewrite Hp. cbn [option_map].
    rewrite (find_some_holds _ _ _ Hp). reflexivity.
  - intros p. destruct (isCurrent (currentProjectId a) p) eqn:E.
    + unfold isCurrent, withElements in *. cbn [p_id]. exact E.
    + exact E.
Qed.

(** X7.  A click of the door tool appends one door of width
    [80 * pixelsPerCm] with the next generated identifier and goes back to
    the select tool.  The attachment of the new door never dangles: the
    door is either unattached at the clicked point with rotation 0, or
    attached to a line of the project and placed on the closest point of
    that line, or attached to a side of a rectangle of the project and
    placed on the closest point of that side; it never carries both
    attachments. *)
Theorem door_tool_creates_attached_door (e : MouseEvent) (w : World)
        (project : Project) :
  currentProject (app w) = Some project ->
  truthy (currentProjectId (app w)) = true ->
  tool (app w) = ToolDoor ->
  button e = 0%Z ->
  altKey e = false ->
  let point :=
    screenToCanvas (canvas w) (viewTransform (cv w)) (clientX e) (clientY e) in
  let w' := handleMouseDown e w in
  exists b al ar sd,
    currentProject (app w')
    = Some (withElements project
              (elements project
               ++ [Door b (80 * pixelsPerCm project) al ar sd]))
    /\ tool (app w') = ToolSelect
    /\ el_id b = generateId w
    /\ ((al = None /\ ar = None /\ sd = None
         /\ mkPoint (el_x b) (el_y b) = point /\ el_rotation b = Some 0)
        \/ (exists lb endX endY l,
               In (Line lb endX endY l) (elements project)
               /\ al = Some (el_id lb) /\ ar = None /\ sd = None
               /\ mkPoint (el_x b) (el_y b)
                  = getClosestPointOnLine (pt_x point) (pt_y point)
                      (el_x lb) (el_y lb) endX endY)
        \/ (exists rb width height wc hc x y endX endY side,
               In (Rectangle rb width height wc hc) (elements project)
               /\ In (x, y, endX, endY, side)
                     (sides (el_x rb) (el_y rb) width height)
               /\ al = None /\ ar = Some (el_id rb) /\ sd = Some side
               /\ mkPoint (el_x b) (el_y b)
                  = getClosestPointOnLine (pt_x point) (pt_y point)
                      x y endX endY)).
Proof.
  intros Hp Ht Htool Hb Ha. cbv zeta.
  unfold handleMouseDown. rewrite Hp. cbv zeta. rewrite Hb, Ha.
  cbn [Z.eqb orb andb].
  assert (Hg : grabHandle project
                 (screenToCanvas (canvas w) (viewTransform (cv w))
                                 (clientX e) (clientY e)) w = None).
  { unfold grabHandle. rewrite Htool. reflexivity. }
  rewrite Hg, Htool.
  set (point := screenToCanvas _ _ _ _).
  set (s := findNearestLineOrWall (viewTransform (cv w)) (elements project)
                                  point).
  exists (base (newDoor w project s)), (snap_attachedToLine s),
    (snap_attachedToRectangle s), (snap_attachmentSide s).
  split; [|split; [reflexivity|split; [reflexivity|]]].
  - cbn [app idUsed withApp].
    unfold currentProject. cbn [projects currentProjectId setTool].
    apply (currentProject_addElement (app w) project _ Hp Ht).
  - pose proof (findNearestLineOrWall_cases (viewTransform (cv w))
                  (elements project) point) as H.
    cbv zeta in H. fold s in H.
    cbn [newDoor base el_x el_y el_rotation].
    destruct (snap_distance s) as [d|].
    + destruct H as [_ [_ [c [Hc [_ Hs]]]]]. rewrite Hs.
      cbn [snapTo snap_attachedToLine snap_attachedToRectangle
           snap_attachmentSide snap_x snap_y].
      destruct (candidates_origin _ _ Hc)
        as [[lb [ex [ey [l [Hin ->]]]]]
           |[rb [wd [ht [wc [hc [x [y [ex [ey [sd [Hin [Hs' ->]]]]]]]]]]]]].
      * right. left. exists lb, ex, ey, l. cbn.
        split; [exact Hin|]. repeat split.
        destruct (getClosestPointOnLine _ _ _ _ _ _); reflexivity.
      * right. right. exists rb, wd, ht, wc, hc, x, y, ex, ey, sd. cbn.
        split; [exact Hin|]. split; [exact Hs'|]. repeat split.
        destruct (getClosestPointOnLine _ _ _ _ _ _); reflexivity.
    + destruct H as [Hs _]. rewrite Hs. left. cbn.
      repeat split. destruct point; reflexivity.
Qed.

Lemma door_tool_creates_attached_door_witness :
  let w := doorToolWorld in
  let e := pointerAt 50 5 in
  let project := sampleProject [wallLine] in
  let point :=
    screenToCanvas (canvas w) (viewTransform (cv w)) (clientX e) (clientY e) in
  let w' := handleMouseDown e w in
  exists b al ar sd,
    currentProject (app w')
    = Some (withElements project
              (elements project
               ++ [Door b (80 * pixelsPerCm project) al ar sd]))
    /\ tool (app w') = ToolSelect
    /\ el_id b = generateId w
    /\ ((al = None /\ ar = None /\ sd = None
         /\ mkPoint (el_x b) (el_y b) = point /\ el_rotation b = Some 0)
        \/ (exists lb endX endY l,
               In (Line lb endX endY l) (elements project)
               /\ al = Some (el_id lb) /\ ar = None /\ sd = None
               /\ mkPoint (el_x b) (el_y b)
                  = getClosestPointOnLine (pt_x point) (pt_y point)
                      (el_x lb) (el_y lb) endX endY)
        \/ (exists rb width height wc hc x y endX endY side,
               In (Rectangle rb width height wc hc) (elements project)
               /\ In (x, y, endX, endY, side)
                     (sides (el_x rb) (el_y rb) width height)
               /\ al = None /\ ar = Some (el_id rb) /\ sd = Some side
               /\ mkPoint (el_x b) (el_y b)
                  = getClosestPointOnLine (pt_x point) (pt_y point)
                      x y endX endY)).
Proof.
  cbv zeta.
  apply (door_tool_creates_attached_door (pointerAt 50 5) doorToolWorld
           (sampleProject [wallLine])); reflexivity.
Defined.

(** ** What a drag does and does not change *)

Lemma selection_updateElement (r a : App) (i : string) (u : Updates)
      (skip : bool) :
  selectedElementIds (updateElement r i u skip a) = selectedElementIds a.
Proof.
  unfold updateElement. destruct (negb (truthy (currentProjectId r)));
    [reflexivity|]. destruct skip; reflexivity.
Qed.

Lemma fold_dragEntry_keeps (r : App) (c : Canvas) (project : Project)
      (point : Point) (dx dy : R) (positions : list (string * StartPos)) :
  forall a,
    selectedElementIds
      (fold_left (dragEntry r c project point dx dy) positions a)
    = selectedElementIds a
    /\ currentProjectId
         (fold_left (dragEntry r c project point dx dy) positions a)
       = currentProjectId a.
Proof.
  induction positions as [|entry rest IH]; intros a; [split; reflexivity|].
  cbn [fold_left]. destruct (IH (dragEntry r c project point dx dy a entry))
    as [H1 H2].
  rewrite H1, H2. unfold dragEntry.
  destruct (dragUpdate c project point dx dy entry).
  - rewrite selection_updateElement, currentProjectId_updateElement.
    split; reflexivity.
  - split; reflexivity.
Qed.

Lemma elemId_dragElement (c : Canvas) (project : Project) (point : Point)
      (dx dy ppc : R) (positions : list (string * StartPos)) :
  forall e,
    elemId (dragElement c project point dx dy ppc positions e) = elemId e.
Proof.
  unfold dragElement.
  induction positions as [|entry rest IH]; intros e; [reflexivity|].
  cbn [fold_left]. rewrite IH.
  destruct (dragUpdate c project point dx dy entry); [|reflexivity].
  apply elemId_updateOne.
Qed.

(** One pointer move of a drag: the gesture goes on, and every element is
    what the rounds of the loop make of it. *)
Lemma drag_step (e : MouseEvent) (w : World) (project : Project) :
  dragging w project ->
  let point :=
    screenToCanvas (canvas w) (viewTransform (cv w)) (clientX e) (clientY e) in
  let w' := handleMouseMove e w in
  let project' :=
    withElements project
      (map (dragElement (cv w) project point (fst (dragDelta e w))
                        (snd (dragDelta e w)) (pixelsPerCm project)
                        (elementStartPositions (cv w)))
           (elements project)) in
  dragging w' project' /\ cv w' = cv w /\ canvas w' = canvas w.
Proof.
  intros [Hp [Ht [H1 [H2 [H3 [H4 [Hsel [Href [Hkeys Hids]]]]]]]]].
  cbv zeta. unfold dragDelta. cbn [fst snd].
  rewrite (handleMouseMove_dragging e w project Hp H1 H2 H3 H4 Hsel Href).
  set (point := screenToCanvas _ _ _ _).
  set (dx := pt_x point - _). set (dy := pt_y point - _).
  destruct (fold_dragEntry_keeps (app w) (cv w) project point dx dy
              (elementStartPositions (cv w)) (app w)) as [Ks Kc].
  split; [|split; reflexivity].
  unfold dragging. cbn [app cv withApp].
  rewrite Ks, Kc.
  split.
  { apply (fold_dragEntry_current _ _ _ _ _ _ _ Ht (app w) project eq_refl
             Hp). }
  repeat split; try assumption.
  cbn [elements withElements]. rewrite map_map.
  rewrite (map_ext _ elemId); [exact Hids|].
  intros el. apply elemId_dragElement.
Qed.

(** X8.  A pointer move of a drag changes neither the number nor the
    identifiers of the elements, and leaves untouched every element that
    is locked and every element that is not in the snapshot taken at
    pointer-down. *)
Theorem drag_leaves_locked_and_unsnapped
        (e : MouseEvent) (w : World) (project : Project) (k : nat)
        (el : CanvasElement) :
  dragging w project ->
  nth_error (elements project) k = Some el ->
  locked el = true
  \/ ~ In (elemId el) (map fst (elementStartPositions (cv w))) ->
  exists project',
    currentProject (app (handleMouseMove e w)) = Some project'
    /\ map elemId (elements project') = map elemId (elements project)
    /\ nth_error (elements project') k = Some el.
Proof.
  intros Hd Hk Hwhy.
  destruct (drag_step e w project Hd) as [[Hp' _] _].
  destruct Hd as [Hp [_ [_ [_ [_ [_ [_ [_ [_ Hids]]]]]]]]].
  eexists. split; [exact Hp'|]. cbn [elements withElements]. split.
  - rewrite map_map. apply map_ext. intros a. apply elemId_dragElement.
  - rewrite nth_error_map, Hk. cbn [option_map]. f_equal.
    apply dragElement_untouched. intros [i sp] Hin. cbn [fst].
    destruct (String.eqb i (elemId el)) eqn:E.
    + apply String.eqb_eq in E. subst i.
      destruct Hwhy as [Hl|Hnot].
      * right. unfold dragUpdate.
        rewrite (findById_NoDup _ el Hids (nth_error_In _ _ Hk)), Hl.
        reflexivity.
      * exfalso. apply Hnot.
        change (elemId el) with (fst (elemId el, sp)). apply in_map, Hin.
    + left. apply String.eqb_neq, E.
Qed.

Lemma drag_leaves_locked_and_unsnapped_witness :
  exists project',
    currentProject (app (handleMouseMove (pointerAt 5 30) draggingTwoDoors))
    = Some project'
    /\ map elemId (elements project')
       = map elemId [wallLine; doorA; doorB]
    /\ nth_error (elements project') 0 = Some wallLine.
Proof.
  apply (drag_leaves_locked_and_unsnapped (pointerAt 5 30) draggingTwoDoors
           (sampleProject [wallLine; doorA; doorB]) 0 wallLine).
  - unfold dragging. repeat split; try reflexivity.
    + discriminate.
    + apply noDup_strings_2. discriminate.
    + apply noDup_strings_3; discriminate.
  - reflexivity.
  - right. cbn. intros [H|[H|[]]]; discriminate.
Defined.

(** X9.  A dragged line is translated: a pointer move takes an unlocked
    line of the snapshot to its snapshot start and end points plus the
    pointer delta, and its [lengthCm] is the length of the snapshot
    segment over [pixelsPerCm], whatever the delta. *)
Theorem drag_translates_line
        (e : MouseEvent) (w : World) (project : Project) (k : nat)
        (b : BaseElement) (endX endY lengthCm sx sy sEndX sEndY : R) :
  dragging w project ->
  nth_error (elements project) k = Some (Line b endX endY lengthCm) ->
  locked (Line b endX endY lengthCm) = false ->
  In (el_id b, mkStartPos sx sy (Some sEndX) (Some sEndY))
     (elementStartPositions (cv w)) ->
  let dx := fst (dragDelta e w) in
  let dy := snd (dragDelta e w) in
  exists project',
    currentProject (app (handleMouseMove e w)) = Some project'
    /\ nth_error (elements project') k
       = Some (Line (moveBase b (sx + dx) (sy + dy))
                    (sEndX + dx) (sEndY + dy)
                    (sqrt ((sEndX - sx) * (sEndX - sx)
                           + (sEndY - sy) * (sEndY - sy))
                     / pixelsPerCm project)).
Proof.
  intros Hd Hk Hl Hin. cbv zeta.
  destruct (drag_step e w project Hd) as [[Hp' _] _].
  destruct Hd as [Hp [_ [_ [_ [_ [_ [_ [_ [Hkeys Hids]]]]]]]]].
  eexists. split; [exact Hp'|]. cbn [elements withElements].
  rewrite nth_error_map, Hk. cbn [option_map]. f_equal.
  set (line := Line b endX endY lengthCm) in *.
  rewrite (dragElement_target _ _ _ _ _ _ _ line
             (mkStartPos sx sy (Some sEndX) (Some sEndY))
             (updLine (sx + fst (dragDelta e w)) (sy + snd (dragDelta e w))
                      (sEndX + fst (dragDelta e w))
                      (sEndY + snd (dragDelta e w))) Hkeys Hin).
  - unfold line. cbn [spread recompute over updLine u_endX u_endY u_lengthCm
                       spreadBase u_x u_y el_x el_y].
    unfold moveBase. cbn. f_equal. f_equal. f_equal; ring.
  - unfold dragUpdate.
    rewrite (findById_NoDup _ line Hids (nth_error_In _ _ Hk)), Hl.
    reflexivity.
Qed.

Lemma drag_translates_line_witness :
  let w := draggingRectAndLine in
  let e := pointerAt 7 9 in
  let dx := fst (dragDelta e w) in
  let dy := snd (dragDelta e w) in
  exists project',
    currentProject (app (handleMouseMove e w)) = Some project'
    /\ nth_error (elements project') 1
       = Some (Line (moveBase (plainBase "l1" 0 0) (0 + dx) (0 + dy))
                    (30 + dx) (40 + dy)
                    (sqrt ((30 - 0) * (30 - 0) + (40 - 0) * (40 - 0)) / 10)).
Proof.
  cbv zeta.
  apply (drag_translates_line (pointerAt 7 9) draggingRectAndLine
           (sampleProject [rect100; line345]) 1 (plainBase "l1" 0 0)
           30 40 5 0 0 30 40).
  - unfold dragging. repeat split; try reflexivity.
    + discriminate.
    + apply noDup_strings_2. discriminate.
    + apply noDup_strings_2. discriminate.
  - reflexivity.
  - reflexivity.
  - right. left. reflexivity.
Defined.

Lemma drag_step_rectangle
      (e : MouseEvent) (w : World) (project : Project) (k : nat)
      (b : BaseElement) (width height wc hc : R) (sp : StartPos) :
  dragging w project ->
  nth_error (elements project) k = Some (Rectangle b width height wc hc) ->
  locked (Rectangle b width height wc hc) = false ->
  In (el_id b, sp) (elementStartPositions (cv w)) ->
  exists project',
    dragging (handleMouseMove e w) project'
    /\ cv (handleMouseMove e w) = cv w
    /\ canvas (handleMouseMove e w) = canvas w
    /\ pixelsPerCm project' = pixelsPerCm project
    /\ nth_error (elements project') k
       = Some (Rectangle
                 (moveBase b (sp_x sp + fst (dragDelta e w))
                           (sp_y sp + snd (dragDelta e w)))
                 width height (width / pixelsPerCm project)
                 (height / pixelsPerCm project)).
Proof.
  intros Hd Hk Hl Hin.
  destruct (drag_step e w project Hd) as [Hd' [Hcv Hcan]].
  destruct Hd as [Hp [_ [_ [_ [_ [_ [_ [_ [Hkeys Hids]]]]]]]]].
  eexists. split; [exact Hd'|]. split; [exact Hcv|]. split; [exact Hcan|].
  split; [reflexivity|]. cbn [elements withElements].
  rewrite nth_error_map, Hk. cbn [option_map]. f_equal.
  set (rect := Rectangle b width height wc hc) in *.
  rewrite (dragElement_target _ _ _ _ _ _ _ rect sp
             (updXY (sp_x sp + fst (dragDelta e w))
                    (sp_y sp + snd (dragDelta e w))) Hkeys Hin).
  - reflexivity.
  - unfold dragUpdate.
    rewrite (findById_NoDup _ rect Hids (nth_error_In _ _ Hk)), Hl.
    reflexivity.
Qed.

Lemma drag_run_rectangle (k : nat) (width height : R) (sp : StartPos)
      (last : MouseEvent) (moves : list MouseEvent) :
  forall (w : World) (project : Project) (b : BaseElement) (wc hc : R),
    dragging w project ->
    nth_error (elements project) k = Some (Rectangle b width height wc hc) ->
    locked (Rectangle b width height wc hc) = false ->
    In (el_id b, sp) (elementStartPositions (cv w)) ->
    exists project',
      currentProject (app (pointerMoves (moves ++ [last]) w)) = Some project'
      /\ nth_error (elements project') k
         = Some (Rectangle
                   (moveBase b (sp_x sp + fst (dragDelta last w))
                             (sp_y sp + snd (dragDelta last w)))
                   width height (width / pixelsPerCm project)
                   (height / pixelsPerCm project)).
Proof.
  unfold pointerMoves.
  induction moves as [|m rest IH]; intros w project b wc hc Hd Hk Hl Hin.
  - cbn [app fold_left].
    destruct (drag_step_rectangle last w project k b width height wc hc sp
                Hd Hk Hl Hin) as [p' [[Hp' _] [_ [_ [_ Hn]]]]].
    exists p'. split; [exact Hp' | exact Hn].
  - cbn [app fold_left].
    destruct (drag_step_rectangle m w project k b width height wc hc sp
                Hd Hk Hl Hin) as [p' [Hd' [Hcv [Hcan [Hppc Hn]]]]].
    destruct (IH (handleMouseMove m w) p' _ _ _ Hd' Hn Hl)
      as [p'' [Hp'' Hn'']].
    + rewrite Hcv. exact Hin.
    + exists p''. split; [exact Hp''|]. rewrite Hn'', Hppc.
      unfold dragDelta. rewrite Hcv, Hcan. reflexivity.
Qed.

(** X10.  Drag updates are absolute: after any run of pointer moves of a
    drag, an unlocked rectangle of the snapshot is at its snapshot position
    plus the pointer delta of the last move only; the moves before it
    leave no trace, and its size is unchanged. *)
Theorem drag_position_depends_on_last_move
        (moves : list MouseEvent) (last : MouseEvent) (w : World)
        (project : Project) (k : nat) (b : BaseElement)
        (width height wc hc : R) (sp : StartPos) :
  dragging w project ->
  nth_error (elements project) k = Some (Rectangle b width height wc hc) ->
  locked (Rectangle b width height wc hc) = false ->
  In (el_id b, sp) (elementStartPositions (cv w)) ->
  exists project',
    currentProject (app (pointerMoves (moves ++ [last]) w)) = Some project'
    /\ nth_error (elements project') k
       = Some (Rectangle
                 (moveBase b (sp_x sp + fst (dragDelta last w))
                           (sp_y sp + snd (dragDelta last w)))
                 width height (width / pixelsPerCm project)
                 (height / pixelsPerCm project)).
Proof. apply drag_run_rectangle. Qed.

Lemma drag_position_depends_on_last_move_witness :
  let w := draggingRectAndLine in
  let last := pointerAt 7 9 in
  exists project',
    currentProject
      (app (pointerMoves ([pointerAt 100 100; pointerAt (-3) 50] ++ [last])
                         w))
    = Some project'
    /\ nth_error (elements project') 0
       = Some (Rectangle
                 (moveBase (plainBase "r1" 0 0)
                           (0 + fst (dragDelta last w))
                           (0 + snd (dragDelta last w)))
                 100 50 (100 / 10) (50 / 10)).
Proof.
  cbv zeta.
  apply (drag_position_depends_on_last_move
           [pointerAt 100 100; pointerAt (-3) 50] (pointerAt 7 9)
           draggingRectAndLine (sampleProject [rect100; line345]) 0
           (plainBase "r1" 0 0) 100 50 10 5 (mkStartPos 0 0 None None)).
  - unfold dragging. repeat split; try reflexivity.
    + discriminate.
    + apply noDup_strings_2. discriminate.
    + apply noDup_strings_2. discriminate.
  - reflexivity.
  - reflexivity.
  - left. reflexivity.
Defined.

(** ** The snapshot, the selection and the selection box *)

Lemma capture_entries (els : list CanvasElement) (sel : list string) :
  forall acc,
    (forall k v, In (k, v) acc ->
                 exists el,
                   findById els k = Some el /\ locked el = false
                   /\ v = startPosOf el) ->
    forall k v,
      In (k, v) (fold_left (captureStep els) sel acc) ->
      (In k sel \/ In k (map fst acc))
      /\ exists el,
          findById els k = Some el /\ locked el = false
          /\ v = startPosOf el.
Proof.
  induction sel as [|j rest IH]; intros acc Hacc k v H.
  - split; [|apply Hacc, H]. right.
    change k with (fst (k, v)). apply in_map, H.
  - cbn [fold_left] in H.
    assert (Hstep : forall k' v',
               In (k', v') (captureStep els acc j) ->
               (k' = j \/ In (k', v') acc)
               /\ exists el,
                   findById els k' = Some el /\ locked el = false
                   /\ v' = startPosOf el).
    { intros k' v' H'. unfold captureStep in H'.
      destruct (findById els j) as [ej|] eqn:Ej;
        [|split; [right; exact H' | apply Hacc, H']].
      destruct (locked ej) eqn:Lj; cbn [negb] in H';
        [split; [right; exact H' | apply Hacc, H']|].
      apply mapSet_In_inv in H'. destruct H' as [E|H'];
        [|split; [right; exact H' | apply Hacc, H']].
      injection E as -> ->. split; [left; reflexivity|].
      exists ej. split; [exact Ej|]. split; [exact Lj | reflexivity]. }
    destruct (IH (captureStep els acc j) (fun k' v' H' => proj2 (Hstep k' v' H'))
                 k v H) as [Hk Hel].
    split; [|exact Hel].
    destruct Hk as [Hk|Hk]; [left; right; exact Hk|].
    apply in_map_iff in Hk. destruct Hk as [[k' v'] [E Hin]].
    cbn [fst] in E. subst k'.
    destruct (proj1 (Hstep k v' Hin)) as [->|Hin'].
    + left. left. reflexivity.
    + right. change k with (fst (k, v')). apply in_map, Hin'.
Qed.

(** The snapshot over a list of identifiers holds, each once, the
    identifiers of the list that name an unlocked element, with the
    position of that element (and the end point for a line). *)
Lemma capturePositions_entries
      (els : list CanvasElement) (sel : list string) :
  NoDup (map fst (capturePositions els sel))
  /\ forall i sp,
      In (i, sp) (capturePositions els sel)
      <-> (In i sel
           /\ exists el,
               findById els i = Some el /\ locked el = false
               /\ sp = startPosOf el).
Proof.
  split; [apply capture_NoDup; constructor|].
  intros i sp. unfold capturePositions. split.
  - intros H.
    destruct (capture_entries els sel [] (fun _ _ H => match H with end)
                              i sp H) as [[Hs|[]] Hel].
    split; assumption.
  - intros [Hs [el [Hf [Hl ->]]]].
    assert (Hk : In i (map fst (fold_left (captureStep els) sel [])))
      by (apply (capture_keys els sel i el Hf Hl); left; exact Hs).
    apply in_map_iff in Hk. destruct Hk as [[k v] [Hk Hkv]].
    cbn [fst] in Hk. subst k.
    destruct (capture_values els sel [] (fun _ _ H => match H with end)
                             _ _ Hkv) as [el' [Hf' ->]].
    rewrite Hf in Hf'. injection Hf' as <-. exact Hkv.
Qed.

(** X11.  The snapshot of a drag is taken over the selection as it was
    before the press, not over the selection the press sets.  When a
    pointer-down of the select tool hits an unlocked element and grabs no
    handle, the drag starts with the hit element as reference, and the
    snapshot holds, each once, exactly the identifiers selected before
    the press that name an unlocked element of the project, with the
    position of that element (and the end point for a line).  A press
    without shift on an element that was selected leaves the selection
    as it was, so that the snapshot is its unlocked part; a press without
    shift on an element that was not selected makes it the selection and
    leaves it out of the snapshot. *)
Theorem snapshot_is_taken_over_previous_selection
        (e : MouseEvent) (w : World) (project : Project)
        (clicked : CanvasElement) :
  currentProject (app w) = Some project ->
  button e = 0%Z ->
  altKey e = false ->
  tool (app w) = ToolSelect ->
  let point :=
    screenToCanvas (canvas w) (viewTransform (cv w)) (clientX e) (clientY e) in
  grabHandle project point w = None ->
  findElementAt (viewTransform (cv w)) (elements project)
                (pt_x point) (pt_y point) = Some clicked ->
  locked clicked = false ->
  let w1 := handleMouseDown e w in
  isDragging (cv w1) = true
  /\ dragReferenceId (cv w1) = Some (elemId clicked)
  /\ NoDup (map fst (elementStartPositions (cv w1)))
  /\ (forall i sp,
         In (i, sp) (elementStartPositions (cv w1))
         <-> (In i (selectedElementIds (app w))
              /\ exists el,
                  findById (elements project) i = Some el
                  /\ locked el = false /\ sp = startPosOf el))
  /\ (shiftKey e = false ->
      In (elemId clicked) (selectedElementIds (app w)) ->
      selectedElementIds (app w1) = selectedElementIds (app w))
  /\ (shiftKey e = false ->
      ~ In (elemId clicked) (selectedElementIds (app w)) ->
      selectedElementIds (app w1) = [elemId clicked]
      /\ ~ In (elemId clicked) (map fst (elementStartPositions (cv w1)))).
Proof.
  intros Hp Hb Ha Ht. cbv zeta. intros Hg Hf Hl.
  rewrite (handleMouseDown_hit e w project clicked Hp Hb Ha Ht Hg Hf).
  rewrite Hl. cbn [negb cv app withCv withApp].
  set (sel := selectedElementIds (app w)).
  set (point := screenToCanvas _ _ _ _).
  assert (Hsnap : elementStartPositions
                    (beginDrag project sel point clicked (cv w))
                  = capturePositions (elements project) sel).
  { unfold beginDrag. destruct (isDoor clicked); reflexivity. }
  destruct (capturePositions_entries (elements project) sel) as [Hnd Hent].
  rewrite Hsnap.
  split; [unfold beginDrag; destruct (isDoor clicked); reflexivity|].
  split; [unfold beginDrag; destruct (isDoor clicked); reflexivity|].
  split; [exact Hnd|]. split; [exact Hent|].
  split.
  - intros Hs Hin. unfold clickSelect. rewrite Hs.
    fold sel. apply includes_In in Hin. fold sel in Hin. rewrite Hin.
    reflexivity.
  - intros Hs Hnot. unfold clickSelect. rewrite Hs. fold sel.
    destruct (includes sel (elemId clicked)) eqn:E.
    + exfalso. apply Hnot. apply includes_In. exact E.
    + split; [reflexivity|].
      intros Hk. apply in_map_iff in Hk. destruct Hk as [[k v] [Hk Hkv]].
      cbn [fst] in Hk. subst k. apply Hent in Hkv. apply Hnot, Hkv.
Qed.

Lemma snapshot_is_taken_over_previous_selection_witness :
  let w := sampleWorld [rect100] ["r1"%string] idleCanvas in
  let w1 := handleMouseDown (pointerAt 50 25) w in
  isDragging (cv w1) = true
  /\ dragReferenceId (cv w1) = Some (elemId rect100)
  /\ NoDup (map fst (elementStartPositions (cv w1)))
  /\ (forall i sp,
         In (i, sp) (elementStartPositions (cv w1))
         <-> (In i (selectedElementIds (app w))
              /\ exists el,
                  findById (elements (sampleProject [rect100])) i = Some el
                  /\ locked el = false /\ sp = startPosOf el))
  /\ (shiftKey (pointerAt 50 25) = false ->
      In (elemId rect100) (selectedElementIds (app w)) ->
      selectedElementIds (app w1) = selectedElementIds (app w))
  /\ (shiftKey (pointerAt 50 25) = false ->
      ~ In (elemId rect100) (selectedElementIds (app w)) ->
      selectedElementIds (app w1) = [elemId rect100]
      /\ ~ In (elemId rect100) (map fst (elementStartPositions (cv w1)))).
Proof.
  cbv zeta.
  apply (snapshot_is_taken_over_previous_selection (pointerAt 50 25)
           (sampleWorld [rect100] ["r1"%string] idleCanvas)
           (sampleProject [rect100]) rect100);
    try reflexivity.
  - apply grabHandle_rect100_centre.
  - change (findLoop unitView ((50 - 0 - 0) / 1) ((25 - 0 - 0) / 1)
                     [rect100] None = Some rect100).
    cbn [findLoop]. rewrite isMatch_rect100_centre. reflexivity.
Defined.

Lemma filter_not_in (l : list string) (i : string) :
  ~ In i l -> filter (fun j => negb (String.eqb j i)) l = l.
Proof.
  induction l as [|a rest IH]; intros H; [reflexivity|].
  cbn [filter]. destruct (String.eqb a i) eqn:E.
  - apply String.eqb_eq in E. exfalso. apply H. left. exact E.
  - cbn [negb]. rewrite IH; [reflexivity|]. intros Hin. apply H. right.
    exact Hin.
Qed.

(** X12.  Shift-click toggles membership: on an element that is not
    selected it appends the element to the selection, and a second
    shift-click gives the selection back as it was; on a selected element
    it removes every occurrence of it and keeps the order of the others. *)
Theorem shift_click_toggles (e : MouseEvent) (i : string) (a : App) :
  shiftKey e = true ->
  (~ In i (selectedElementIds a) ->
   selectedElementIds (clickSelect e i a) = selectedElementIds a ++ [i]
   /\ selectedElementIds (clickSelect e i (clickSelect e i a))
      = selectedElementIds a)
  /\ (In i (selectedElementIds a) ->
      ~ In i (selectedElementIds (clickSelect e i a))
      /\ forall j, j <> i ->
                   (In j (selectedElementIds (clickSelect e i a))
                    <-> In j (selectedElementIds a))).
Proof.
  intros Hs. split.
  - intros Hnot.
    assert (Hinc : includes (selectedElementIds a) i = false).
    { destruct (includes (selectedElementIds a) i) eqn:E; [|reflexivity].
      apply includes_In in E. contradiction. }
    assert (H1 : clickSelect e i a
                 = setSelectedElementIds (selectedElementIds a ++ [i]) a).
    { unfold clickSelect. rewrite Hs, Hinc. reflexivity. }
    split; [rewrite H1; reflexivity|].
    rewrite H1. unfold clickSelect at 1.
    cbn [selectedElementIds setSelectedElementIds]. rewrite Hs.
    rewrite (proj2 (includes_In _ _)) by (apply in_or_app; right; left;
                                           reflexivity).
    cbn [selectedElementIds setSelectedElementIds].
    rewrite filter_app. cbn [filter]. rewrite String.eqb_refl. cbn [negb].
    rewrite app_nil_r. apply filter_not_in, Hnot.
  - intros Hin. unfold clickSelect. rewrite Hs.
    rewrite (proj2 (includes_In _ _) Hin).
    cbn [selectedElementIds setSelectedElementIds]. split.
    + intros H. apply filter_In in H. destruct H as [_ H].
      rewrite String.eqb_refl in H. discriminate.
    + intros j Hj. rewrite filter_In. split; [tauto|].
      intros H. split; [exact H|].
      apply negb_true_iff. apply String.eqb_neq. exact Hj.
Qed.

Lemma shift_click_toggles_witness :
  let e := shiftPointerAt 1 1 in
  let a := sampleApp [rect100; line345] ["r1"%string] in
  (~ In "l1"%string (selectedElementIds a) ->
   selectedElementIds (clickSelect e "l1" a)
   = selectedElementIds a ++ ["l1"%string]
   /\ selectedElementIds (clickSelect e "l1" (clickSelect e "l1" a))
      = selectedElementIds a)
  /\ (In "l1"%string (selectedElementIds a) ->
      ~ In "l1"%string (selectedElementIds (clickSelect e "l1" a))
      /\ forall j, j <> "l1"%string ->
                   (In j (selectedElementIds (clickSelect e "l1" a))
                    <-> In j (selectedElementIds a))).
Proof.
  cbv zeta.
  apply (shift_click_toggles (shiftPointerAt 1 1) "l1"
           (sampleApp [rect100; line345] ["r1"%string])).
  reflexivity.
Defined.

(** X13.  During a box selection every pointer move sets the selection
    box to the axis-aligned box spanned by the point where the pointer
    went down and the current point: its width and height are not
    negative and both points lie inside it.  Elements and selection are
    untouched until release. *)
Theorem selection_box_spans_the_drag (e : MouseEvent) (w : World)
        (project : Project) :
  currentProject (app w) = Some project ->
  isPanning (cv w) = false ->
  isRotating (cv w) = false ->
  isScaling (cv w) = false ->
  isDragging (cv w) = false ->
  isSelecting (cv w) = true ->
  let point :=
    screenToCanvas (canvas w) (viewTransform (cv w)) (clientX e) (clientY e) in
  let w' := handleMouseMove e w in
  exists box,
    selectionBox (cv w') = Some box
    /\ 0 <= box_width box /\ 0 <= box_height box
    /\ insideBox (drawStart (cv w)) box
    /\ insideBox point box
    /\ box_width box = Rabs (pt_x point - pt_x (drawStart (cv w)))
    /\ box_height box = Rabs (pt_y point - pt_y (drawStart (cv w)))
    /\ app w' = app w.
Proof.
  intros Hp H1 H2 H3 H4 H6. cbv zeta. unfold handleMouseMove.
  rewrite Hp. cbv zeta. rewrite H1, H2, H3, H4, H6.
  cbn [negb andb orb].
  rewrite andb_false_r, orb_true_r.
  set (point := screenToCanvas _ _ _ _).
  eexists. split.
  { destruct (potentialSelection (cv w) && _); reflexivity. }
  cbn [box_x box_y box_width box_height]. unfold insideBox.
  cbn [box_x box_y box_width box_height].
  set (sx := pt_x (drawStart (cv w))). set (sy := pt_y (drawStart (cv w))).
  set (px := pt_x point). set (py := pt_y point).
  assert (forall a b, 0 <= Rabs (b - a)
                      /\ Rmin a b <= a <= Rmin a b + Rabs (b - a)
                      /\ Rmin a b <= b <= Rmin a b + Rabs (b - a)) as Hspan.
  { intros a b. unfold Rmin, Rabs.
    destruct (Rle_dec a b), (Rcase_abs (b - a)); lra. }
  destruct (Hspan sx px) as [Hx0 [Hx1 Hx2]].
  destruct (Hspan sy py) as [Hy0 [Hy1 Hy2]].
  repeat split; tauto.
Qed.

Lemma selection_box_spans_the_drag_witness :
  let w := sampleWorld [rect100] [] (boxSelectingFrom 200 200) in
  let e := pointerAt 150 260 in
  let point :=
    screenToCanvas (canvas w) (viewTransform (cv w)) (clientX e) (clientY e) in
  let w' := handleMouseMove e w in
  exists box,
    selectionBox (cv w') = Some box
    /\ 0 <= box_width box /\ 0 <= box_height box
    /\ insideBox (mkPoint 200 200) box
    /\ insideBox point box
    /\ box_width box = Rabs (pt_x point - 200)
    /\ box_height box = Rabs (pt_y point - 200)
    /\ app w' = app w.
Proof.
  cbv zeta.
  apply (selection_box_spans_the_drag (pointerAt 150 260)
           (sampleWorld [rect100] [] (boxSelectingFrom 200 200))
           (sampleProject [rect100])); reflexivity.
Defined.

(** X14.  A press on empty canvas turns into a box selection only once
    the pointer is more than 5 world units from the point where it went
    down: up to that distance a move changes no gesture state, beyond it
    the move ends the pending press and starts the selection, without a
    box yet. *)
Theorem box_selection_starts_beyond_five (e : MouseEvent) (w : World)
        (project : Project) :
  currentProject (app w) = Some project ->
  isPanning (cv w) = false ->
  isRotating (cv w) = false ->
  isScaling (cv w) = false ->
  isDragging (cv w) = false ->
  isDrawing (cv w) = false ->
  isSelecting (cv w) = false ->
  potentialSelection (cv w) = true ->
  tool (app w) = ToolSelect ->
  let point :=
    screenToCanvas (canvas w) (viewTransform (cv w)) (clientX e) (clientY e) in
  let distance :=
    sqrt ((pt_x point - pt_x (drawStart (cv w))) ^ 2
          + (pt_y point - pt_y (drawStart (cv w))) ^ 2) in
  let w' := handleMouseMove e w in
  (distance <= 5 ->
   potentialSelection (cv w') = true /\ isSelecting (cv w') = false)
  /\ (5 < distance ->
      potentialSelection (cv w') = false /\ isSelecting (cv w') = true)
  /\ selectionBox (cv w') = selectionBox (cv w)
  /\ drawStart (cv w') = drawStart (cv w)
  /\ app w' = app w.
Proof.
  intros Hp H1 H2 H3 H4 H5 H6 H7 Ht. cbv zeta. unfold handleMouseMove.
  rewrite Hp. cbv zeta. rewrite H1, H2, H3, H4, H5, H6, H7, Ht.
  cbn [negb andb orb].
  set (distance := sqrt _).
  by_cases_on (Rgtb distance 5); cbn [cv app withCv].
  - split; [intros H; lra|]. split; [intros _; split; reflexivity|].
    repeat split.
  - split; [intros _; cbn; split; [exact H7 | exact H6]|].
    split; [intros H; lra|]. repeat split.
Qed.

Lemma box_selection_starts_beyond_five_witness :
  let w := sampleWorld [rect100] [] (pressedAt 200 200) in
  let e := pointerAt 203 204 in
  let point :=
    screenToCanvas (canvas w) (viewTransform (cv w)) (clientX e) (clientY e) in
  let distance :=
    sqrt ((pt_x point - 200) ^ 2 + (pt_y point - 200) ^ 2) in
  let w' := handleMouseMove e w in
  (distance <= 5 ->
   potentialSelection (cv w') = true /\ isSelecting (cv w') = false)
  /\ (5 < distance ->
      potentialSelection (cv w') = false /\ isSelecting (cv w') = true)
  /\ selectionBox (cv w') = None
  /\ drawStart (cv w') = mkPoint 200 200
  /\ app w' = app w.
Proof.
  cbv zeta.
  apply (box_selection_starts_beyond_five (pointerAt 203 204)
           (sampleWorld [rect100] [] (pressedAt 200 200))
           (sampleProject [rect100])); reflexivity.
Defined.

(** ** Scaling a text *)

(** X15.  Scaling a text never takes its font size below 8: with the
    east, north-east or south-east handle a pointer move sets the font
    size to the larger of 8 and the old size plus half the sum of the
    pointer deltas, leaving position and content alone; with any other
    handle the move changes nothing. *)
Theorem text_scaling_keeps_font_size_floor
        (e : MouseEvent) (w : World) (project : Project) (h : Handle)
        (sel0 : string) (b : BaseElement) (content : string) (fontSize : R)
        (fontFamily : string) (i : nat) :
  currentProject (app w) = Some project ->
  truthy (currentProjectId (app w)) = true ->
  isPanning (cv w) = false ->
  isRotating (cv w) = false ->
  isScaling (cv w) = true ->
  scaleHandle (cv w) = Some h ->
  selectedElementIds (app w) = [sel0] ->
  findById (elements project) sel0
  = Some (Text b content fontSize fontFamily) ->
  nth_error (elements project) i = Some (Text b content fontSize fontFamily) ->
  let point :=
    screenToCanvas (canvas w) (viewTransform (cv w)) (clientX e) (clientY e) in
  let dx := pt_x point - pt_x (drawStart (cv w)) in
  let dy := pt_y point - pt_y (drawStart (cv w)) in
  let newFontSize := Rmax 8 (fontSize + (dx + dy) / 2) in
  let w' := handleMouseMove e w in
  (h = He \/ h = Hne \/ h = Hse ->
   8 <= newFontSize
   /\ drawStart (cv w') = point
   /\ exists project',
       currentProject (app w') = Some project'
       /\ nth_error (elements project') i
          = Some (Text b content newFontSize fontFamily))
  /\ (h <> He /\ h <> Hne /\ h <> Hse -> w' = w).
Proof.
  intros Hp Ht Hpan Hrot Hsc Hh Hsel Hf Hi. cbv zeta.
  unfold handleMouseMove. rewrite Hp. cbv zeta.
  rewrite Hpan, Hrot, Hsc, Hh, Hsel.
  cbn [negb andb length Nat.eqb soleSelected].
  unfold scaleMove. rewrite Hf.
  assert (Hid : elemId (Text b content fontSize fontFamily) = sel0).
  { apply find_some_holds in Hf. apply String.eqb_eq in Hf. exact Hf. }
  set (point := screenToCanvas _ _ _ _).
  set (nf := Rmax 8 _).
  assert (Hgo :
    8 <= nf
    /\ drawStart
         (cv (withCv
                (withApp w
                   (updateElement (app w) sel0 (updFontSize nf) true (app w)))
                (setDrawStart point (cv w)))) = point
    /\ exists project',
        currentProject
          (app (withCv
                  (withApp w
                     (updateElement (app w) sel0 (updFontSize nf) true
                                    (app w)))
                  (setDrawStart point (cv w)))) = Some project'
        /\ nth_error (elements project') i
           = Some (Text b content nf fontFamily)).
  { split; [apply Rmax_l|]. split; [reflexivity|].
    eexists. split.
    - cbn [app withCv withApp].
      apply currentProject_updateElement_skip;
        [reflexivity | exact Ht | exact Hp].
    - cbn [elements withElements]. rewrite nth_error_map, Hi.
      cbn [option_map]. rewrite <- Hid, updateOne_same.
      destruct b; reflexivity. }
  split.
  - intros [E|[E|E]]; rewrite E; exact Hgo.
  - intros [N1 [N2 N3]]. destruct h; try reflexivity; contradiction.
Qed.

Lemma text_scaling_keeps_font_size_floor_witness :
  let w := scalingText Hse in
  let e := pointerAt (-40) (-30) in
  let point :=
    screenToCanvas (canvas w) (viewTransform (cv w)) (clientX e) (clientY e) in
  let dx := pt_x point - pt_x (drawStart (cv w)) in
  let dy := pt_y point - pt_y (drawStart (cv w)) in
  let newFontSize := Rmax 8 (16 + (dx + dy) / 2) in
  let w' := handleMouseMove e w in
  (Hse = He \/ Hse = Hne \/ Hse = Hse ->
   8 <= newFontSize
   /\ drawStart (cv w') = point
   /\ exists project',
       currentProject (app w') = Some project'
       /\ nth_error (elements project') 0
          = Some (Text (plainBase "t1" 0 0) "Text" newFontSize "Arial"))
  /\ (Hse <> He /\ Hse <> Hne /\ Hse <> Hse -> w' = w).
Proof.
  cbv zeta.
  apply (text_scaling_keeps_font_size_floor (pointerAt (-40) (-30))
           (scalingText Hse) (sampleProject [label16]) Hse "t1"
           (plainBase "t1" 0 0) "Text" 16 "Arial" 0); reflexivity.
Defined.

(** ** Drawing a shape *)

Lemma handleMouseDown_drawing_tool (e : MouseEvent) (w : World)
      (project : Project) :
  currentProject (app w) = Some project ->
  button e = 0%Z ->
  altKey e = false ->
  tool (app w) = ToolLine \/ tool (app w) = ToolRectangle
  \/ tool (app w) = ToolCircle ->
  handleMouseDown e w
  = withCv w
      (setDrawStart
         (screenToCanvas (canvas w) (viewTransform (cv w)) (clientX e)
                         (clientY e))
         (setIsDrawing true (cv w))).
Proof.
  intros Hp Hb Ha Ht. unfold handleMouseDown, grabHandle.
  rewrite Hp. cbv zeta. rewrite Hb, Ha. cbn [Z.eqb orb andb].
  destruct Ht as [Ht|[Ht|Ht]]; rewrite Ht; reflexivity.
Qed.

Lemma drawPreview_some (w : World) (project : Project) (point : Point) :
  tool (app w) = ToolLine \/ tool (app w) = ToolRectangle
  \/ tool (app w) = ToolCircle ->
  exists el, drawPreview w project point = Some el.
Proof.
  intros [Ht|[Ht|Ht]]; unfold drawPreview; rewrite Ht; eexists; reflexivity.
Qed.

Lemma handleMouseMove_drawing (e : MouseEvent) (t : Tool) (w : World)
      (project : Project) (start : Point) :
  drawingWith t w project start ->
  handleMouseMove e w
  = idUsed
      (withCv w
         (setTempElement
            (drawPreview w project
               (screenToCanvas (canvas w) (viewTransform (cv w)) (clientX e)
                               (clientY e)))
            (cv w))).
Proof.
  intros [Hp [_ [Ht [Hk [H1 [H2 [H3 [H4 [H5 [H6 [H7 _]]]]]]]]]]].
  unfold handleMouseMove. rewrite Hp. cbv zeta.
  rewrite H1, H2, H3, H4, H5, H6, H7. cbn [negb andb orb].
  rewrite <- Ht in Hk.
  destruct (drawPreview_some w project
              (screenToCanvas (canvas w) (viewTransform (cv w)) (clientX e)
                              (clientY e)) Hk) as [el ->].
  reflexivity.
Qed.

Lemma previewsLater_cv (w1 w : World) (n : nat) :
  previewsLater w1 w n ->
  viewTransform (cv w) = viewTransform (cv w1)
  /\ drawStart (cv w) = drawStart (cv w1)
  /\ isPanning (cv w) = isPanning (cv w1)
  /\ isRotating (cv w) = isRotating (cv w1)
  /\ isScaling (cv w) = isScaling (cv w1)
  /\ isDragging (cv w) = isDragging (cv w1)
  /\ potentialSelection (cv w) = potentialSelection (cv w1)
  /\ isSelecting (cv w) = isSelecting (cv w1)
  /\ isDrawing (cv w) = isDrawing (cv w1).
Proof.
  intros [_ [_ [_ [_ H]]]].
  repeat split;
    [ apply (f_equal viewTransform) in H | apply (f_equal drawStart) in H
    | apply (f_equal isPanning) in H | apply (f_equal isRotating) in H
    | apply (f_equal isScaling) in H | apply (f_equal isDragging) in H
    | apply (f_equal potentialSelection) in H
    | apply (f_equal isSelecting) in H | apply (f_equal isDrawing) in H ];
    exact H.
Qed.

Lemma previewsLater_drawing (t : Tool) (w1 w : World) (n : nat)
      (project : Project) (start : Point) :
  drawingWith t w1 project start ->
  previewsLater w1 w n ->
  drawingWith t w project start.
Proof.
  intros Hd Hl.
  destruct (previewsLater_cv w1 w n Hl)
    as [_ [K1 [K2 [K3 [K4 [K5 [K6 [K7 K8]]]]]]]].
  destruct Hl as [Ha _]. unfold drawingWith in *.
  rewrite Ha, K1, K2, K3, K4, K5, K6, K7, K8. exact Hd.
Qed.

Lemma previewsLater_step (e : MouseEvent) (t : Tool) (w1 w : World)
      (n : nat) (project : Project) (start : Point) :
  drawingWith t w1 project start ->
  previewsLater w1 w n ->
  previewsLater w1 (handleMouseMove e w) (S n).
Proof.
  intros Hd Hl.
  rewrite (handleMouseMove_drawing e t w project start
             (previewsLater_drawing t w1 w n project start Hd Hl)).
  destruct Hl as [Ha [Hc [Hi [Hn Hcv]]]].
  unfold previewsLater. cbn [app canvas ids nextId cv idUsed withCv].
  repeat split; try assumption.
  rewrite Hn. symmetry. apply Nat.add_succ_r.
Qed.

Lemma previewsLater_run (t : Tool) (w1 : World) (project : Project)
      (start : Point) (moves : list MouseEvent) :
  drawingWith t w1 project start ->
  forall w n,
    previewsLater w1 w n ->
    previewsLater w1 (pointerMoves moves w) (n + List.length moves).
Proof.
  intros Hd. unfold pointerMoves.
  induction moves as [|m rest IH]; intros w n Hl.
  - cbn. rewrite Nat.add_0_r. exact Hl.
  - cbn [fold_left List.length]. rewrite Nat.add_succ_r.
    apply (IH _ (S n)).
    apply (previewsLater_step m t w1 w n project start Hd Hl).
Qed.

Lemma drawPreview_later (w1 w : World) (n : nat) (project : Project)
      (point : Point) :
  previewsLater w1 w n ->
  drawPreview w project point
  = drawPreview (idsUsed n w1) project point.
Proof.
  intros Hl. destruct (previewsLater_cv w1 w n Hl) as [_ [Hs _]].
  destruct Hl as [Ha [_ [Hi [Hn _]]]].
  unfold drawPreview, generateId.
  cbn [cv app ids nextId idsUsed]. rewrite Ha, Hi, Hn, Hs. reflexivity.
Qed.

Lemma handleMouseUp_drawing (t : Tool) (w : World) (project : Project)
      (start : Point) (temp : CanvasElement) :
  drawingWith t w project start ->
  tempElement (cv w) = Some temp ->
  handleMouseUp w
  = withApp
      (withCv w (setIsDrawing false (setTempElement None (cv w))))
      (setTool ToolSelect (addElement (app w) temp (app w))).
Proof.
  intros [Hp [_ [_ [_ [H1 [H2 [H3 [H4 [H5 [H6 [H7 _]]]]]]]]]]] Htemp.
  unfold handleMouseUp. rewrite Hp. cbv zeta.
  rewrite H1, H2, H3, H4, H5, H6, H7, Htemp.
  destruct (selectionBox (cv w)); reflexivity.
Qed.

(** A whole drawing gesture: press, at least one move, release. *)
Lemma drawing_gesture (t : Tool) (down last : MouseEvent)
      (moves : list MouseEvent) (w : World) (project : Project) :
  currentProject (app w) = Some project ->
  truthy (currentProjectId (app w)) = true ->
  idle (cv w) ->
  tool (app w) = t ->
  t = ToolLine \/ t = ToolRectangle \/ t = ToolCircle ->
  button down = 0%Z ->
  altKey down = false ->
  let start :=
    screenToCanvas (canvas w) (viewTransform (cv w)) (clientX down)
                   (clientY down) in
  let point :=
    screenToCanvas (canvas w) (viewTransform (cv w)) (clientX last)
                   (clientY last) in
  let w1 := handleMouseDown down w in
  let w' := handleMouseUp (pointerMoves (moves ++ [last]) w1) in
  exists el,
    drawPreview (idsUsed (List.length moves) w1) project point = Some el
    /\ currentProject (app w')
       = Some (withElements project (elements project ++ [el]))
    /\ tool (app w') = ToolSelect
    /\ isDrawing (cv w') = false
    /\ tempElement (cv w') = None.
Proof.
  intros Hp Ht [I1 [I2 [I3 [I4 [I5 [I6 I7]]]]]] Htool Hk Hb Ha. cbv zeta.
  assert (Hk' : tool (app w) = ToolLine \/ tool (app w) = ToolRectangle
                \/ tool (app w) = ToolCircle) by (rewrite Htool; exact Hk).
  rewrite (handleMouseDown_drawing_tool down w project Hp Hb Ha Hk').
  set (start := screenToCanvas (canvas w) (viewTransform (cv w))
                               (clientX down) (clientY down)).
  set (w1 := withCv w (setDrawStart start (setIsDrawing true (cv w)))).
  assert (Hd : drawingWith t w1 project start).
  { unfold drawingWith, w1. cbn [app cv withCv].
    repeat split; assumption. }
  unfold pointerMoves. rewrite fold_left_app. cbn [fold_left].
  fold (pointerMoves moves w1).
  pose proof (previewsLater_run t w1 project start moves Hd w1 0) as Hrun.
  cbn [Nat.add] in Hrun.
  assert (Hl : previewsLater w1 (pointerMoves moves w1) (List.length moves)).
  { apply Hrun. unfold previewsLater. rewrite Nat.add_0_r.
    repeat split. }
  set (wn := pointerMoves moves w1) in *.
  pose proof (previewsLater_drawing t w1 wn _ project start Hd Hl) as Hdn.
  rewrite (handleMouseMove_drawing last t wn project start Hdn).
  destruct (previewsLater_cv w1 wn _ Hl) as [Hvt _].
  destruct Hl as [Happ [Hcan [Hids [Hn Hcv]]]].
  rewrite Hcan, Hvt.
  change (canvas w1) with (canvas w).
  change (viewTransform (cv w1)) with (viewTransform (cv w)).
  set (point := screenToCanvas (canvas w) (viewTransform (cv w))
                               (clientX last) (clientY last)).
  assert (Hprev : drawPreview wn project point
                  = drawPreview (idsUsed (List.length moves) w1) project
                                point).
  { apply drawPreview_later. unfold previewsLater. repeat split; assumption. }
  assert (Hk'' : tool (app wn) = ToolLine \/ tool (app wn) = ToolRectangle
                 \/ tool (app wn) = ToolCircle)
    by (rewrite Happ; exact Hk').
  destruct (drawPreview_some wn project point Hk'') as [el Hel].
  exists el. split; [rewrite <- Hprev; exact Hel|].
  rewrite Hel.
  rewrite (handleMouseUp_drawing t _ project start el).
  - cbn [app cv withApp withCv idUsed]. split; [|repeat split].
    unfold currentProject. cbn [projects currentProjectId setTool].
    rewrite Happ.
    apply (currentProject_addElement (app w1) project el); assumption.
  - destruct Hdn
      as [D1 [D2 [D3 [D4 [D5 [D6 [D7 [D8 [D9 [D10 [D11 D12]]]]]]]]]]].
    unfold drawingWith. cbn [app cv idUsed withCv].
    repeat split; assumption.
  - reflexivity.
Qed.

(** X16.  Drawing a line: press, any run of pointer moves and release
    with the line tool append one line from the world point of the press
    to the world point of the last move, with a newly generated
    identifier and with [lengthCm] the length of the segment over
    [pixelsPerCm]; the tool goes back to select and the preview is
    dropped. *)
Theorem draw_line_gesture (down last : MouseEvent)
        (moves : list MouseEvent) (w : World) (project : Project) :
  currentProject (app w) = Some project ->
  truthy (currentProjectId (app w)) = true ->
  idle (cv w) ->
  tool (app w) = ToolLine ->
  button down = 0%Z ->
  altKey down = false ->
  let start :=
    screenToCanvas (canvas w) (viewTransform (cv w)) (clientX down)
                   (clientY down) in
  let point :=
    screenToCanvas (canvas w) (viewTransform (cv w)) (clientX last)
                   (clientY last) in
  let w' :=
    handleMouseUp (pointerMoves (moves ++ [last]) (handleMouseDown down w)) in
  exists b lengthCm,
    currentProject (app w')
    = Some (withElements project
              (elements project
               ++ [Line b (pt_x point) (pt_y point) lengthCm]))
    /\ mkPoint (el_x b) (el_y b) = start
    /\ el_id b = ids w (nextId w + List.length moves)%nat
    /\ lengthConsistent (pixelsPerCm project)
                        (Line b (pt_x point) (pt_y point) lengthCm)
    /\ tool (app w') = ToolSelect
    /\ isDrawing (cv w') = false
    /\ tempElement (cv w') = None.
Proof.
  intros Hp Ht Hi Htool Hb Ha. cbv zeta.
  destruct (drawing_gesture ToolLine down last moves w project Hp Ht Hi Htool
              (or_introl eq_refl) Hb Ha)
    as [el [Hel [Hcur [H1 [H2 H3]]]]].
  rewrite (handleMouseDown_drawing_tool down w project Hp Hb Ha
             (or_introl Htool)) in Hel.
  unfold drawPreview in Hel. cbn [app cv idsUsed withCv] in Hel.
  rewrite Htool in Hel. injection Hel as <-.
  eexists. eexists. split; [exact Hcur|].
  cbn [el_x el_y el_id drawStart setDrawStart].
  split; [destruct (screenToCanvas _ _ (clientX down) _); reflexivity|].
  split; [reflexivity|].
  split; [|repeat split; assumption].
  unfold lengthConsistent, calculateDistance. cbn [el_x el_y].
  f_equal. f_equal. ring.
Qed.

Lemma draw_line_gesture_witness :
  let w := toolWorld ToolLine [] in
  let down := pointerAt 0 0 in
  let last := pointerAt 100 0 in
  let moves := [pointerAt 40 30] in
  let start :=
    screenToCanvas (canvas w) (viewTransform (cv w)) (clientX down)
                   (clientY down) in
  let point :=
    screenToCanvas (canvas w) (viewTransform (cv w)) (clientX last)
                   (clientY last) in
  let w' :=
    handleMouseUp (pointerMoves (moves ++ [last]) (handleMouseDown down w)) in
  exists b lengthCm,
    currentProject (app w')
    = Some (withElements (sampleProject [])
              ([] ++ [Line b (pt_x point) (pt_y point) lengthCm]))
    /\ mkPoint (el_x b) (el_y b) = start
    /\ el_id b = sampleIds (0 + 1)
    /\ lengthConsistent 10 (Line b (pt_x point) (pt_y point) lengthCm)
    /\ tool (app w') = ToolSelect
    /\ isDrawing (cv w') = false
    /\ tempElement (cv w') = None.
Proof.
  cbv zeta.
  apply (draw_line_gesture (pointerAt 0 0) (pointerAt 100 0)
           [pointerAt 40 30] (toolWorld ToolLine []) (sampleProject []));
    try reflexivity.
  repeat split.
Defined.

(** X17.  Drawing a rectangle in any direction gives a normalised
    rectangle: its width and height are not negative, the points of the
    press and of the last move are opposite corners of it, and its
    centimetre fields are its width and height over [pixelsPerCm]. *)
Theorem draw_rectangle_gesture (down last : MouseEvent)
        (moves : list MouseEvent) (w : World) (project : Project) :
  currentProject (app w) = Some project ->
  truthy (currentProjectId (app w)) = true ->
  idle (cv w) ->
  tool (app w) = ToolRectangle ->
  button down = 0%Z ->
  altKey down = false ->
  let start :=
    screenToCanvas (canvas w) (viewTransform (cv w)) (clientX down)
                   (clientY down) in
  let point :=
    screenToCanvas (canvas w) (viewTransform (cv w)) (clientX last)
                   (clientY last) in
  let w' :=
    handleMouseUp (pointerMoves (moves ++ [last]) (handleMouseDown down w)) in
  exists b width height,
    currentProject (app w')
    = Some (withElements project
              (elements project
               ++ [Rectangle b width height (width / pixelsPerCm project)
                             (height / pixelsPerCm project)]))
    /\ 0 <= width /\ 0 <= height
    /\ (pt_x start = el_x b /\ pt_x point = el_x b + width
        \/ pt_x point = el_x b /\ pt_x start = el_x b + width)
    /\ (pt_y start = el_y b /\ pt_y point = el_y b + height
        \/ pt_y point = el_y b /\ pt_y start = el_y b + height)
    /\ el_rotation b = None
    /\ tool (app w') = ToolSelect.
Proof.
  intros Hp Ht Hi Htool Hb Ha. cbv zeta.
  destruct (drawing_gesture ToolRectangle down last moves w project Hp Ht Hi
              Htool (or_intror (or_introl eq_refl)) Hb Ha)
    as [el [Hel [Hcur [H1 _]]]].
  rewrite (handleMouseDown_drawing_tool down w project Hp Hb Ha
             (or_intror (or_introl Htool))) in Hel.
  unfold drawPreview in Hel. cbn [app cv idsUsed withCv] in Hel.
  rewrite Htool in Hel. injection Hel as <-.
  eexists. eexists. eexists. split; [exact Hcur|].
  cbn [el_x el_y el_rotation drawStart setDrawStart].
  set (sx := pt_x (screenToCanvas _ _ (clientX down) _)).
  set (sy := pt_y (screenToCanvas _ _ (clientX down) _)).
  set (px := pt_x (screenToCanvas _ _ (clientX last) _)).
  set (py := pt_y (screenToCanvas _ _ (clientX last) _)).
  assert (forall a c, 0 <= Rabs (c - a)
                      /\ (a = Rmin a c /\ c = Rmin a c + Rabs (c - a)
                          \/ c = Rmin a c /\ a = Rmin a c + Rabs (c - a)))
    as Hspan.
  { intros a c. unfold Rmin, Rabs.
    destruct (Rle_dec a c), (Rcase_abs (c - a)); lra. }
  destruct (Hspan sx px) as [Hx0 Hx]. destruct (Hspan sy py) as [Hy0 Hy].
  repeat split; assumption.
Qed.

Lemma draw_rectangle_gesture_witness :
  let w := toolWorld ToolRectangle [] in
  let down := pointerAt 50 60 in
  let last := pointerAt 20 90 in
  let start :=
    screenToCanvas (canvas w) (viewTransform (cv w)) (clientX down)
                   (clientY down) in
  let point :=
    screenToCanvas (canvas w) (viewTransform (cv w)) (clientX last)
                   (clientY last) in
  let w' :=
    handleMouseUp (pointerMoves ([] ++ [last]) (handleMouseDown down w)) in
  exists b width height,
    currentProject (app w')
    = Some (withElements (sampleProject [])
              ([] ++ [Rectangle b width height (width / 10) (height / 10)]))
    /\ 0 <= width /\ 0 <= height
    /\ (pt_x start = el_x b /\ pt_x point = el_x b + width
        \/ pt_x point = el_x b /\ pt_x start = el_x b + width)
    /\ (pt_y start = el_y b /\ pt_y point = el_y b + height
        \/ pt_y point = el_y b /\ pt_y start = el_y b + height)
    /\ el_rotation b = None
    /\ tool (app w') = ToolSelect.
Proof.
  cbv zeta.
  apply (draw_rectangle_gesture (pointerAt 50 60) (pointerAt 20 90) []
           (toolWorld ToolRectangle []) (sampleProject []));
    try reflexivity.
  repeat split.
Defined.

(** ** Undo and redo *)

Lemma slice0_length {A : Type} (k : Z) (l : list A) :
  (0 <= k <= Z.of_nat (List.length l))%Z ->
  List.length (slice0 k l) = Z.to_nat k.
Proof.
  intros Hk. unfold slice0.
  destruct (Z.ltb_spec k 0) as [Hlt|_]; [lia|].
  rewrite length_firstn. lia.
Qed.

Lemma slice0_nth {A : Type} (k : Z) (l : list A) (n : nat) :
  (0 <= k)%Z -> (n < Z.to_nat k)%nat ->
  nth_error (slice0 k l) n = nth_error l n.
Proof.
  intros Hk Hn. unfold slice0.
  destruct (Z.ltb_spec k 0) as [Hlt|_]; [lia|].
  rewrite nth_error_firstn.
  destruct (Nat.ltb_spec n (Z.to_nat k)); [reflexivity|lia].
Qed.

Lemma saveHistory_fields (r a : App) (new : list Project) :
  history (saveHistory r new a)
  = (slice0 (historyIndex r + 1) (history r) ++ [projects r])%list
  /\ historyIndex (saveHistory r new a)
     = (Z.of_nat (List.length (history (saveHistory r new a))) - 1)%Z
  /\ projects (saveHistory r new a) = new.
Proof. repeat split. Qed.

Lemma saveHistory_index (a : App) (new : list Project) :
  historyInRange a ->
  historyIndex (saveHistory a new a) = (historyIndex a + 1)%Z
  /\ List.length (history (saveHistory a new a))
     = Z.to_nat (historyIndex a + 2).
Proof.
  intros [Hlo Hhi].
  destruct (saveHistory_fields a a new) as [Hh [Hi _]].
  assert (List.length (history (saveHistory a new a))
          = Z.to_nat (historyIndex a + 2)) as Hlen.
  { rewrite Hh, length_app, slice0_length by lia. cbn. lia. }
  split; [|exact Hlen].
  rewrite Hi, Hlen. lia.
Qed.

Lemma redo_at_top (a : App) :
  historyIndex a = (Z.of_nat (List.length (history a)) - 1)%Z ->
  redo a a = Returned a.
Proof.
  intros H. unfold redo. rewrite H, Z.ltb_irrefl. reflexivity.
Qed.

(** X18.  An edit discards what could be redone: right after
    [addElement], [addMultipleElements], [deleteElement] or
    [deleteMultipleElements] has run in an open project, [redo] changes
    nothing, whatever the history held before. *)
Theorem edit_discards_redo (r a a1 : App) (element : CanvasElement)
        (els : list CanvasElement) (i : string) (sel : list string) :
  truthy (currentProjectId r) = true ->
  In a1 [addElement r element a; addMultipleElements r els a;
         deleteElement r i a; deleteMultipleElements r sel a] ->
  redo a1 a1 = Returned a1.
Proof.
  intros Ht Hin. apply redo_at_top.
  unfold addElement, addMultipleElements, deleteElement,
    deleteMultipleElements in Hin.
  rewrite Ht in Hin. cbn [negb] in Hin.
  destruct Hin as [<-|[<-|[<-|[<-|[]]]]]; reflexivity.
Qed.

Lemma edit_discards_redo_witness :
  let r := sampleApp [square20] [] in
  redo (addElement r circle10 r) (addElement r circle10 r)
  = Returned (addElement r circle10 r).
Proof.
  cbv zeta.
  apply (edit_discards_redo (sampleApp [square20] [])
           (sampleApp [square20] []) _ circle10 [] "" []).
  - reflexivity.
  - left. reflexivity.
Defined.

(** X19.  Undo and redo after an edit: when [saveHistory] has recorded an
    edit made with a history index [k >= 0] in range, [undo] puts the
    projects at the entry [k] of the history as it was before the edit,
    and [redo] then puts them at the state the edit started from, which
    is the last entry of the history; the history and its index are then
    as they were right after the edit. *)
Theorem undo_then_redo_returns_to_state_before_edit
        (a : App) (new : list Project) :
  historyInRange a ->
  (0 <= historyIndex a)%Z ->
  let a1 := saveHistory a new a in
  exists old a2 a3,
    index (history a) (historyIndex a) = Some old
    /\ undo a1 a1 = Returned a2
    /\ projects a2 = old
    /\ historyIndex a2 = historyIndex a
    /\ redo a2 a2 = Returned a3
    /\ projects a3 = projects a
    /\ historyIndex a3 = historyIndex a1
    /\ history a3 = history a1.
Proof.
  intros Hr H0 a1.
  destruct (saveHistory_index a new Hr) as [Hi Hlen]. fold a1 in Hi, Hlen.
  destruct (saveHistory_fields a a new) as [Hh _]. fold a1 in Hh.
  destruct Hr as [_ Hhi].
  destruct (nth_error (history a) (Z.to_nat (historyIndex a)))
    as [old|] eqn:Hold.
  2:{ apply nth_error_None in Hold. lia. }
  assert (index (history a) (historyIndex a) = Some old) as Hidx.
  { unfold index. destruct (Z.ltb_spec (historyIndex a) 0); [lia|exact Hold]. }
  assert (index (history a1) (historyIndex a) = Some old) as Hidx1.
  { unfold index. destruct (Z.ltb_spec (historyIndex a) 0); [lia|].
    rewrite Hh, nth_error_app1, slice0_nth by
      (try rewrite slice0_length; lia).
    exact Hold. }
  assert (index (history a1) (historyIndex a + 1) = Some (projects a))
    as Hidx2.
  { unfold index. destruct (Z.ltb_spec (historyIndex a + 1) 0); [lia|].
    rewrite Hh, nth_error_app2 by (rewrite slice0_length; lia).
    rewrite slice0_length by lia.
    replace (Z.to_nat (historyIndex a + 1) - Z.to_nat (historyIndex a + 1))%nat
      with 0%nat by lia.
    reflexivity. }
  exists old.
  eexists. eexists. split; [exact Hidx|].
  split.
  { unfold undo. rewrite Hi.
    destruct (Z.gtb_spec (historyIndex a + 1) 0) as [_|Hn]; [|lia].
    replace (historyIndex a + 1 - 1)%Z with (historyIndex a) by lia.
    cbv zeta. rewrite Hidx1. reflexivity. }
  split; [reflexivity|]. split; [reflexivity|].
  split.
  { unfold redo. cbn [historyIndex history setProjects setHistoryIndex].
    rewrite Hlen.
    destruct (Z.ltb_spec (historyIndex a)
                (Z.of_nat (Z.to_nat (historyIndex a + 2)) - 1)) as [_|Hn];
      [|lia].
    cbv zeta. rewrite Hidx2. reflexivity. }
  split; [reflexivity|].
  split; [cbn [historyIndex setProjects setHistoryIndex]; lia|reflexivity].
Qed.

Lemma undo_then_redo_returns_to_state_before_edit_witness :
  let s0 := [sampleProject []] in
  let s1 := [sampleProject [square20]] in
  let s2 := [sampleProject [square20; circle10]] in
  let a := saveHistory (freshApp s0 (Some "p1"%string)) s1
                       (freshApp s0 (Some "p1"%string)) in
  let a1 := saveHistory a s2 a in
  exists old a2 a3,
    index (history a) (historyIndex a) = Some old
    /\ undo a1 a1 = Returned a2
    /\ projects a2 = old
    /\ historyIndex a2 = historyIndex a
    /\ redo a2 a2 = Returned a3
    /\ projects a3 = projects a
    /\ historyIndex a3 = historyIndex a1
    /\ history a3 = history a1.
Proof.
  cbv zeta.
  apply undo_then_redo_returns_to_state_before_edit.
  - unfold historyInRange. cbn. lia.
  - cbn. lia.
Defined.

(** X20.  The first recorded edit cannot be undone: an edit made at
    history index [-1] leaves the index at [0], where [undo] (and so
    Ctrl+Z) changes nothing. *)
Theorem first_edit_cannot_be_undone (a : App) (new : list Project) :
  historyIndex a = (-1)%Z ->
  let a1 := saveHistory a new a in
  projects a1 = new
  /\ undo a1 a1 = Returned a1
  /\ appKeyDown ctrlZ a1 a1 = Returned a1.
Proof.
  intros H a1.
  assert (undo a1 a1 = Returned a1) as Hu.
  { unfold undo, a1, saveHistory.
    cbn [historyIndex history setProjects setHistoryIndex setHistory].
    rewrite H. reflexivity. }
  repeat split; [exact Hu|].
  unfold appKeyDown. cbn. exact Hu.
Qed.

Lemma first_edit_cannot_be_undone_witness :
  let a := freshApp [sampleProject []] (Some "p1"%string) in
  let a1 := saveHistory a [sampleProject [square20]] a in
  projects a1 = [sampleProject [square20]]
  /\ undo a1 a1 = Returned a1
  /\ appKeyDown ctrlZ a1 a1 = Returned a1.
Proof.
  cbv zeta.
  apply (first_edit_cannot_be_undone
           (freshApp [sampleProject []] (Some "p1"%string))).
  reflexivity.
Defined.

(** The four callbacks of the history keep its index in range: from a
    state whose index points into the history (or is [-1]),
    [saveHistory], [saveCurrentStateToHistory], [undo] and [redo] lead to
    such a state again.  The arrow keys do not, see below. *)
Lemma history_callbacks_keep_range (a : App) (new : list Project) :
  historyInRange a ->
  historyInRange (saveHistory a new a)
  /\ historyInRange (saveCurrentStateToHistory a a)
  /\ (exists a', undo a a = Returned a' /\ historyInRange a')
  /\ (exists a', redo a a = Returned a' /\ historyInRange a').
Proof.
  intros Hr.
  destruct (saveHistory_index a new Hr) as [Hi Hlen].
  pose proof Hr as [Hlo Hhi].
  split; [unfold historyInRange; rewrite Hi, Hlen; lia|].
  split.
  { unfold historyInRange in *.
    change (history (saveCurrentStateToHistory a a))
      with (history (saveHistory a new a)).
    change (historyIndex (saveCurrentStateToHistory a a))
      with (historyIndex (saveHistory a new a)).
    rewrite Hi, Hlen. lia. }
  split.
  - unfold undo.
    destruct (Z.gtb_spec (historyIndex a) 0) as [Hpos|Hn].
    + cbv zeta. unfold index.
      destruct (Z.ltb_spec (historyIndex a - 1) 0); [lia|].
      destruct (nth_error (history a) (Z.to_nat (historyIndex a - 1)))
        as [s|] eqn:Hs.
      * eexists. split; [reflexivity|].
        unfold historyInRange. cbn. lia.
      * apply nth_error_None in Hs. lia.
    + eexists. split; [reflexivity|exact Hr].
  - unfold redo.
    destruct (Z.ltb_spec (historyIndex a)
                (Z.of_nat (List.length (history a)) - 1)) as [Hlt|Hn].
    + cbv zeta. unfold index.
      destruct (Z.ltb_spec (historyIndex a + 1) 0); [lia|].
      destruct (nth_error (history a) (Z.to_nat (historyIndex a + 1)))
        as [s|] eqn:Hs.
      * eexists. split; [reflexivity|].
        unfold historyInRange. cbn. lia.
      * apply nth_error_None in Hs. lia.
    + eexists. split; [reflexivity|exact Hr].
Qed.

(** ** Keys *)

(** X22.  Keys typed in an input field do not reach the canvas: while an
    [INPUT] or [TEXTAREA] has the focus, every key but Escape leaves the
    project, the selection, the copy buffer and the tool as they are;
    Delete, Backspace, the Ctrl/Cmd shortcuts and the arrows included. *)
Theorem keys_in_input_fields_ignored (e : KeyboardEvent) (w : World) :
  isInputField e = true ->
  key e <> "Escape"%string ->
  handleKeyDown e w = w.
Proof.
  intros Hi Hk. unfold handleKeyDown.
  destruct (currentProject (app w)) as [project|]; [|reflexivity].
  cbv zeta. rewrite Hi. cbn [negb andb].
  apply String.eqb_neq in Hk. rewrite Hk.
  rewrite !andb_false_r. reflexivity.
Qed.

Lemma keys_in_input_fields_ignored_witness :
  handleKeyDown (keyInField "Delete" false)
                (sampleWorld [square20] ["r1"%string] idleCanvas)
  = sampleWorld [square20] ["r1"%string] idleCanvas.
Proof.
  apply keys_in_input_fields_ignored.
  - reflexivity.
  - discriminate.
Defined.

Lemma currentProject_delete (a : App) (project : Project)
      (keep : CanvasElement -> bool) :
  currentProject a = Some project ->
  currentProject
    (setSelectedElementIds []
       (saveHistory a
          (map (fun p =>
                  if isCurrent (currentProjectId a) p
                  then withElements p (filter keep (elements p))
                  else p)
               (projects a)) a))
  = Some (withElements project (filter keep (elements project))).
Proof.
  intros Hp. unfold currentProject, saveHistory in *.
  cbn [projects currentProjectId setProjects setHistoryIndex setHistory
       setSelectedElementIds].
  rewrite find_map_same.
  - rewrite Hp. cbn [option_map].
    rewrite (find_some_holds _ _ _ Hp). reflexivity.
  - intros p. destruct (isCurrent (currentProjectId a) p) eqn:E.
    + unfold isCurrent, withElements in *. cbn [p_id]. exact E.
    + exact E.
Qed.

Lemma includes_map_elemId (els : list CanvasElement) (e : CanvasElement) :
  In e els -> includes (map elemId els) (elemId e) = true.
Proof.
  intros Hin. unfold includes. apply existsb_exists.
  exists (elemId e). split; [apply in_map; exact Hin|apply String.eqb_refl].
Qed.

Lemma filter_none {A : Type} (f : A -> bool) (l : list A) :
  (forall a, In a l -> f a = false) -> filter f l = [].
Proof.
  induction l as [|a l IH]; intros H; [reflexivity|].
  cbn. rewrite (H a (or_introl eq_refl)). apply IH.
  intros b Hb. apply H. right. exact Hb.
Qed.

(** X23.  Select all, then Delete, empties the open project: after
    Ctrl/Cmd+A and Delete (or Backspace) outside an input field the
    current project has no element left, locked elements included, and
    the selection is empty. *)
Theorem select_all_then_delete_empties_project
        (k : string) (w : World) (project : Project) :
  currentProject (app w) = Some project ->
  truthy (currentProjectId (app w)) = true ->
  k = "Delete"%string \/ k = "Backspace"%string ->
  let w' := handleKeyDown (plainKey k) (handleKeyDown (keyWithCtrl "a") w) in
  currentProject (app w') = Some (withElements project [])
  /\ selectedElementIds (app w') = [].
Proof.
  intros Hp Ht Hk. cbv zeta.
  assert (handleKeyDown (keyWithCtrl "a") w
          = withApp w (setSelectedElementIds (map elemId (elements project))
                                             (app w))) as H1.
  { unfold handleKeyDown. rewrite Hp. reflexivity. }
  rewrite H1. clear H1.
  set (a1 := setSelectedElementIds (map elemId (elements project)) (app w)).
  assert (currentProject a1 = Some project) as Hp1 by exact Hp.
  assert (truthy (currentProjectId a1) = true) as Ht1 by exact Ht.
  assert (selectedElementIds a1 = map elemId (elements project)) as Hs
      by reflexivity.
  unfold handleKeyDown. cbn [app withApp cv]. rewrite Hp1. cbv zeta.
  assert ((String.eqb (key (plainKey k)) "Delete"
           || String.eqb (key (plainKey k)) "Backspace")
          && negb (isInputField (plainKey k)) = true) as Hkey.
  { destruct Hk as [-> | ->]; reflexivity. }
  rewrite Hkey, Hs.
  destruct (elements project) as [|e1 [|e2 rest]] eqn:Hels.
  - cbn [map app withApp]. split; [|reflexivity].
    rewrite Hp1. f_equal. destruct project. cbn in Hels. subst.
    reflexivity.
  - cbn [map app withApp]. unfold deleteElement. rewrite Ht1. cbn [negb].
    split; [|reflexivity].
    rewrite (currentProject_delete a1 project _ Hp1). rewrite Hels.
    cbn [filter]. rewrite String.eqb_refl. reflexivity.
  - cbn [map app withApp]. unfold deleteMultipleElements.
    rewrite Ht1. cbn [negb]. split; [|reflexivity].
    rewrite (currentProject_delete a1 project _ Hp1). rewrite Hels.
    f_equal. f_equal. apply filter_none. intros e He.
    change (elemId e1 :: elemId e2 :: map elemId rest)
      with (map elemId (e1 :: e2 :: rest)).
    rewrite (includes_map_elemId _ _ He). reflexivity.
Qed.

Lemma select_all_then_delete_empties_project_witness :
  let w := sampleWorld [square20; lockedCircle] [] idleCanvas in
  let w' :=
    handleKeyDown (plainKey "Delete") (handleKeyDown (keyWithCtrl "a") w) in
  currentProject (app w')
  = Some (withElements (sampleProject [square20; lockedCircle]) [])
  /\ selectedElementIds (app w') = [].
Proof.
  cbv zeta.
  apply (select_all_then_delete_empties_project "Delete"
           (sampleWorld [square20; lockedCircle] [] idleCanvas)
           (sampleProject [square20; lockedCircle])).
  - reflexivity.
  - reflexivity.
  - left. reflexivity.
Defined.

Lemma offsetCopies_same_place (ids : nat -> string) (n m : nat)
      (source : list CanvasElement) (k : nat) (a b : CanvasElement) :
  nth_error (offsetCopies ids n source) k = Some a ->
  nth_error (offsetCopies ids m source) k = Some b ->
  b = withBase a (mkBase (elemId b) (elemX a) (elemY a)
                         (el_color (base a)) (el_fillColor (base a))
                         (el_opacity (base a)) (el_strokeWidth (base a))
                         (el_hideDimensions (base a))
                         (el_rotation (base a)) (el_text (base a))
                         (el_locked (base a))).
Proof.
  revert n m k. induction source as [|s rest IH]; intros n m k Ha Hb.
  - destruct k; discriminate.
  - destruct k as [|k].
    + cbn in Ha, Hb. injection Ha as <-. injection Hb as <-.
      destruct s as [bs ? ? ? | bs ? ? ? ? | bs ? ? ? | bs ? ? ? ? | bs ? ?];
        reflexivity.
    + cbn in Ha, Hb. exact (IH _ _ k Ha Hb).
Qed.

(** X24.  Pasting twice stacks the copies: two Ctrl/Cmd+V in a row over
    the same copy buffer append two batches that are both the source
    moved by (20, 20), so the second batch lies exactly on the first and
    differs from it in the identifiers only; the second batch is the
    selection. *)
Theorem paste_twice_stacks_the_copies (w : World) (project : Project) :
  currentProject (app w) = Some project ->
  truthy (currentProjectId (app w)) = true ->
  copiedElements (cv w) <> [] ->
  let source := copiedElements (cv w) in
  let first := offsetCopies (ids w) (nextId w) source in
  let second :=
    offsetCopies (ids w) (nextId w + List.length source) source in
  let w' :=
    handleKeyDown (keyWithCtrl "v") (handleKeyDown (keyWithCtrl "v") w) in
  currentProject (app w')
  = Some (withElements project (elements project ++ first ++ second))
  /\ selectedElementIds (app w') = map elemId second
  /\ (forall k a b,
         nth_error first k = Some a -> nth_error second k = Some b ->
         b = withBase a (mkBase (elemId b) (elemX a) (elemY a)
                                (el_color (base a)) (el_fillColor (base a))
                                (el_opacity (base a))
                                (el_strokeWidth (base a))
                                (el_hideDimensions (base a))
                                (el_rotation (base a)) (el_text (base a))
                                (el_locked (base a)))).
Proof.
  intros Hp Ht Hne. cbv zeta.
  set (source := copiedElements (cv w)).
  assert (handleKeyDown (keyWithCtrl "v") w = pasteElements source w) as H1.
  { apply (handleKeyDown_paste_or_duplicate _ w project source Hp);
      [reflexivity|reflexivity|].
    left. repeat split. exact Hne. }
  rewrite H1.
  destruct (pasteElements_result source w project Hp Ht)
    as [Hp1 [Hs1 [Hcv1 Hn1]]].
  set (w1 := pasteElements source w) in *.
  assert (truthy (currentProjectId (app w1)) = true) as Ht1.
  { unfold w1, pasteElements, addMultipleElements.
    cbn [app idsUsed withApp]. rewrite Ht. exact Ht. }
  assert (copiedElements (cv w1) = source) as Hc1
      by (rewrite Hcv1; reflexivity).
  assert (handleKeyDown (keyWithCtrl "v") w1 = pasteElements source w1) as H2.
  { apply (handleKeyDown_paste_or_duplicate _ w1 _ source Hp1);
      [reflexivity|reflexivity|].
    left. repeat split. exact Hne. }
  rewrite H2.
  destruct (pasteElements_result source w1 _ Hp1 Ht1)
    as [Hp2 [Hs2 _]].
  assert (ids w1 = ids w) as Hids by reflexivity.
  rewrite Hids, Hn1 in Hp2, Hs2.
  split.
  { rewrite Hp2. unfold withElements. cbn [elements p_id p_name pixelsPerCm
      labelFontSize p_viewTransform]. rewrite <- app_assoc. reflexivity. }
  split; [exact Hs2|].
  intros k a b. apply offsetCopies_same_place.
Qed.

Lemma paste_twice_stacks_the_copies_witness :
  let w :=
    sampleWorld [square20] []
                (setCopiedElements [square20] idleCanvas) in
  let first := offsetCopies (ids w) (nextId w) [square20] in
  let second := offsetCopies (ids w) (nextId w + 1) [square20] in
  let w' :=
    handleKeyDown (keyWithCtrl "v") (handleKeyDown (keyWithCtrl "v") w) in
  currentProject (app w')
  = Some (withElements (sampleProject [square20])
            ([square20] ++ first ++ second))
  /\ selectedElementIds (app w') = map elemId second
  /\ (forall k a b,
         nth_error first k = Some a -> nth_error second k = Some b ->
         b = withBase a (mkBase (elemId b) (elemX a) (elemY a)
                                (el_color (base a)) (el_fillColor (base a))
                                (el_opacity (base a))
                                (el_strokeWidth (base a))
                                (el_hideDimensions (base a))
                                (el_rotation (base a)) (el_text (base a))
                                (el_locked (base a)))).
Proof.
  cbv zeta.
  apply (paste_twice_stacks_the_copies
           (sampleWorld [square20] []
                        (setCopiedElements [square20] idleCanvas))
           (sampleProject [square20])).
  - reflexivity.
  - reflexivity.
  - discriminate.
Defined.

(** ** The properties panel *)

Lemma channels_read_back :
  forallb channelReadsBack (map Z.of_nat (seq 0 256)) = true.
Proof. vm_compute. reflexivity. Qed.

Lemma channelHex_parses (x : Z) :
  exists c1 c2,
    channelHex x = String c1 (String c2 EmptyString)
    /\ parsePair c1 c2 = Some (Z.max 0 (Z.min 255 x)).
Proof.
  set (n := Z.max 0 (Z.min 255 x)).
  assert (channelHex x = channelHex n) as Hx.
  { unfold channelHex.
    replace (Z.max 0 (Z.min 255 n)) with n by (unfold n; lia).
    reflexivity. }
  assert (channelReadsBack n = true) as Hn.
  { pose proof channels_read_back as H.
    rewrite forallb_forall in H. apply H.
    apply in_map_iff. exists (Z.to_nat n).
    split; [unfold n; lia|].
    apply in_seq. unfold n. lia. }
  rewrite Hx. unfold channelReadsBack in Hn.
  destruct (channelHex n) as [|c1 [|c2 [|]]]; try discriminate.
  destruct (parsePair c1 c2) as [v|] eqn:Hv; [|discriminate].
  apply Z.eqb_eq in Hn. subst v.
  exists c1, c2. split; [reflexivity|exact Hv].
Qed.

Lemma hexToRgb_rgbToHex (r g b : Z) :
  hexToRgb (rgbToHex r g b)
  = mkRgb (Z.max 0 (Z.min 255 r)) (Z.max 0 (Z.min 255 g))
          (Z.max 0 (Z.min 255 b)).
Proof.
  destruct (channelHex_parses r) as [r1 [r2 [Hr Pr]]].
  destruct (channelHex_parses g) as [g1 [g2 [Hg Pg]]].
  destruct (channelHex_parses b) as [b1 [b2 [Hb Pb]]].
  unfold rgbToHex. rewrite Hr, Hg, Hb.
  unfold hexToRgb. cbn [String.append String.eqb Ascii.eqb Bool.eqb].
  cbn [sixDigits]. rewrite Pr, Pg, Pb. reflexivity.
Qed.

(** X25.  A colour typed as RGB channels survives the trip through the
    hexadecimal string: [hexToRgb (rgbToHex r g b)] gives the three
    channels back, each clamped to 0 .. 255; so does the colour that
    [handleRgbChange] hands on. *)
Theorem rgb_hex_round_trip (r g b : Z) :
  hexToRgb (rgbToHex r g b)
  = mkRgb (Z.max 0 (Z.min 255 r)) (Z.max 0 (Z.min 255 g))
          (Z.max 0 (Z.min 255 b))
  /\ forall rgbInput channel value,
       let (newRgb, colour) := handleRgbChange rgbInput channel value in
       hexToRgb colour
       = mkRgb (Z.max 0 (Z.min 255 (rgb_r newRgb)))
               (Z.max 0 (Z.min 255 (rgb_g newRgb)))
               (Z.max 0 (Z.min 255 (rgb_b newRgb))).
Proof.
  split; [apply hexToRgb_rgbToHex|].
  intros rgbInput channel value. unfold handleRgbChange.
  apply hexToRgb_rgbToHex.
Qed.

Lemma findById_updateOne (ppc : R) (i : string) (u : Updates)
      (els : list CanvasElement) :
  findById (map (updateOne ppc i u) els) i
  = option_map (updateOne ppc i u) (findById els i).
Proof.
  unfold findById. apply find_map_same.
  intros e. rewrite elemId_updateOne. reflexivity.
Qed.

Lemma currentProject_updateElement (a : App) (elementId : string)
      (u : Updates) (skip : bool) (project : Project) :
  truthy (currentProjectId a) = true ->
  currentProject a = Some project ->
  currentProject (updateElement a elementId u skip a)
  = Some (withElements project
            (map (updateOne (pixelsPerCm project) elementId u)
                 (elements project))).
Proof.
  intros Ht Hp. unfold updateElement. rewrite Ht. cbn [negb].
  rewrite <- (currentProject_updateFn a (currentProjectId a) elementId u
                project eq_refl Hp).
  destruct skip; reflexivity.
Qed.

Lemma toFixed1_tenths (n : Z) : toFixed1 (IZR n / 10) = IZR n / 10.
Proof.
  assert (Hint : forall z, Int_part (IZR z + 1 / 2) = z).
  { intros z. symmetry. apply Int_part_spec. lra. }
  unfold toFixed1. destruct (Rltb (IZR n / 10) 0).
  - replace (- (IZR n / 10) * 10 + 1 / 2) with (IZR (- n) + 1 / 2)
      by (rewrite opp_IZR; field).
    rewrite Hint, opp_IZR. field.
  - replace (IZR n / 10 * 10 + 1 / 2) with (IZR n + 1 / 2) by field.
    rewrite Hint. reflexivity.
Qed.

(** X26.  A size typed in the panel comes back to its field: with one
    element selected and a ratio [pixelsPerCm] that is not zero,
    committing the value [v] in the width or height field of a
    rectangle, the size field of a door or the radius field of a circle
    makes [v] the [value] of that field.  The field then shows
    [v.toFixed(1)], [v] rounded to one decimal, which is [v] itself when
    [v] was typed with at most one decimal. *)
Theorem panel_size_edit_round_trip
        (a : App) (project : Project) (i : string) (element : CanvasElement)
        (field : SizeField) (old v : R) :
  currentProject a = Some project ->
  truthy (currentProjectId a) = true ->
  pixelsPerCm project <> 0 ->
  selectedElementIds a = [i] ->
  findById (elements project) i = Some element ->
  sizeValue (pixelsPerCm project) element field = Some old ->
  exists project' element',
    currentProject (sizeChange a (pixelsPerCm project) field v a)
    = Some project'
    /\ pixelsPerCm project' = pixelsPerCm project
    /\ findById (elements project') i = Some element'
    /\ sizeValue (pixelsPerCm project') element' field = Some v
    /\ shown (pixelsPerCm project') element' field = Some (toFixed1 v)
    /\ forall n : Z,
         v = IZR n / 10 ->
         shown (pixelsPerCm project') element' field = Some v.
Proof.
  intros Hp Ht Hppc Hsel Hfind Hvalue.
  unfold sizeChange, onUpdateElement. rewrite Hsel.
  rewrite (currentProject_updateElement a i _ false project Ht Hp).
  eexists. eexists. split; [reflexivity|].
  cbn [pixelsPerCm elements withElements]. split; [reflexivity|].
  rewrite findById_updateOne, Hfind. cbn [option_map].
  split; [reflexivity|].
  assert (elemId element = i) as Hid.
  { apply find_some_holds in Hfind. apply String.eqb_eq. exact Hfind. }
  rewrite <- Hid, updateOne_same.
  match goal with
  | |- sizeValue ?p ?el ?f = _ /\ _ =>
      assert (Hv : sizeValue p el f = Some v)
  end.
  { destruct field, element; try discriminate Hvalue;
      cbn [spread recompute sizeValue over u_width u_height u_radius
           updWidth updHeight updRadius];
      f_equal; field; exact Hppc. }
  split; [exact Hv|]. unfold shown. rewrite Hv. cbn [option_map].
  split; [reflexivity|].
  intros n ->. rewrite toFixed1_tenths. reflexivity.
Qed.

Lemma panel_size_edit_round_trip_witness :
  let a := sampleApp [square20; circle10] ["c1"%string] in
  exists project' element',
    currentProject (sizeChange a 10 RadiusCm 2.5 a) = Some project'
    /\ pixelsPerCm project' = 10
    /\ findById (elements project') "c1" = Some element'
    /\ sizeValue (pixelsPerCm project') element' RadiusCm = Some 2.5
    /\ shown (pixelsPerCm project') element' RadiusCm
       = Some (toFixed1 2.5)
    /\ forall n : Z,
         2.5 = IZR n / 10 ->
         shown (pixelsPerCm project') element' RadiusCm = Some 2.5.
Proof.
  cbv zeta.
  apply (panel_size_edit_round_trip
           (sampleApp [square20; circle10] ["c1"%string])
           (sampleProject [square20; circle10]) "c1" circle10 RadiusCm
           (10 / 10) 2.5); try reflexivity.
  cbn. lra.
Defined.

(** ** The arrow keys *)

Lemma round_IZR (z : Z) : round (IZR z) = IZR z.
Proof.
  unfold round. f_equal. symmetry. apply Int_part_spec. lra.
Qed.

Lemma round_whole_sum (z : Z) (a : R) :
  round (IZR z + round a) = IZR z + round a.
Proof.
  unfold round at 2 3. rewrite <- plus_IZR. apply round_IZR.
Qed.

Lemma round_whole_diff (z : Z) (a : R) :
  round (IZR z + - round a) = IZR z + - round a.
Proof.
  unfold round at 2 3. rewrite <- opp_IZR, <- plus_IZR. apply round_IZR.
Qed.

Lemma round_whole_same (z : Z) : round (IZR z + 0) = IZR z + 0.
Proof. rewrite Rplus_0_r. apply round_IZR. Qed.

Lemma isArrow_cases (k : string) :
  isArrow k = true ->
  k = "ArrowUp"%string \/ k = "ArrowDown"%string
  \/ k = "ArrowLeft"%string \/ k = "ArrowRight"%string.
Proof.
  unfold isArrow. rewrite !orb_true_iff, !String.eqb_eq. tauto.
Qed.

Lemma handleKeyDown_arrow (e : KeyboardEvent) (w : World)
      (project : Project) (i : string) (element : CanvasElement) :
  currentProject (app w) = Some project ->
  isArrow (key e) = true ->
  isInputField e = false ->
  selectedElementIds (app w) = [i] ->
  findById (elements project) i = Some element ->
  let (dx, dy) := arrowDelta project e in
  handleKeyDown e w
  = withApp w
      (updateElement (app w) i
         (updNudge (round (elemX element + dx)) (round (elemY element + dy))
                   match element with
                   | Line _ endX endY _ =>
                       Some (round (endX + dx), round (endY + dy))
                   | _ => None
                   end)
         false (app w)).
Proof.
  intros Hp Hk Hi Hsel Hfind.
  unfold handleKeyDown, arrowDelta. rewrite Hp. cbv zeta.
  rewrite Hk, Hi, Hsel.
  destruct (isArrow_cases _ Hk) as [E|[E|[E|E]]]; rewrite E;
    cbn [String.eqb Ascii.eqb Bool.eqb andb orb negb];
    rewrite ?andb_false_r; cbn [andb List.length Nat.ltb Nat.leb];
    cbn [fold_left]; unfold nudge; rewrite Hfind; reflexivity.
Qed.

(** X27.  An arrow key moves the selected element by whole pixels: with
    one element selected whose position is on whole pixels, an arrow key
    outside an input field adds exactly (dx, dy) to its position, where
    the step is [round (0.5 * pixelsPerCm)], or [round (pixelsPerCm)]
    with Shift; a line with whole end coordinates keeps its vector.  A
    locked element is moved like any other. *)
Theorem arrow_key_moves_by_whole_pixels
        (e : KeyboardEvent) (w : World) (project : Project) (i : string)
        (element : CanvasElement) (m n : Z) :
  currentProject (app w) = Some project ->
  truthy (currentProjectId (app w)) = true ->
  isArrow (key e) = true ->
  isInputField e = false ->
  selectedElementIds (app w) = [i] ->
  findById (elements project) i = Some element ->
  elemX element = IZR m ->
  elemY element = IZR n ->
  let (dx, dy) := arrowDelta project e in
  exists project' element',
    currentProject (app (handleKeyDown e w)) = Some project'
    /\ findById (elements project') i = Some element'
    /\ elemX element' = elemX element + dx
    /\ elemY element' = elemY element + dy
    /\ locked element' = locked element
    /\ forall b p q lengthCm,
         element = Line b (IZR p) (IZR q) lengthCm ->
         exists b' lengthCm',
           element' = Line b' (IZR p + dx) (IZR q + dy) lengthCm'.
Proof.
  intros Hp Ht Hk Hi Hsel Hfind Hx Hy.
  pose proof (handleKeyDown_arrow e w project i element Hp Hk Hi Hsel Hfind)
    as Hkey.
  assert (elemId element = i) as Hid.
  { apply find_some_holds in Hfind. apply String.eqb_eq. exact Hfind. }
  assert (exists sx sy,
             arrowDelta project e = (sx, sy)
             /\ (forall z, round (IZR z + sx) = IZR z + sx)
             /\ (forall z, round (IZR z + sy) = IZR z + sy))
    as [dx [dy [Hd [Hrx Hry]]]].
  { unfold arrowDelta.
    destruct (String.eqb (key e) "ArrowLeft");
      [|destruct (String.eqb (key e) "ArrowRight");
        [|destruct (String.eqb (key e) "ArrowUp")]];
      eexists; eexists; (split; [reflexivity|]); split; intros z;
      first [apply round_whole_sum | apply round_whole_diff
            | apply round_whole_same]. }
  rewrite Hd in *. rewrite Hkey. cbn [app withApp].
  rewrite (currentProject_updateElement (app w) i _ false project Ht Hp).
  eexists. eexists. split; [reflexivity|].
  cbn [elements withElements].
  rewrite findById_updateOne, Hfind. cbn [option_map].
  split; [reflexivity|].
  rewrite <- Hid, updateOne_same.
  rewrite Hx, Hy, Hrx, Hry.
  destruct element as [b ex ey l | b ? ? ? ? | b ? ? ? | b ? ? ? ? | b ? ?];
    unfold elemX, elemY, locked in *; cbn [base] in *;
    cbn [spread recompute updNudge updXY updLine spreadBase over u_x u_y
         u_endX u_endY u_locked u_lengthCm base el_x el_y el_locked];
    (repeat split; try reflexivity);
    try (intros b0 p q l0 Hl; discriminate Hl).
  intros b0 p q l0 Hl. injection Hl as -> -> -> ->.
  rewrite Hrx, Hry. eexists. eexists. reflexivity.
Qed.

Lemma arrow_key_moves_by_whole_pixels_witness :
  let w := sampleWorld [lockedCircle] ["c1"%string] idleCanvas in
  let (dx, dy) := arrowDelta (sampleProject [lockedCircle])
                             (plainKey "ArrowRight") in
  exists project' element',
    currentProject (app (handleKeyDown (plainKey "ArrowRight") w))
    = Some project'
    /\ findById (elements project') "c1" = Some element'
    /\ elemX element' = elemX lockedCircle + dx
    /\ elemY element' = elemY lockedCircle + dy
    /\ locked element' = locked lockedCircle
    /\ forall b p q lengthCm,
         lockedCircle = Line b (IZR p) (IZR q) lengthCm ->
         exists b' lengthCm',
           element' = Line b' (IZR p + dx) (IZR q + dy) lengthCm'.
Proof.
  cbv zeta.
  apply (arrow_key_moves_by_whole_pixels (plainKey "ArrowRight")
           (sampleWorld [lockedCircle] ["c1"%string] idleCanvas)
           (sampleProject [lockedCircle]) "c1" lockedCircle 0 0);
    reflexivity.
Defined.

(** ** A drag and the history *)

Lemma history_updateElement_skip (r a : App) (i : string) (u : Updates) :
  history (updateElement r i u true a) = history a
  /\ historyIndex (updateElement r i u true a) = historyIndex a.
Proof.
  unfold updateElement. destruct (negb (truthy (currentProjectId r)));
    split; reflexivity.
Qed.

Lemma fold_dragEntry_history (r : App) (c : Canvas) (project : Project)
      (point : Point) (dx dy : R) (positions : list (string * StartPos)) :
  forall a,
    history (fold_left (dragEntry r c project point dx dy) positions a)
    = history a
    /\ historyIndex
         (fold_left (dragEntry r c project point dx dy) positions a)
       = historyIndex a.
Proof.
  induction positions as [|entry rest IH]; intros a; [split; reflexivity|].
  cbn [fold_left]. destruct (IH (dragEntry r c project point dx dy a entry))
    as [H1 H2].
  rewrite H1, H2. unfold dragEntry.
  destruct (dragUpdate c project point dx dy entry).
  - apply history_updateElement_skip.
  - split; reflexivity.
Qed.

Lemma drag_run_history (moves : list MouseEvent) :
  forall (w : World) (project : Project),
    dragging w project ->
    exists project',
      dragging (pointerMoves moves w) project'
      /\ cv (pointerMoves moves w) = cv w
      /\ history (app (pointerMoves moves w)) = history (app w)
      /\ historyIndex (app (pointerMoves moves w)) = historyIndex (app w).
Proof.
  induction moves as [|e rest IH]; intros w project Hd.
  - exists project. split; [exact Hd|]. repeat split.
  - change (pointerMoves (e :: rest) w)
      with (pointerMoves rest (handleMouseMove e w)).
    destruct (drag_step e w project Hd) as [Hd' [Hcv _]].
    destruct (IH _ _ Hd') as [project' [Hd'' [Hcv' [Hh Hi]]]].
    exists project'. split; [exact Hd''|].
    split; [rewrite Hcv'; exact Hcv|].
    destruct Hd as [Hp [_ [H1 [H2 [H3 [H4 [Hsel [Href _]]]]]]]].
    rewrite Hh, Hi.
    rewrite (handleMouseMove_dragging e w project Hp H1 H2 H3 H4 Hsel Href).
    cbn [app withApp]. apply fold_dragEntry_history.
Qed.

(** X28.  A drag is one history entry: the pointer moves of a drag leave
    the history and its index alone, and the release appends one entry,
    the projects as the last move left them, after cutting the history
    behind the index; the release changes no element and ends the
    gesture with the snapshot emptied. *)
Theorem drag_records_one_history_entry
        (moves : list MouseEvent) (w : World) (project : Project) :
  dragging w project ->
  let w1 := pointerMoves moves w in
  let w' := handleMouseUp w1 in
  history (app w1) = history (app w)
  /\ historyIndex (app w1) = historyIndex (app w)
  /\ history (app w')
     = (slice0 (historyIndex (app w) + 1) (history (app w))
        ++ [projects (app w1)])%list
  /\ historyIndex (app w')
     = (Z.of_nat (List.length (history (app w'))) - 1)%Z
  /\ projects (app w') = projects (app w1)
  /\ isDragging (cv w') = false
  /\ elementStartPositions (cv w') = [].
Proof.
  intros Hd. cbv zeta.
  destruct (drag_run_history moves w project Hd)
    as [project' [Hd' [Hcv [Hh Hi]]]].
  split; [exact Hh|]. split; [exact Hi|].
  destruct Hd' as [Hp [_ [H1 [H2 [H3 [H4 _]]]]]].
  unfold handleMouseUp. rewrite Hp. cbv zeta. rewrite H1, H2, H3, H4.
  cbn [app cv withApp withCv].
  unfold saveCurrentStateToHistory.
  cbn [history historyIndex projects setHistory setHistoryIndex].
  rewrite Hh, Hi. repeat split.
Qed.

Lemma drag_records_one_history_entry_witness :
  let w1 :=
    pointerMoves [pointerAt 5 5; pointerAt 30 10] draggingRectAndLine in
  let w' := handleMouseUp w1 in
  history (app w1) = history (app draggingRectAndLine)
  /\ historyIndex (app w1) = historyIndex (app draggingRectAndLine)
  /\ history (app w')
     = (slice0 (historyIndex (app draggingRectAndLine) + 1)
               (history (app draggingRectAndLine))
        ++ [projects (app w1)])%list
  /\ historyIndex (app w')
     = (Z.of_nat (List.length (history (app w'))) - 1)%Z
  /\ projects (app w') = projects (app w1)
  /\ isDragging (cv w') = false
  /\ elementStartPositions (cv w') = [].
Proof.
  cbv zeta.
  apply (drag_records_one_history_entry [pointerAt 5 5; pointerAt 30 10]
           draggingRectAndLine (sampleProject [rect100; line345])).
  unfold dragging. cbn.
  repeat split; try reflexivity.
  - discriminate.
  - apply noDup_strings_2. discriminate.
  - apply noDup_strings_2. discriminate.
Defined.

(** ** Bounds and cursors *)

(** X29.  The centre of the bounds of an element is the middle of its
    bounding box, for the five kinds of element; the box of a line or of
    a door has a width and a height that are not negative and holds the
    anchor of the element, and the box of a line its end point too. *)
Theorem bounds_centre_is_middle (vt : ViewTransform)
        (element : CanvasElement) :
  let bd := getElementBounds vt element in
  centerX bd = bd_x bd + bd_width bd / 2
  /\ centerY bd = bd_y bd + bd_height bd / 2
  /\ (isLine element || isDoor element = true ->
      0 <= bd_width bd /\ 0 <= bd_height bd
      /\ bd_x bd <= elemX element <= bd_x bd + bd_width bd
      /\ bd_y bd <= elemY element <= bd_y bd + bd_height bd)
  /\ forall b endX endY lengthCm,
       element = Line b endX endY lengthCm ->
       bd_x bd <= endX <= bd_x bd + bd_width bd
       /\ bd_y bd <= endY <= bd_y bd + bd_height bd.
Proof.
  destruct element as [b ex ey l | b wd ht wc hc | b c f ff
                      | b wd al ar sd | b r rc];
    cbv zeta; unfold getElementBounds, elemX, elemY;
    cbn [base isLine isDoor orb centerX centerY bd_x bd_y bd_width bd_height].
  - assert (forall a c, Rmin a c <= a <= Rmax a c
                        /\ Rmin a c <= c <= Rmax a c
                        /\ Rmin a c + Rmax a c = a + c) as H.
    { intros a c. unfold Rmin, Rmax. destruct (Rle_dec a c); lra. }
    pose proof (H (el_x b) ex) as Hx. pose proof (H (el_y b) ey) as Hy.
    repeat split; try lra.
    all: match goal with
         | E : Line _ _ _ _ = Line _ _ _ _ |- _ =>
             injection E as E1 E2 E3 E4; subst; lra
         end.
  - repeat split; try lra; try discriminate.
  - repeat split; try lra; try discriminate.
  - set (p1x := el_x b + 0 * _ - 0 * _).
    set (p1y := el_y b + 0 * _ + 0 * _).
    set (p2x := el_x b + wd * _ - 0 * _).
    set (p2y := el_y b + wd * _ + 0 * _).
    set (p3x := el_x b + _ * _ - _ * _).
    set (p3y := el_y b + _ * _ + _ * _).
    assert (p1x = el_x b) as Hx by (unfold p1x; lra).
    assert (p1y = el_y b) as Hy by (unfold p1y; lra).
    assert (forall a c d, Rmin3 a c d <= a <= Rmax3 a c d) as H.
    { intros a c d. unfold Rmin3, Rmax3.
      pose proof (Rmin_l (Rmin a c) d). pose proof (Rmin_l a c).
      pose proof (Rmax_l (Rmax a c) d). pose proof (Rmax_l a c). lra. }
    pose proof (H p1x p2x p3x) as Bx. pose proof (H p1y p2y p3y) as By.
    rewrite Hx in Bx at 2 3. rewrite Hy in By at 2 3.
    repeat split; try lra; try discriminate.
  - repeat split; try lra; try discriminate.
Qed.

(** X30.  Two scale handles show the same resize cursor exactly when
    they are the same handle or lie across the element from each other,
    whatever the rotation: opposite handles never differ and handles on
    different axes never agree; without a handle the cursor is the
    default one. *)
Theorem cursor_shared_by_opposite_handles_only
        (h h' : Handle) (rotation : R) :
  (getCursorForHandle (Some h) rotation
   = getCursorForHandle (Some h') rotation
   <-> h' = h \/ h' = opposite h)
  /\ getCursorForHandle None rotation = "default"%string.
Proof.
  split; [|reflexivity].
  unfold getCursorForHandle. cbv zeta.
  destruct (Rgtb _ 45 && Rltb _ 135);
    destruct h, h'; cbn [opposite]; split;
    first [ intros _; (left; reflexivity) || (right; reflexivity)
          | intros H; discriminate H
          | intros [H|H]; discriminate H
          | intros; reflexivity ].
Qed.


(** ** A locked door in a group drag *)




(** ** The arrow keys and the history *)

Lemma handleKeyDown_arrows (e : KeyboardEvent) (w : World)
      (project : Project) :
  currentProject (app w) = Some project ->
  isArrow (key e) = true ->
  isInputField e = false ->
  selectedElementIds (app w) <> [] ->
  exists dx dy,
    handleKeyDown e w
    = withApp w
        (fold_left (nudge (app w) project dx dy) (selectedElementIds (app w))
                   (app w)).
Proof.
  intros Hp Hk Hi Hsel.
  unfold handleKeyDown. rewrite Hp. cbv zeta. rewrite Hk, Hi.
  destruct (selectedElementIds (app w)) as [|i rest] eqn:Es;
    [contradiction|].
  destruct (isArrow_cases _ Hk) as [E|[E|[E|E]]]; rewrite E;
    cbn [String.eqb Ascii.eqb Bool.eqb andb orb negb];
    rewrite ?andb_false_r; cbn [andb List.length Nat.ltb Nat.leb];
    eexists; eexists; reflexivity.
Qed.

Lemma nudge_history (r : App) (project : Project) (dx dy : R) (a : App)
      (i : string) :
  truthy (currentProjectId r) = true ->
  findById (elements project) i <> None ->
  history (nudge r project dx dy a i)
  = (slice0 (historyIndex r + 1) (history a) ++ [projects a])%list
  /\ historyIndex (nudge r project dx dy a i) = (historyIndex a + 1)%Z.
Proof.
  intros Ht Hf. unfold nudge.
  destruct (findById (elements project) i) as [element|]; [|contradiction].
  unfold updateElement. rewrite Ht. split; reflexivity.
Qed.

Lemma fold_nudge_history (r : App) (project : Project) (dx dy : R)
      (sel : list string) :
  truthy (currentProjectId r) = true ->
  (-1 <= historyIndex r)%Z ->
  (forall i, In i sel -> findById (elements project) i <> None) ->
  forall a,
    (historyIndex r + 1 <= Z.of_nat (List.length (history a)))%Z ->
    let a' := fold_left (nudge r project dx dy) sel a in
    historyIndex a' = (historyIndex a + Z.of_nat (List.length sel))%Z
    /\ (sel <> [] ->
        Z.of_nat (List.length (history a')) = (historyIndex r + 2)%Z).
Proof.
  intros Ht Hr. induction sel as [|i rest IH]; intros Hall a Hlen; cbv zeta.
  - cbn [fold_left List.length]. split; [lia|]. intros H. contradiction.
  - cbn [fold_left].
    destruct (nudge_history r project dx dy a i Ht
                (Hall i (or_introl eq_refl))) as [Hh Hi].
    assert (Hlen1 : Z.of_nat (List.length
                                (history (nudge r project dx dy a i)))
                    = (historyIndex r + 2)%Z).
    { rewrite Hh, length_app, slice0_length by lia. cbn [List.length]. lia. }
    destruct (IH (fun j Hj => Hall j (or_intror Hj))
                 (nudge r project dx dy a i)) as [Hi' Hlen'].
    { lia. }
    cbv zeta in Hi', Hlen'. split.
    + rewrite Hi', Hi. cbn [List.length]. lia.
    + intros _. destruct rest as [|j rest'].
      * cbn [fold_left]. exact Hlen1.
      * apply Hlen'. discriminate.
Qed.

(** X21.  The arrow keys can push the history index out of range.  An
    arrow key outside an input field calls [updateElement] with history
    once for every selected element, and all the calls belong to one
    render: with [n] selected elements of the project and a history
    index [k] in range, the index ends at [k + n] while the history ends
    with [k + 2] entries.  With one element the index is in range again;
    with two or more it is not; with three or more the next [undo] reads
    the history behind its end and stops at the exception of
    [JSON.parse]. *)
Theorem arrow_keys_overrun_the_history
        (e : KeyboardEvent) (w : World) (project : Project) :
  currentProject (app w) = Some project ->
  truthy (currentProjectId (app w)) = true ->
  isArrow (key e) = true ->
  isInputField e = false ->
  historyInRange (app w) ->
  selectedElementIds (app w) <> [] ->
  (forall i, In i (selectedElementIds (app w)) ->
             findById (elements project) i <> None) ->
  let n := List.length (selectedElementIds (app w)) in
  let a' := app (handleKeyDown e w) in
  historyIndex a' = (historyIndex (app w) + Z.of_nat n)%Z
  /\ Z.of_nat (List.length (history a')) = (historyIndex (app w) + 2)%Z
  /\ (n = 1%nat -> historyInRange a')
  /\ ((2 <= n)%nat -> ~ historyInRange a')
  /\ ((3 <= n)%nat -> exists a'', undo a' a' = Threw a'').
Proof.
  intros Hp Ht Hk Hi [Hlo Hhi] Hsel Hall. cbv zeta.
  destruct (handleKeyDown_arrows e w project Hp Hk Hi Hsel)
    as [dx [dy Hkey]].
  rewrite Hkey. cbn [app withApp].
  destruct (fold_nudge_history (app w) project dx dy
              (selectedElementIds (app w)) Ht Hlo Hall (app w))
    as [Hidx Hlen]; [lia|].
  cbv zeta in Hidx, Hlen. specialize (Hlen Hsel).
  set (a' := fold_left _ _ _) in *.
  set (n := List.length (selectedElementIds (app w))) in *.
  split; [exact Hidx|]. split; [exact Hlen|].
  split; [intros Hn; unfold historyInRange; lia|].
  split; [intros Hn [_ Hin]; lia|].
  intros Hn. unfold undo.
  destruct (Z.gtb_spec (historyIndex a') 0) as [_|Hneg]; [|lia].
  cbv zeta. unfold index.
  destruct (Z.ltb_spec (historyIndex a' - 1) 0) as [Hlt|_]; [lia|].
  destruct (nth_error (history a') (Z.to_nat (historyIndex a' - 1)))
    as [s|] eqn:Hs.
  - assert (Z.to_nat (historyIndex a' - 1) < List.length (history a'))%nat
      by (apply nth_error_Some; congruence).
    lia.
  - eexists. reflexivity.
Qed.

Lemma arrow_keys_overrun_the_history_witness :
  let e := plainKey "ArrowRight" in
  let n := List.length (selectedElementIds (app threeSelected)) in
  let a' := app (handleKeyDown e threeSelected) in
  historyIndex a' = (historyIndex (app threeSelected) + Z.of_nat n)%Z
  /\ Z.of_nat (List.length (history a'))
     = (historyIndex (app threeSelected) + 2)%Z
  /\ (n = 1%nat -> historyInRange a')
  /\ ((2 <= n)%nat -> ~ historyInRange a')
  /\ ((3 <= n)%nat -> exists a'', undo a' a' = Threw a'').
Proof.
  cbv zeta.
  apply (arrow_keys_overrun_the_history (plainKey "ArrowRight")
           threeSelected (sampleProject [rect100; line345; circle10]));
    try reflexivity.
  - unfold historyInRange. cbn. lia.
  - discriminate.
  - intros i [<-|[<-|[<-|[]]]]; discriminate.
Defined.
